(** * leadgen-scraper: the retriever and the service-review extractor of main.py

    A shallow embedding of [src/main.py] and the properties its specification
    states about it.

    Conventions of the embedding.
    - A Python [str] is a [string]; a character is a code point below 256, so
      the white space of [str.strip] and of the regular expression class [\s]
      is the set of code points 9-13, 28-32, 133 and 160.
    - The document is the tree that [BeautifulSoup(html, "html.parser")]
      returns: the parser is a collaborator of the program and is a parameter
      of the development (Section [Extractor]).
    - A [dict] is a [gmap]; the sections dictionary is only ever read by key,
      so its insertion order plays no role.
    - [requests.get] and [time.sleep] act on the outside world: the retriever
      runs against a transport function that gives the outcome of the n-th
      request, and it records the requests and the sleeps it performs in a
      trace.  A Python [float] is a binary64 number, a primitive [float]
      here; [time.sleep] refuses the lengths that CPython refuses.
    - The file system is a record of functions that say which call fails:
      creating a directory, opening the file, writing a row, closing the
      file. *)

From Stdlib Require Import String Ascii ZArith QArith Lia.
From Stdlib Require Import PrimFloat FloatOps SpecFloat.
From stdpp Require Import base option list gmap strings pretty.

Set Warnings "-register-all,-inexact-float".

Open Scope string_scope.
Open Scope list_scope.

(** ** Characters and strings *)

Module Text.

(** [str.isspace] on the code points below 256: this is the class that
    [str.strip()] removes and that [\s] matches in a [str] pattern. *)
Definition isspace (c : ascii) : bool :=
  let n := nat_of_ascii c in
  ((9 <=? n)%nat && (n <=? 13)%nat) || ((28 <=? n)%nat && (n <=? 32)%nat)
  || (n =? 133)%nat || (n =? 160)%nat.

(** [str.lower] on one character (code points below 256). *)
Definition lower_char (c : ascii) : ascii :=
  let n := nat_of_ascii c in
  if ((65 <=? n)%nat && (n <=? 90)%nat)
     || ((192 <=? n)%nat && (n <=? 222)%nat && negb (n =? 215)%nat)
  then ascii_of_nat (n + 32) else c.

Fixpoint lower (s : string) : string :=
  match s with
  | EmptyString => EmptyString
  | String c s' => String (lower_char c) (lower s')
  end.

Definition is_empty (s : string) : bool :=
  match s with EmptyString => true | String _ _ => false end.

Fixpoint lstrip (s : string) : string :=
  match s with
  | EmptyString => EmptyString
  | String c s' => if isspace c then lstrip s' else s
  end.

Fixpoint rstrip (s : string) : string :=
  match s with
  | EmptyString => EmptyString
  | String c s' =>
      let r := rstrip s' in
      if isspace c && is_empty r then EmptyString else String c r
  end.

(** [s.strip()] *)
Definition strip (s : string) : string := rstrip (lstrip s).

(** [sep.join(parts)] *)
Fixpoint join (sep : string) (parts : list string) : string :=
  match parts with
  | [] => EmptyString
  | [p] => p
  | p :: ps => p +:+ sep +:+ join sep ps
  end.

(** [sub in s] *)
Fixpoint contains (sub s : string) : bool :=
  String.prefix sub s
  || match s with
     | EmptyString => false
     | String _ s' => contains sub s'
     end.

(** [re.sub(r"\s+", " ", s)]: every maximal run of white space becomes one
    space.  [in_run] says that the previous character belonged to a run that
    has already been replaced. *)
Fixpoint sub_ws (in_run : bool) (s : string) : string :=
  match s with
  | EmptyString => EmptyString
  | String c s' =>
      if isspace c
      then (if in_run then sub_ws true s' else String " " (sub_ws true s'))
      else String c (sub_ws false s')
  end.

(** [s.split()]: the maximal runs of characters that are not white space.
    [w] is the word being read. *)
Fixpoint split_ws (w : string) (s : string) : list string :=
  match s with
  | EmptyString => if is_empty w then [] else [w]
  | String c s' =>
      if isspace c
      then (if is_empty w then split_ws EmptyString s'
            else w :: split_ws EmptyString s')
      else split_ws (w +:+ String c EmptyString) s'
  end.

End Text.

(** main.py, line 64: [_clean_text]. *)
Definition _clean_text (text : string) : string :=
  Text.strip (Text.sub_ws false text).

(** The normalization as the specification words it: the words of the text
    (its maximal runs without white space), one space between two of them,
    nothing before the first and nothing after the last. *)
Definition normalized_spec (text : string) : string :=
  Text.join " " (Text.split_ws EmptyString text).

(** ** The service heading pattern (main.py, line 61)

    [^(?P<name>.+?)\s+Review\s+for\s+Lawyers\s*$] with [re.IGNORECASE]. *)

Module ServiceRe.

(** [\s+] followed by something that is not white space: the run is consumed
    whole (a shorter run leaves white space where the pattern has a letter). *)
Definition ws_plus (s : string) : option string :=
  match s with
  | String c s' => if Text.isspace c then Some (Text.lstrip s') else None
  | EmptyString => None
  end.

(** A literal under [re.IGNORECASE], for text of code points below 256:
    there a character matches a letter of the pattern exactly when the two
    have the same lower case.  (Beyond 256, which the strings of this
    development do not hold, U+0130 and U+0131 also match i, U+017F also
    matches s and U+212A also matches k.) *)
Fixpoint literal_ci (lit s : string) : option string :=
  match lit, s with
  | EmptyString, _ => Some s
  | String l lit', String c s' =>
      if Ascii.eqb (Text.lower_char c) (Text.lower_char l)
      then literal_ci lit' s' else None
  | String _ _, EmptyString => None
  end.

(** [\s*$]: what is left is white space only ([$] also matches before a final
    newline, which is white space as well). *)
Definition ws_star_end (s : string) : bool := Text.is_empty (Text.lstrip s).

(** [\s+Review\s+for\s+Lawyers\s*$] *)
Definition tail_match (s : string) : bool :=
  match
    s1 ← ws_plus s; s2 ← literal_ci "Review" s1;
    s3 ← ws_plus s2; s4 ← literal_ci "for" s3;
    s5 ← ws_plus s4; literal_ci "Lawyers" s5
  with
  | Some rest => ws_star_end rest
  | None => false
  end.

Definition is_newline (c : ascii) : bool := Ascii.eqb c "010".

(** The lazy group [.+?]: [name] is what the group holds so far (never
    empty); the group grows by one character, which [.] refuses when it is a
    newline, until the rest of the pattern matches. *)
Fixpoint scan (name : string) (s : string) : option string :=
  if tail_match s then Some name
  else match s with
       | EmptyString => None
       | String c s' =>
           if is_newline c then None
           else scan (name +:+ String c EmptyString) s'
       end.

End ServiceRe.

(** [_SERVICE_RE.match(s)]: [None] when there is no match, otherwise
    [match.group("name")]. *)
Definition _SERVICE_RE_match (s : string) : option string :=
  match s with
  | EmptyString => None
  | String c s' =>
      if ServiceRe.is_newline c then None
      else ServiceRe.scan (String c EmptyString) s'
  end.

(** ** The parsed document *)

(** A page element: a string of the page, a comment (or another string kind
    that [get_text] leaves out), or a tag with its contents. *)
Inductive node : Type :=
| NavigableString (s : string)
| Comment (s : string)
| Tag (name : string) (contents : list node).

(** [node.name] ([None] for what is not a tag). *)
Definition node_name (n : node) : option string :=
  match n with Tag name _ => Some name | _ => None end.

(** [isinstance(n, Tag)] *)
Definition is_tag (n : node) : bool :=
  match n with Tag _ _ => true | _ => false end.

(** [isinstance(n, Tag) and n.name == t] *)
Definition is_tag_named (t : string) (n : node) : bool :=
  match n with Tag name _ => String.eqb name t | _ => false end.

(** The strings [get_text(..., strip=True)] joins: every string below the
    node in document order, stripped, the empty ones left out. *)
Fixpoint stripped_strings (n : node) : list string :=
  match n with
  | NavigableString s =>
      let t := Text.strip s in if Text.is_empty t then [] else [t]
  | Comment _ => []
  | Tag _ contents => flat_map stripped_strings contents
  end.

(** [n.get_text(" ", strip=True)] *)
Definition get_text (n : node) : string :=
  Text.join " " (stripped_strings n).

(** [find_all("h2")] below the given contents, in document order, each
    heading with what [h2.find_next_siblings()] walks: its following
    siblings. *)
Fixpoint find_all_h2_at (n : node) (next_siblings : list node)
  : list (node * list node) :=
  match n with
  | Tag name contents =>
      (if String.eqb name "h2" then [(n, next_siblings)] else [])
      ++ (fix below (l : list node) : list (node * list node) :=
            match l with
            | [] => []
            | c :: rest => find_all_h2_at c rest ++ below rest
            end) contents
  | _ => []
  end.

Fixpoint find_all_h2 (contents : list node) : list (node * list node) :=
  match contents with
  | [] => []
  | c :: rest => find_all_h2_at c rest ++ find_all_h2 rest
  end.

(** ** The extractor (main.py, lines 50-143) *)

(** main.py, line 50: the dataclass [ServiceReview]. *)
Record ServiceReview : Type := mkServiceReview {
  service_name : string;
  heading : string;
  url : string;
  summary : string;
  how_it_works : string;
  practice_areas : string;
  pricing : string
}.

(** [dataclasses.asdict(row)], as [write_csv] reads it (main.py, line 170). *)
Definition asdict (row : ServiceReview) : gmap string string :=
  <["service_name" := service_name row]>
  (<["heading" := heading row]>
  (<["url" := url row]>
  (<["summary" := summary row]>
  (<["how_it_works" := how_it_works row]>
  (<["practice_areas" := practice_areas row]>
  (<["pricing" := pricing row]> ∅)))))).

(** main.py, line 156: the columns of the output file. *)
Definition fieldnames : list string :=
  ["service_name"; "heading"; "url"; "summary"; "how_it_works";
   "practice_areas"; "pricing"].

(** [node.name in {"p", "li"}] *)
Definition is_p_or_li (n : node) : bool :=
  match node_name n with
  | Some name => String.eqb name "p" || String.eqb name "li"
  | None => false
  end.

(** The list [lines] that the loop of [_extract_section_text] builds
    (main.py, lines 69-74). *)
Fixpoint section_lines (container_nodes : list node) : list string :=
  match container_nodes with
  | [] => []
  | n :: rest =>
      if is_p_or_li n then
        let t := _clean_text (get_text n) in
        if Text.is_empty t then section_lines rest
        else t :: section_lines rest
      else section_lines rest
  end.

(** main.py, line 68: [_extract_section_text]. *)
Definition _extract_section_text (container_nodes : list node) : string :=
  Text.strip (Text.join (String "010" EmptyString)
                        (section_lines container_nodes)).

(** [sections.setdefault(key, [])], for its effect on the dictionary. *)
Definition setdefault (key : string) (sections : gmap string (list node))
  : gmap string (list node) :=
  match sections !! key with
  | Some _ => sections
  | None => <[key := []]> sections
  end.

(** [sections.setdefault(key, []).append(n)] *)
Definition setdefault_append (key : string) (n : node)
    (sections : gmap string (list node)) : gmap string (list node) :=
  <[key := default [] (sections !! key) ++ [n]]> sections.

(** [sections.get(key, [])] *)
Definition get_or_empty (key : string) (sections : gmap string (list node))
  : list node :=
  default [] (sections !! key).

(** The key a sub-heading with the given lower-cased title selects
    (main.py, lines 85-92). *)
Definition section_key (title : string) : string :=
  if Text.contains "how" title && Text.contains "work" title
  then "how_it_works"
  else if Text.contains "practice" title && Text.contains "area" title
  then "practice_areas"
  else if Text.contains "pricing" title || Text.contains "price" title
  then "pricing"
  else "section:" +:+ title.

(** The title of a sub-heading node (main.py, line 84). *)
Definition h3_title (n : node) : string :=
  Text.lower (_clean_text (get_text n)).

(** The loop of [_split_by_h3] (main.py, lines 82-99), from any state of
    [sections] and [current_key]. *)
Fixpoint split_loop (nodes : list node)
    (sections : gmap string (list node)) (current_key : string)
  : gmap string (list node) :=
  match nodes with
  | [] => sections
  | n :: rest =>
      if is_tag_named "h3" n then
        let current_key := section_key (h3_title n) in
        split_loop rest (setdefault current_key sections) current_key
      else if is_tag_named "h2" n then sections
      else split_loop rest (setdefault_append current_key n sections)
                      current_key
  end.

(** main.py, line 78: [_split_by_h3]. *)
Definition _split_by_h3 (nodes : list node) : gmap string (list node) :=
  split_loop nodes (<["summary" := []]> ∅) "summary".

(** The list [nodes] that [parse_services] collects after a heading
    (main.py, lines 117-122): the following siblings that are tags, up to the
    next [h2]. *)
Fixpoint collect_nodes (next_siblings : list node) : list node :=
  match next_siblings with
  | [] => []
  | sib :: rest =>
      if is_tag_named "h2" sib then []
      else if is_tag sib then sib :: collect_nodes rest
      else collect_nodes rest
  end.

(** The heading text of an [h2] (main.py, line 110). *)
Definition heading_text_of (h2 : node) : string := _clean_text (get_text h2).

(** The record built from a collected section (main.py, lines 124-141). *)
Definition review_of (service_name heading_text url : string)
    (nodes : list node) : ServiceReview :=
  let sections := _split_by_h3 nodes in
  {| service_name := service_name;
     heading := heading_text;
     url := url;
     summary := _extract_section_text (get_or_empty "summary" sections);
     how_it_works :=
       _extract_section_text (get_or_empty "how_it_works" sections);
     practice_areas :=
       _extract_section_text (get_or_empty "practice_areas" sections);
     pricing := _extract_section_text (get_or_empty "pricing" sections) |}.

(** One turn of the loop of [parse_services] (main.py, lines 110-141):
    [None] is the [continue] of a heading that does not match. *)
Definition service_at (url : string) (h2 : node) (next_siblings : list node)
  : option ServiceReview :=
  let heading_text := heading_text_of h2 in
  match _SERVICE_RE_match heading_text with
  | None => None
  | Some name =>
      Some (review_of (Text.strip name) heading_text url
                      (collect_nodes next_siblings))
  end.

(** The loop of [parse_services] over the headings found, [services] being
    the list built so far. *)
Fixpoint services_loop (url : string) (headings : list (node * list node))
    (services : list ServiceReview) : list ServiceReview :=
  match headings with
  | [] => services
  | (h2, next_siblings) :: rest =>
      match service_at url h2 next_siblings with
      | None => services_loop url rest services
      | Some row => services_loop url rest (services ++ [row])
      end
  end.

Section Extractor.

(** [BeautifulSoup(html, "html.parser")]: the contents of the parsed
    document. *)
Variable BeautifulSoup : string -> list node.

(** main.py, line 104: [parse_services]. *)
Definition parse_services (url html : string) : list ServiceReview :=
  let soup := BeautifulSoup html in
  services_loop url (find_all_h2 soup) [].

End Extractor.

(** ** The retriever (main.py, lines 14-47) *)

Module Retriever.

(** What can be raised: a [requests.RequestException] (a transport failure,
    or the [HTTPError] of [raise_for_status]), anything else a request or
    the operating system may raise, the [ValueError] and the [OverflowError]
    of [time.sleep] and of the product before it, and the program's own
    [FetchError] with its [__cause__]. *)
Inductive exn : Type :=
| RequestException (what : string)
| OtherException (what : string)
| ValueError (what : string)
| OverflowError (what : string)
| FetchError (message : string) (cause : option exn).

(** What the function does to the outside world, in order: the requests it
    makes and the waits that [time.sleep] has carried out. *)
Inductive event : Type :=
| Request (url : string) (headers : gmap string string) (timeout : Z)
| Sleep (seconds : float).

Inductive result : Type :=
| Return (text : string)
| Raise (e : exn).

(** main.py, line 14 *)
Definition DEFAULT_HEADERS : gmap string string :=
  <["User-Agent" := "Mozilla/5.0 (Macintosh; Intel Mac OS X 10_15_7) AppleWebKit/537.36 (KHTML, like Gecko) Chrome/120.0.0.0 Safari/537.36"]>
  (<["Accept" := "text/html,application/xhtml+xml,application/xml;q=0.9,*/*;q=0.8"]>
  (<["Accept-Language" := "en-US,en;q=0.9"]> ∅)).

(** main.py, lines 32-34: the caller's headers win on a common key. *)
Definition merged_headers (headers : option (gmap string string))
  : gmap string string :=
  match headers with
  | Some h => h ∪ DEFAULT_HEADERS
  | None => DEFAULT_HEADERS
  end.

(** [float(n)] for an [int]: the nearest binary64 number, ties to even,
    infinite here when [n] lies beyond the largest float. *)
Definition float_of_int (n : Z) : float :=
  SF2Prim (binary_normalize prec emax n 0 false).

(** The binary64 product of the backoff and the number of the attempt. *)
Definition product (backoff_seconds : float) (attempt : Z) : float :=
  PrimFloat.mul backoff_seconds (float_of_int attempt).

(** [backoff_seconds * attempt] (main.py, line 45) for a float and an int:
    the int is converted, which raises when it has no float, and the two
    floats are multiplied. *)
Definition backoff_delay (backoff_seconds : float) (attempt : Z)
  : float + exn :=
  if PrimFloat.is_infinity (float_of_int attempt)
  then inr (OverflowError "int too large to convert to float")
  else inl (product backoff_seconds attempt).

(** [time.sleep(secs)] for a float, [None] when it returns after the wait.
    The length is turned into nanoseconds in a signed 64-bit integer: a
    NaN is refused, then a length that does not fit (beyond 2^63 ns, about
    9.2e9 seconds, on either side), then a negative one.  A length of at
    most 2^62 ns is waited for.  For the lengths above, up to 2^63 ns, the
    outcome is the one of the operating system, which depends on how long
    the machine has been running: [long_sleep] gives what is raised then,
    if anything. *)
Definition time_sleep (long_sleep : float -> option exn) (secs : float)
  : option exn :=
  if PrimFloat.is_nan secs
  then Some (ValueError "Invalid value NaN (not a number)")
  else
    let ns := PrimFloat.mul secs 1e9%float in
    if PrimFloat.ltb ns (-0x1p63)%float || PrimFloat.ltb 0x1p63%float ns
    then Some (OverflowError "timestamp too large to convert to C _PyTime_t")
    else if PrimFloat.ltb ns 0%float
    then Some (ValueError "sleep length must be non-negative")
    else if PrimFloat.leb ns 0x1p62%float then None
    else long_sleep secs.

(** main.py, line 45: [time.sleep(backoff_seconds * attempt)], the length
    waited for or what is raised. *)
Definition wait (long_sleep : float -> option exn) (backoff_seconds : float)
    (attempt : Z) : float + exn :=
  match backoff_delay backoff_seconds attempt with
  | inr e => inr e
  | inl seconds =>
      match time_sleep long_sleep seconds with
      | Some e => inr e
      | None => inl seconds
      end
  end.

(** main.py, line 47 *)
Definition failure_message (url : string) (retries : Z) : string :=
  "Failed to fetch " +:+ url +:+ " after " +:+ pretty retries +:+ " attempts".

Section Fetch.

(** The outside world: the outcome of [requests.get] followed by
    [raise_for_status] in the attempt of the given number, the response text
    or what is raised; and the operating system behind [time.sleep]. *)
Variable transport : Z -> string + exn.
Variable long_sleep : float -> option exn.

(** The arguments, with the types of their annotations: the backoff is a
    [float]. *)
Variables (url : string) (headers : option (gmap string string))
          (timeout retries : Z) (backoff_seconds : float).

(** The [for] loop of main.py, lines 37-45, over the attempt numbers still
    to run, and the [raise] that follows it.  The state is [last_exc] and the
    trace so far.  What line 45 raises is raised inside the [except] clause
    and leaves the function. *)
Fixpoint attempts (numbers : list Z) (last_exc : option exn)
    (trace : list event) : result * list event :=
  match numbers with
  | [] => (Raise (FetchError (failure_message url retries) last_exc), trace)
  | attempt :: rest =>
      let trace := trace ++ [Request url (merged_headers headers) timeout] in
      match transport attempt with
      | inl text => (Return text, trace)
      | inr (RequestException what) =>
          let last_exc := Some (RequestException what) in
          if (attempt <? retries)%Z then
            match wait long_sleep backoff_seconds attempt with
            | inl seconds => attempts rest last_exc (trace ++ [Sleep seconds])
            | inr e => (Raise e, trace)
            end
          else attempts rest last_exc trace
      | inr e => (Raise e, trace)
      end
  end.

(** main.py, line 24: [fetch_html]; [range(1, retries + 1)] is
    [seqZ 1 retries]. *)
Definition fetch_html : result * list event :=
  attempts (seqZ 1 retries) None [].

End Fetch.

(** An outcome that counts as the failure of its attempt: the
    [RequestException] that the [except] clause catches. *)
Definition failed (outcome : string + exn) : bool :=
  match outcome with inr (RequestException _) => true | _ => false end.

(** What the attempt at which the loop stops leaves as the result of the
    function. *)
Definition final_result (url : string) (retries : Z) (outcome : string + exn)
  : result :=
  match outcome with
  | inl text => Return text
  | inr (RequestException what) =>
      Raise (FetchError (failure_message url retries)
                        (Some (RequestException what)))
  | inr e => Raise e
  end.

(** The requests of a trace, and its sleeps. *)
Definition is_request (e : event) : bool :=
  match e with Request _ _ _ => true | Sleep _ => false end.

Definition requests_made (trace : list event) : nat :=
  length (List.filter is_request trace).

Definition sleeps (trace : list event) : list float :=
  omap (λ e, match e with Sleep s => Some s | _ => None end) trace.

(** The trace of [m] attempts of which every one but the last is followed
    by its sleep. *)
Definition backoff_trace (req : event) (backoff_seconds : float) (m : Z)
  : list event :=
  flat_map (λ n, [req; Sleep (product backoff_seconds n)])
           (seqZ 1 (m - 1))
  ++ [req].

(** The real number that a float stands for, when it is finite: the length
    of a wait in seconds, as a fraction in lowest terms. *)
Definition seconds_value (x : float) : option Q :=
  match Prim2SF x with
  | S754_zero _ => Some 0%Q
  | S754_finite s m e =>
      Some (Qred (inject_Z (if s then Z.neg m else Z.pos m) * Qpower 2 e))
  | _ => None
  end.

End Retriever.

(** ** Documents and inputs used in the statements *)

(** The newline character as a string. *)
Definition LF : string := String "010" EmptyString.

(** [<p>text</p>], [<h2>text</h2>], [<h3>text</h3>] *)
Definition p_ (text : string) : node := Tag "p" [NavigableString text].
Definition h2_ (text : string) : node := Tag "h2" [NavigableString text].
Definition h3_ (text : string) : node := Tag "h3" [NavigableString text].

(** ** Auxiliary notions of the statements *)

(** The nodes of a scan that end in the bucket [key], the scan starting with
    the cursor [current_key]: the view of [_split_by_h3] from one key. *)
Fixpoint routed (key : string) (nodes : list node) (current_key : string)
  : list node :=
  match nodes with
  | [] => []
  | n :: rest =>
      if is_tag_named "h3" n then routed key rest (section_key (h3_title n))
      else if is_tag_named "h2" n then []
      else (if String.eqb current_key key then [n] else [])
           ++ routed key rest current_key
  end.

(** A node that the scan appends to the current bucket: neither a
    sub-heading nor a major heading. *)
Definition is_plain (n : node) : bool :=
  negb (is_tag_named "h3" n) && negb (is_tag_named "h2" n).

(** A title that none of the three patterns recognizes. *)
Definition unrecognized (title : string) : bool :=
  negb (Text.contains "how" title && Text.contains "work" title)
  && negb (Text.contains "practice" title && Text.contains "area" title)
  && negb (Text.contains "pricing" title || Text.contains "price" title).

(** The four keys that [parse_services] reads. *)
Definition named_keys : list string :=
  ["summary"; "how_it_works"; "practice_areas"; "pricing"].

(** "The bucket of an unrecognized sub-heading is distinct from the bucket
    of every other sub-heading", for the sub-headings at two different
    places of a section. *)
Definition distinct_from_other_subheadings : Prop :=
  forall (nodes : list node) (i j : nat) (u v : node),
    i <> j -> nodes !! i = Some u -> nodes !! j = Some v ->
    is_tag_named "h3" u = true -> is_tag_named "h3" v = true ->
    unrecognized (h3_title u) = true ->
    section_key (h3_title u) <> section_key (h3_title v).

(** Whether a heading text matches the service pattern. *)
Definition matches (heading_text : string) : bool :=
  match _SERVICE_RE_match heading_text with Some _ => true | None => false end.

(** The heading texts of a document, in document order. *)
Definition heading_texts (soup : list node) : list string :=
  map (λ site, heading_text_of site.1) (find_all_h2 soup).

(** The body of the round-trip scenario:
    [<p>Good service</p><h3>How It Works</h3><p>Step one</p>]. *)
Definition acme_body : list node :=
  [p_ "Good service"; h3_ "How It Works"; p_ "Step one"].

(** A page with that one service section. *)
Definition acme_soup : list node :=
  h2_ "Acme Review for Lawyers" :: acme_body.

(** The same page with its markup laid out on several lines: the parser
    gives a string for every line break between two tags. *)
Definition acme_soup_lines : list node :=
  [NavigableString LF; h2_ "Acme Review for Lawyers"; NavigableString LF;
   p_ "Good service"; NavigableString LF; h3_ "How It Works";
   NavigableString LF; p_ "Step one"; NavigableString LF].

(** A page with four major headings, the third of which is no service. *)
Definition abc_soup : list node :=
  [h2_ "A Review for Lawyers"; p_ "first";
   h2_ "B Review for Lawyers"; p_ "second";
   h2_ "Unrelated"; p_ "skipped";
   h2_ "C Review for Lawyers"; p_ "third"].

(** A service section without any sub-heading. *)
Definition plain_soup : list node :=
  [h2_ "Acme Review for Lawyers"; p_ "Good service";
   Tag "ul" [Tag "li" [NavigableString "nested"]];
   Tag "li" [NavigableString "Fast intake"]].

(** A section with the sub-headings How It Works and Pricing. *)
Definition two_part_section : list node :=
  [p_ "Intro"; h3_ "How It Works"; p_ "Step one";
   Tag "li" [NavigableString "Step two"]; h3_ "Pricing"; p_ "Free"].

(** A section in which the same unrecognized sub-heading occurs twice. *)
Definition faq_section : list node :=
  [h3_ "FAQ"; p_ "first answer"; h3_ "FAQ"; p_ "second answer"].

(** A string without white space. *)
Fixpoint no_space (s : string) : bool :=
  match s with
  | EmptyString => true
  | String c s' => negb (Text.isspace c) && no_space s'
  end.

(** A word: not empty, and without white space. *)
Definition is_word (w : string) : Prop :=
  Text.is_empty w = false /\ no_space w = true.

(** A string that begins with a character that is not white space. *)
Definition starts_with_word (s : string) : bool :=
  match s with
  | EmptyString => false
  | String c _ => negb (Text.isspace c)
  end.

(** Every white space character of the string is a space and is followed by
    a character that is not white space: no run of two, none at the end. *)
Fixpoint single_spaced (s : string) : bool :=
  match s with
  | EmptyString => true
  | String c s' =>
      (if Text.isspace c then Ascii.eqb c " " && starts_with_word s' else true)
      && single_spaced s'
  end.

(** A normalized text: no white space at either end, and single spaces
    only inside. *)
Definition tidy (s : string) : bool :=
  (Text.is_empty s || starts_with_word s) && single_spaced s.

(** ** The output side (main.py, lines 146-210) *)

Module Output.

(** [s.rstrip(ch)] for a one-character argument. *)
Fixpoint rstrip_char (ch : ascii) (s : string) : string :=
  match s with
  | EmptyString => EmptyString
  | String c s' =>
      let r := rstrip_char ch s' in
      if Ascii.eqb c ch && Text.is_empty r then EmptyString else String c r
  end.

(** [s.split(sep)] for a one-character separator; [cur] is the piece being
    read.  The list is never empty. *)
Fixpoint split_char (sep : ascii) (cur : string) (s : string) : list string :=
  match s with
  | EmptyString => [cur]
  | String c s' =>
      if Ascii.eqb c sep then cur :: split_char sep EmptyString s'
      else split_char sep (cur +:+ String c EmptyString) s'
  end.

(** [s.startswith(ch)], [s.endswith(ch)], [s == ch * len(s)] *)
Definition starts_with_char (ch : ascii) (s : string) : bool :=
  match s with String c _ => Ascii.eqb c ch | EmptyString => false end.

Fixpoint ends_with_char (ch : ascii) (s : string) : bool :=
  match s with
  | EmptyString => false
  | String c EmptyString => Ascii.eqb c ch
  | String _ s' => ends_with_char ch s'
  end.

Fixpoint all_char (ch : ascii) (s : string) : bool :=
  match s with
  | EmptyString => true
  | String c s' => Ascii.eqb c ch && all_char ch s'
  end.

(** main.py, line 177: [url.rstrip("/").split("/")[-1] or "output"]. *)
Definition slug_of (url : string) : string :=
  let piece :=
    List.last (split_char "/" EmptyString (rstrip_char "/" url)) EmptyString in
  if Text.is_empty piece then "output" else piece.

(** [os.path.join(a, b)] of [posixpath]. *)
Definition path_join (a b : string) : string :=
  if starts_with_char "/" b then b
  else if Text.is_empty a || ends_with_char "/" a then a +:+ b
  else a +:+ "/" +:+ b.

(** [p[:p.rfind("/") + 1]]: the path up to its last separator, included. *)
Fixpoint head_of (p : string) : string :=
  match p with
  | EmptyString => EmptyString
  | String c p' =>
      let h := head_of p' in
      if Text.is_empty h
      then (if Ascii.eqb c "/" then String c EmptyString else EmptyString)
      else String c h
  end.

(** [os.path.dirname(p)] of [posixpath]. *)
Definition dirname (p : string) : string :=
  let head := head_of p in
  if negb (Text.is_empty head) && negb (all_char "/" head)
  then rstrip_char "/" head else head.

(** What can leave the output side: what [fetch_html] raises, an [OSError]
    of the file system, and the [ValueError] of [DictWriter] for a row with
    a key that is no column. *)
Inductive exn : Type :=
| FromFetch (e : Retriever.exn)
| OSError (what : string)
| ExtraFieldsError.

(** What the program does to the outside world, in order: the calls it
    makes, those that fail included. *)
Inductive effect : Type :=
| Net (e : Retriever.event)
| Makedirs (path : string)
| Open (path : string)
| Writerow (cells : list string)
| Close (path : string)
| Print (line : string).

(** The file system and the clock as the program meets them:
    [os.path.isdir]; the error of [os.makedirs(path, exist_ok=True)] and of
    [open(path, "w")] if any; the error, if any, of the write of a row to
    the open file, by the number of the row (the header is row 0), and of
    closing the file, which flushes what the writes have left in the
    buffer; and the text of [datetime.now().strftime("%Y%m%d_%H%M%S")].
    Printing a line is taken to succeed. *)
Record world : Type := {
  isdir : string -> bool;
  makedirs_error : string -> option string;
  open_error : string -> option string;
  write_error : string -> nat -> option string;
  close_error : string -> option string;
  now : string
}.

(** [os.makedirs(path, exist_ok=True)] *)
Definition makedirs (w : world) (path : string) : option exn * list effect :=
  (OSError <$> makedirs_error w path, [Makedirs path]).

(** The [for] loop of main.py, lines 180-183; [None] when the loop ends
    without returning. *)
Fixpoint try_folders (w : world) (name : string) (folders : list string)
  : option ((string + exn) * list effect) :=
  match folders with
  | [] => None
  | folder :: rest =>
      if isdir w folder || String.eqb folder "results" then
        Some (match makedirs w folder with
              | (Some e, t) => (inr e, t)
              | (None, t) => (inl (path_join folder name), t)
              end)
      else try_folders w name rest
  end.

(** main.py, line 176: [_default_output_path]. *)
Definition _default_output_path (w : world) (url : string)
  : (string + exn) * list effect :=
  let slug := slug_of url in
  let ts := now w in
  let name := slug +:+ "_" +:+ ts +:+ ".csv" in
  match try_folders w name ["results"; "output"] with
  | Some r => r
  | None =>
      match makedirs w "results" with
      | (Some e, t) => (inr e, t)
      | (None, t) => (inl (path_join "results" name), t)
      end
  end.

(** main.py, line 171: the dictionary [{k: d.get(k, "") for k in fieldnames}]
    handed to [writerow]. *)
Definition rowdict_of (row : ServiceReview) : gmap string string :=
  list_to_map (map (λ k, (k, default EmptyString (asdict row !! k)))
                   fieldnames).

(** [DictWriter.writerow(rowdict)] with the default [restval=""] and
    [extrasaction="raise"]: the cells handed to the writer, in the order of
    the columns. *)
Definition dict_to_cells (columns : list string)
    (rowdict : gmap string string) : list string + exn :=
  if decide (dom rowdict ⊆ list_to_set columns)
  then inl (map (λ k, default EmptyString (rowdict !! k)) columns)
  else inr ExtraFieldsError.

(** [writer.writerow] for cells that the writer has accepted: the row of
    the given number is written to the file, which may fail. *)
Definition writerow (w : world) (output_path : string) (i : nat)
    (cells : list string) : option exn * list effect :=
  (OSError <$> write_error w output_path i, [Writerow cells]).

(** The loop of main.py, lines 169-171, from the row of number [i] on. *)
Fixpoint write_rows (w : world) (output_path : string) (i : nat)
    (rows_list : list ServiceReview) : option exn * list effect :=
  match rows_list with
  | [] => (None, [])
  | row :: rest =>
      match dict_to_cells fieldnames (rowdict_of row) with
      | inr e => (Some e, [])
      | inl cells =>
          match writerow w output_path i cells with
          | (Some e, t) => (Some e, t)
          | (None, t) =>
              let '(r, t') := write_rows w output_path (S i) rest in
              (r, t ++ t')
          end
      end
  end.

(** The body of the [with] statement, main.py, lines 167-171:
    [writeheader] writes the row of the column names. *)
Definition write_body (w : world) (output_path : string)
    (rows_list : list ServiceReview) : option exn * list effect :=
  match writerow w output_path 0 fieldnames with
  | (Some e, t) => (Some e, t)
  | (None, t) =>
      let '(r, t') := write_rows w output_path 1 rows_list in (r, t ++ t')
  end.

(** main.py, line 150: [write_csv].  Leaving the [with] statement closes
    the file, also when its body has raised; what closing raises replaces
    what the body has raised. *)
Definition write_csv (w : world) (rows : list ServiceReview)
    (output_path : string) : (string + exn) * list effect :=
  let out_dir := dirname output_path in
  let '(made, t) :=
    if Text.is_empty out_dir then (None, []) else makedirs w out_dir in
  match made with
  | Some e => (inr e, t)
  | None =>
      match open_error w output_path with
      | Some what => (inr (OSError what), t ++ [Open output_path])
      | None =>
          let '(raised, body_t) := write_body w output_path rows in
          let t := t ++ [Open output_path] ++ body_t ++ [Close output_path] in
          match close_error w output_path, raised with
          | Some what, _ => (inr (OSError what), t)
          | None, Some e => (inr e, t)
          | None, None => (inl output_path, t)
          end
      end
  end.

Section Main.

Variable w : world.
Variable transport : Z -> string + Retriever.exn.
Variable long_sleep : float -> option Retriever.exn.
Variable BeautifulSoup : string -> list node.

(** main.py, line 189: [main], from the parsed arguments: the URL and the
    value of [--output] ([None] when the option is absent).  The result is
    the value returned or what is raised. *)
Definition main (url : string) (output : option string)
  : (Z + exn) * list effect :=
  match Retriever.fetch_html transport long_sleep url None 30 3 1%float with
  | (Retriever.Raise e, net) => (inr (FromFetch e), map Net net)
  | (Retriever.Return html, net) =>
      let services := parse_services BeautifulSoup url html in
      let '(chosen, t1) :=
        match output with
        | Some o =>
            if Text.is_empty o then _default_output_path w url
            else (inl o, [])
        | None => _default_output_path w url
        end in
      match chosen with
      | inr e => (inr e, map Net net ++ t1)
      | inl output_path =>
          match write_csv w services output_path with
          | (inr e, t2) => (inr e, map Net net ++ t1 ++ t2)
          | (inl _, t2) =>
              (inl 0%Z,
               map Net net ++ t1 ++ t2
               ++ [Print ("Extracted "
                          +:+ pretty (Z.of_nat (length services))
                          +:+ " services");
                   Print ("Saved CSV to: " +:+ output_path)])
          end
      end
  end.

End Main.

(** The cells of the row of a record. *)
Definition cells_of (row : ServiceReview) : list string :=
  [service_name row; heading row; url row; summary row; how_it_works row;
   practice_areas row; pricing row].

(** A file system on which every call succeeds, at a fixed time. *)
Definition calm (ts : string) : world :=
  {| isdir := λ _, false;
     makedirs_error := λ _, None;
     open_error := λ _, None;
     write_error := λ _ _, None;
     close_error := λ _, None;
     now := ts |}.

End Output.

(** ** More auxiliary notions *)

(** A string without newline. *)
Fixpoint no_newline (s : string) : bool :=
  match s with
  | EmptyString => true
  | String c s' => negb (ServiceRe.is_newline c) && no_newline s'
  end.

(** A string without the given character. *)
Fixpoint no_char (ch : ascii) (s : string) : bool :=
  match s with
  | EmptyString => true
  | String c s' => negb (Ascii.eqb c ch) && no_char ch s'
  end.

(** A string of white space only. *)
Fixpoint all_space (s : string) : bool :=
  match s with
  | EmptyString => true
  | String c s' => Text.isspace c && all_space s'
  end.

(** The plain nodes that the scan of [_split_by_h3] reads: those before the
    first major heading. *)
Fixpoint scanned_plain (nodes : list node) : list node :=
  match nodes with
  | [] => []
  | n :: rest =>
      if is_tag_named "h3" n then scanned_plain rest
      else if is_tag_named "h2" n then []
      else n :: scanned_plain rest
  end.

(** The number of [h2] tags in a tree, and in a list of trees. *)
Fixpoint count_h2 (n : node) : nat :=
  match n with
  | Tag name contents =>
      (if String.eqb name "h2" then 1 else 0)
      + list_sum (map count_h2 contents)
  | _ => 0
  end.

(** The rest of the service pattern after the name, read as a description
    of strings: white space, the word Review, white space, the word for,
    white space, the word Lawyers, each in any case, and white space or
    nothing up to the end. *)
Definition review_for_lawyers (t : string) : Prop :=
  exists w1 r w2 f w3 l w4 : string,
    t = w1 +:+ r +:+ w2 +:+ f +:+ w3 +:+ l +:+ w4
    /\ all_space w1 = true /\ w1 <> EmptyString
    /\ Text.lower r = "review"
    /\ all_space w2 = true /\ w2 <> EmptyString
    /\ Text.lower f = "for"
    /\ all_space w3 = true /\ w3 <> EmptyString
    /\ Text.lower l = "lawyers"
    /\ all_space w4 = true.

(** All the nodes that a sections dictionary holds, bucket after bucket. *)
Definition all_buckets (sections : gmap string (list node)) : list node :=
  flat_map snd (map_to_list sections).

(** The effects that are lines printed, and those that are requests or
    waits of the retriever. *)
Definition is_print (e : Output.effect) : bool :=
  match e with Output.Print _ => true | _ => false end.

Definition is_net (e : Output.effect) : bool :=
  match e with Output.Net _ => true | _ => false end.

(** The path that [main] writes to, when [_default_output_path] returns:
    the value of [--output] unless it is absent or empty. *)
Definition chosen_path (w : Output.world) (url : string)
    (output : option string) : string :=
  match output with
  | Some o =>
      if Text.is_empty o
      then "results/" +:+ Output.slug_of url +:+ "_" +:+ Output.now w
           +:+ ".csv"
      else o
  | None =>
      "results/" +:+ Output.slug_of url +:+ "_" +:+ Output.now w +:+ ".csv"
  end.

(** Whether [main] asks [_default_output_path] for the path. *)
Definition uses_default (output : option string) : bool :=
  match output with Some o => Text.is_empty o | None => true end.

(** The nodes of a section before its first sub-heading or major
    heading. *)
Fixpoint leading_nodes (nodes : list node) : list node :=
  match nodes with
  | [] => []
  | n :: rest =>
      if is_tag_named "h3" n || is_tag_named "h2" n then []
      else n :: leading_nodes rest
  end.

(** The effects that create a directory. *)
Definition is_makedirs (e : Output.effect) : bool :=
  match e with Output.Makedirs _ => true | _ => false end.

(** ** Claims read as they are stated *)

(** Field isolation with no condition on what lies between the two
    sub-headings: in a section with the sub-heading How It Works and, later,
    the sub-heading Pricing, a [p] or [li] node between the two gives
    nothing to summary, pricing or practice_areas, which are the same with
    and without it. *)
Definition isolation_whatever_lies_between : Prop :=
  forall (service_name heading_text url : string)
         (pre before after post : list node) (hiw pr n : node),
    is_tag_named "h3" hiw = true ->
    section_key (h3_title hiw) = "how_it_works" ->
    is_tag_named "h3" pr = true ->
    section_key (h3_title pr) = "pricing" ->
    is_p_or_li n = true ->
    let with_n :=
      review_of service_name heading_text url
                (pre ++ hiw :: (before ++ n :: after) ++ pr :: post) in
    let without :=
      review_of service_name heading_text url
                (pre ++ hiw :: (before ++ after) ++ pr :: post) in
    summary with_n = summary without
    /\ pricing with_n = pricing without
    /\ practice_areas with_n = practice_areas without.

(** Retry exhaustion with no condition on the waits: when all the attempts
    fail the function raises [FetchError] after as many requests as there
    are attempts, and an attempt that succeeds after failures makes the
    function return its text. *)
Definition exhaustion_whatever_the_waits : Prop :=
  forall (transport : Z -> string + Retriever.exn)
         (long_sleep : float -> option Retriever.exn) (url : string)
         (headers : option (gmap string string)) (timeout retries : Z)
         (backoff_seconds : float),
    let run :=
      Retriever.fetch_html transport long_sleep url headers timeout retries
                           backoff_seconds in
    ((forall n : Z, (1 <= n <= retries)%Z ->
                   Retriever.failed (transport n) = true) ->
     (exists (message : string) (cause : option Retriever.exn),
         run.1 = Retriever.Raise (Retriever.FetchError message cause))
     /\ Z.of_nat (Retriever.requests_made run.2) = Z.max 0 retries)
    /\ (forall (m : Z) (text : string),
          (1 <= m <= retries)%Z ->
          (forall n : Z, (1 <= n < m)%Z ->
                         Retriever.failed (transport n) = true) ->
          transport m = inl text ->
          run.1 = Retriever.Return text).



(** The waits before attempt [m] are accepted: each product is a length
    that [time.sleep] waits for. *)
Definition waits_accepted (long_sleep : float -> option Retriever.exn)
    (backoff_seconds : float) (m : Z) : Prop :=
  forall n : Z, (1 <= n < m)%Z ->
    Retriever.wait long_sleep backoff_seconds n
    = inl (Retriever.product backoff_seconds n).

(** A float product that is the product of the real numbers. *)
Definition exact_product (backoff_seconds : float) (n : Z) : Prop :=
  exists b q : Q,
    Retriever.seconds_value backoff_seconds = Some b
    /\ Retriever.seconds_value (Retriever.product backoff_seconds n) = Some q
    /\ (q == b * inject_Z n)%Q.

(** The effects that close a file. *)
Definition is_close (e : Output.effect) : bool :=
  match e with Output.Close _ => true | _ => false end.

(** Every write to the file and its closing succeed, for a file of
    [rows] records. *)
Definition writes_succeed (w : Output.world) (output_path : string)
    (rows : nat) : Prop :=
  (forall i : nat, (i <= rows)%nat -> Output.write_error w output_path i = None)
  /\ Output.close_error w output_path = None.

(* ================================================================== *)
(** * Properties *)
(* ================================================================== *)

(** ** Text normalization *)

Module TextFacts.
Import Text.

Lemma append_cons (c : ascii) (s t : string) :
  String c s +:+ t = String c (s +:+ t).
Proof. reflexivity. Qed.

Lemma append_empty_l (s : string) : EmptyString +:+ s = s.
Proof. reflexivity. Qed.

Lemma append_empty_r (s : string) : s +:+ EmptyString = s.
Proof.
  induction s as [|c s IH]; [reflexivity | by rewrite append_cons, IH].
Qed.

Lemma append_assoc (a b c : string) : (a +:+ b) +:+ c = a +:+ (b +:+ c).
Proof.
  induction a as [|x a IH]; [reflexivity | by rewrite !append_cons, IH].
Qed.

Lemma is_empty_true (s : string) : is_empty s = true -> s = EmptyString.
Proof. by destruct s. Qed.

Lemma is_empty_snoc (w : string) (c : ascii) :
  is_empty (w +:+ String c EmptyString) = false.
Proof. by destruct w. Qed.

(** The lines that [split_ws] returns are never empty. *)
Lemma split_ws_nonempty (s w : string) :
  Forall (λ x, is_empty x = false) (split_ws w s).
Proof.
  revert w. induction s as [|c s IH]; intros w; simpl.
  - destruct (is_empty w) eqn:E; [constructor | by repeat constructor].
  - destruct (isspace c).
    + destruct (is_empty w) eqn:E; [apply IH | constructor; [done | apply IH]].
    + apply IH.
Qed.

Lemma join_nonempty_is_empty (sep : string) (l : list string) :
  Forall (λ x, is_empty x = false) l ->
  is_empty (join sep l) = match l with [] => true | _ => false end.
Proof.
  intros H. destruct H as [|x l Hx Hl]; [reflexivity |].
  destruct l; simpl; [done | by destruct x].
Qed.

Lemma join_cons (sep x : string) (l : list string) :
  join sep (x :: l)
  = match l with [] => x | _ => x +:+ sep +:+ join sep l end.
Proof. by destruct l. Qed.

(** Leading white space disappears under [sub_ws true]. *)
Lemma sub_ws_true_lstrip (s : string) : sub_ws true (lstrip s) = sub_ws true s.
Proof.
  induction s as [|c s IH]; simpl; [reflexivity |].
  destruct (isspace c) eqn:E; [exact IH | simpl; by rewrite E].
Qed.

Lemma lstrip_sub_ws (b : bool) (s : string) :
  lstrip (sub_ws b s) = sub_ws true (lstrip s).
Proof.
  revert b. induction s as [|c s IH]; intros b; simpl; [reflexivity |].
  destruct (isspace c) eqn:E.
  - destruct b; simpl; apply IH.
  - simpl. by rewrite E.
Qed.

(** The words read with [w] in hand, joined, are [w] followed by the rest
    of the text with its runs replaced and its end stripped. *)
Lemma join_split_ws (s w : string) :
  join " " (split_ws w s) = w +:+ rstrip (sub_ws (is_empty w) s).
Proof.
  revert w. induction s as [|c s IH]; intros w.
  - simpl. rewrite append_empty_r. by destruct w.
  - simpl. destruct (isspace c) eqn:E.
    + destruct (is_empty w) eqn:Ew.
      * apply is_empty_true in Ew. subst w. rewrite IH. reflexivity.
      * rewrite join_cons. cbn [rstrip].
        pose proof (IH EmptyString) as IH0.
        rewrite append_empty_l in IH0. cbn [is_empty] in IH0. rewrite <- IH0.
        rewrite (join_nonempty_is_empty _ _ (split_ws_nonempty s EmptyString)).
        destruct (split_ws EmptyString s) as [|x l] eqn:El.
        -- simpl. by rewrite append_empty_r.
        -- reflexivity.
    + rewrite IH, is_empty_snoc, append_assoc, append_cons, append_empty_l.
      simpl. rewrite E. by destruct (is_empty w).
Qed.

Lemma _clean_text_normalized (text : string) :
  _clean_text text = normalized_spec text.
Proof.
  unfold _clean_text, normalized_spec, strip.
  rewrite join_split_ws, lstrip_sub_ws, sub_ws_true_lstrip. reflexivity.
Qed.

Lemma no_space_snoc (w : string) (c : ascii) :
  no_space w = true -> isspace c = false ->
  no_space (w +:+ String c EmptyString) = true.
Proof.
  intros Hw Hc. induction w as [|x w IH].
  - rewrite append_empty_l. cbn [no_space]. by rewrite Hc.
  - rewrite append_cons. cbn [no_space] in *.
    apply andb_true_iff in Hw as [Hx Hw]. by rewrite Hx, IH.
Qed.

Lemma split_ws_words (s w : string) :
  no_space w = true -> Forall is_word (split_ws w s).
Proof.
  revert w. induction s as [|c s IH]; intros w Hw; simpl.
  - destruct (is_empty w) eqn:E; [constructor | by repeat constructor].
  - destruct (isspace c) eqn:Ec.
    + destruct (is_empty w) eqn:E; [by apply IH |].
      constructor; [done | by apply IH].
    + by apply IH, no_space_snoc.
Qed.

Lemma single_spaced_word (w t : string) :
  no_space w = true -> single_spaced (w +:+ t) = single_spaced t.
Proof.
  intros Hw. induction w as [|x w IH]; [reflexivity |].
  rewrite append_cons. cbn [single_spaced no_space] in *.
  apply andb_true_iff in Hw as [Hx Hw]. apply negb_true_iff in Hx.
  by rewrite Hx, IH.
Qed.

Lemma starts_with_word_append (w t : string) :
  is_word w -> starts_with_word (w +:+ t) = true.
Proof.
  intros [Hne Hw]. destruct w as [|x w]; [discriminate |].
  rewrite append_cons. cbn [starts_with_word no_space] in *.
  by apply andb_true_iff in Hw as [-> _].
Qed.

Lemma join_words_tidy (ws : list string) :
  Forall is_word ws -> tidy (join " " ws) = true.
Proof.
  unfold tidy. induction 1 as [|x l Hx Hl IH]; [reflexivity |].
  rewrite join_cons. destruct l as [|y l'].
  - rewrite <- (append_empty_r x).
    rewrite (starts_with_word_append _ _ Hx), orb_true_r.
    by rewrite single_spaced_word by apply Hx.
  - rewrite (starts_with_word_append _ _ Hx), orb_true_r.
    rewrite single_spaced_word by apply Hx.
    rewrite append_cons, append_empty_l. cbn [single_spaced].
    apply andb_true_iff in IH as [Hstart Hrest]. rewrite Hrest.
    inversion_clear Hl as [|? ? Hy _]. rewrite join_cons in *.
    destruct l' as [|z l''].
    + rewrite <- (append_empty_r y).
      by rewrite (starts_with_word_append _ _ Hy).
    + by rewrite (starts_with_word_append _ _ Hy).
Qed.

Lemma split_ws_word (x w t : string) :
  no_space x = true -> split_ws w (x +:+ t) = split_ws (w +:+ x) t.
Proof.
  revert w. induction x as [|c x IH]; intros w Hx.
  - by rewrite append_empty_l, append_empty_r.
  - rewrite append_cons. cbn [split_ws no_space] in *.
    apply andb_true_iff in Hx as [Hc Hx]. apply negb_true_iff in Hc.
    rewrite Hc, IH by exact Hx.
    by rewrite append_assoc, append_cons, append_empty_l.
Qed.

Lemma split_ws_join_words (ws : list string) :
  Forall is_word ws -> split_ws EmptyString (join " " ws) = ws.
Proof.
  induction 1 as [|x l Hx Hl IH]; [reflexivity |].
  pose proof Hx as [Hne Hns].
  rewrite join_cons. destruct l as [|y l'].
  - rewrite <- (append_empty_r x), split_ws_word, append_empty_l by exact Hns.
    simpl. by rewrite Hne, append_empty_r.
  - rewrite split_ws_word, append_empty_l by exact Hns.
    rewrite append_cons, append_empty_l. cbn [split_ws].
    change (isspace " ") with true. cbv iota. by rewrite Hne, IH.
Qed.

End TextFacts.

(** C9. [_clean_text] is the normalization of the specification: every run
    of white space inside the text, newlines included, becomes one space and
    the white space at both ends is removed, that is, the result is the words
    of the text joined by single spaces.  The result has no white space at
    its ends and no white space inside but single spaces, and its words are
    the words of the text.  The text of a paragraph holding
    two spaces, foo, two newlines, a space, bar and two spaces normalizes to
    "foo bar", as a string, as the text of its node and as the text of a section
    holding that node. *)
Theorem C9_clean_text_normalizes :
  (forall text : string, _clean_text text = normalized_spec text)
  /\ (forall text : string,
        tidy (_clean_text text) = true
        /\ Text.split_ws EmptyString (_clean_text text)
           = Text.split_ws EmptyString text)
  /\ _clean_text ("  foo" +:+ LF +:+ LF +:+ " bar  ") = "foo bar"
  /\ _clean_text (get_text (p_ ("  foo" +:+ LF +:+ LF +:+ " bar  "))) = "foo bar"
  /\ _extract_section_text [p_ ("  foo" +:+ LF +:+ LF +:+ " bar  ")] = "foo bar".
Proof.
  split; [exact TextFacts._clean_text_normalized |].
  split.
  - intros text. rewrite TextFacts._clean_text_normalized.
    unfold normalized_spec.
    pose proof (TextFacts.split_ws_words text EmptyString eq_refl) as Hwords.
    split; [by apply TextFacts.join_words_tidy |].
    by apply TextFacts.split_ws_join_words.
  - repeat split; vm_compute; reflexivity.
Qed.

(** ** Characters *)

Module CharFacts.
Import Text.

Ltac by_cases_on c :=
  destruct c as [[|] [|] [|] [|] [|] [|] [|] [|]]; vm_compute; reflexivity.

Lemma isspace_lower_char (c : ascii) : isspace (lower_char c) = isspace c.
Proof. by_cases_on c. Qed.

Lemma lower_char_idem (c : ascii) : lower_char (lower_char c) = lower_char c.
Proof. by_cases_on c. Qed.

Lemma is_newline_lower_char (c : ascii) :
  ServiceRe.is_newline (lower_char c) = ServiceRe.is_newline c.
Proof. by_cases_on c. Qed.

Lemma is_newline_space (c : ascii) :
  ServiceRe.is_newline c = true -> isspace c = true.
Proof. unfold ServiceRe.is_newline. by intros ->%Ascii.eqb_eq. Qed.

End CharFacts.

(** ** Strings *)

Module StringFacts.
Import Text TextFacts.

Lemma lower_append (a b : string) : lower (a +:+ b) = lower a +:+ lower b.
Proof.
  induction a as [|c a IH]; [reflexivity |].
  rewrite append_cons. cbn [lower]. by rewrite IH, append_cons.
Qed.

Lemma lower_idem (s : string) : lower (lower s) = lower s.
Proof.
  induction s as [|c s IH]; [reflexivity |].
  cbn [lower]. by rewrite CharFacts.lower_char_idem, IH.
Qed.

Lemma is_empty_lower (s : string) : is_empty (lower s) = is_empty s.
Proof. by destruct s. Qed.

Lemma lstrip_lower (s : string) : lstrip (lower s) = lower (lstrip s).
Proof.
  induction s as [|c s IH]; [reflexivity |].
  cbn [lower lstrip]. rewrite CharFacts.isspace_lower_char.
  by destruct (isspace c).
Qed.

Lemma length_append (a b : string) :
  String.length (a +:+ b) = (String.length a + String.length b)%nat.
Proof.
  induction a as [|c a IH]; [reflexivity |].
  rewrite append_cons. simpl. by rewrite IH.
Qed.

Lemma is_empty_append (a b : string) :
  is_empty (a +:+ b) = is_empty a && is_empty b.
Proof. by destruct a. Qed.

Lemma is_empty_false_cons (s : string) :
  is_empty s = false -> exists c s', s = String c s'.
Proof. destruct s as [|c s']; [discriminate | by exists c, s']. Qed.

(** Stripping on the left. *)
Lemma lstrip_all_space (w t : string) :
  all_space w = true -> lstrip (w +:+ t) = lstrip t.
Proof.
  induction w as [|c w IH]; [reflexivity |].
  rewrite append_cons. cbn [all_space lstrip].
  intros [Hc Hw]%andb_true_iff. rewrite Hc. by apply IH.
Qed.

Lemma lstrip_word (t : string) :
  is_empty t || starts_with_word t = true -> lstrip t = t.
Proof.
  destruct t as [|c t]; [reflexivity |]. cbn.
  intros Hc%negb_true_iff. by rewrite Hc.
Qed.

Lemma lstrip_split (s : string) :
  exists w, s = w +:+ lstrip s /\ all_space w = true.
Proof.
  induction s as [|c s (w & Hs & Hw)]; [by exists EmptyString |].
  cbn [lstrip]. destruct (isspace c) eqn:E.
  - exists (String c w). rewrite append_cons, <- Hs. cbn [all_space].
    by rewrite E, Hw.
  - by exists EmptyString.
Qed.

Lemma lstrip_tidy_start (s : string) :
  is_empty (lstrip s) || starts_with_word (lstrip s) = true.
Proof.
  induction s as [|c s IH]; [reflexivity |].
  cbn [lstrip]. destruct (isspace c) eqn:E; [exact IH |].
  cbn. by rewrite E.
Qed.

Lemma lstrip_empty_iff (s : string) :
  is_empty (lstrip s) = all_space s.
Proof.
  induction s as [|c s IH]; [reflexivity |].
  cbn [lstrip all_space]. by destruct (isspace c).
Qed.

(** Stripping on the right. *)
Lemma rstrip_single_spaced (s : string) :
  single_spaced s = true -> rstrip s = s.
Proof.
  induction s as [|c s IH]; [reflexivity |].
  cbn [single_spaced rstrip]. intros [Hc Hs]%andb_true_iff.
  rewrite (IH Hs). destruct (isspace c); [|reflexivity].
  apply andb_true_iff in Hc as [_ Hstart].
  by destruct s.
Qed.

Lemma rstrip_append (a b : string) :
  is_empty (rstrip b) = false -> rstrip (a +:+ b) = a +:+ rstrip b.
Proof.
  intros Hb. induction a as [|c a IH]; [reflexivity |].
  rewrite !append_cons. cbn [rstrip]. rewrite IH.
  rewrite is_empty_append, Hb, andb_false_r, andb_false_r. reflexivity.
Qed.

Lemma rstrip_starts_with_word (s : string) :
  starts_with_word s = true -> starts_with_word (rstrip s) = true.
Proof.
  destruct s as [|c s]; [discriminate |]. cbn [starts_with_word rstrip].
  intros Hc. apply negb_true_iff in Hc. rewrite Hc.
  cbn [andb starts_with_word]. by rewrite Hc.
Qed.

Lemma rstrip_idem (s : string) : rstrip (rstrip s) = rstrip s.
Proof.
  induction s as [|c s IH]; [reflexivity |].
  cbn [rstrip]. destruct (isspace c && is_empty (rstrip s)) eqn:E;
    [reflexivity |].
  cbn [rstrip]. by rewrite IH, E.
Qed.

(** [strip] leaves a string that it does not change any more, and that
    begins with a character that is not white space unless it is empty. *)
Lemma strip_idem (s : string) : strip (strip s) = strip s.
Proof.
  unfold strip.
  assert (H : lstrip (rstrip (lstrip s)) = rstrip (lstrip s)).
  { apply lstrip_word. pose proof (lstrip_tidy_start s) as Ht.
    destruct (lstrip s) as [|c t] eqn:E; [reflexivity |].
    cbn in Ht. rewrite rstrip_starts_with_word; [apply orb_true_r | exact Ht]. }
  by rewrite H, rstrip_idem.
Qed.

Lemma strip_word_start (s : string) :
  starts_with_word s = true -> is_empty (strip s) = false.
Proof.
  intros Hs. unfold strip. rewrite lstrip_word by (by rewrite Hs, orb_true_r).
  apply rstrip_starts_with_word in Hs. by destruct (rstrip s).
Qed.

(** The words of a text. *)
Lemma split_ws_nil_iff (s w : string) :
  split_ws w s = [] <-> is_empty w = true /\ all_space s = true.
Proof.
  revert w. induction s as [|c s IH]; intros w; cbn [split_ws all_space].
  - destruct (is_empty w); split; (done || by intros []).
  - destruct (isspace c) eqn:E.
    + destruct (is_empty w) eqn:Ew.
      * rewrite IH. cbn. tauto.
      * split; [discriminate | by intros []].
    + rewrite IH, is_empty_snoc. split; by intros [].
Qed.

Lemma tidy_clean_text (text : string) : tidy (_clean_text text) = true.
Proof.
  rewrite _clean_text_normalized. apply join_words_tidy.
  by apply split_ws_words.
Qed.

Lemma tidy_strip (s : string) : tidy s = true -> strip s = s.
Proof.
  unfold tidy, strip. intros [Hstart Hs]%andb_true_iff.
  rewrite lstrip_word by exact Hstart. by apply rstrip_single_spaced.
Qed.

End StringFacts.

(** ** The lines of a section *)

Module LineFacts.
Import Text TextFacts StringFacts.

(** A line of a section text: normalized and not empty. *)
Local Abbreviation line_ok :=
  (λ line : string, tidy line = true /\ is_empty line = false).

Lemma section_lines_ok (nodes : list node) :
  Forall line_ok (section_lines nodes).
Proof.
  induction nodes as [|n rest IH]; cbn [section_lines]; [constructor |].
  destruct (is_p_or_li n); [| exact IH].
  destruct (is_empty (_clean_text (get_text n))) eqn:E; [exact IH |].
  constructor; [| exact IH]. split; [apply tidy_clean_text | exact E].
Qed.

Lemma section_lines_app (a b : list node) :
  section_lines (a ++ b) = section_lines a ++ section_lines b.
Proof.
  induction a as [|n a IH]; [reflexivity |].
  cbn [app section_lines]. destruct (is_p_or_li n); [| exact IH].
  destruct (is_empty (_clean_text (get_text n))); by rewrite IH.
Qed.

Lemma line_ok_start (x t : string) :
  line_ok x -> starts_with_word (x +:+ t) = true.
Proof.
  intros [Ht Hne]. destruct x as [|c x]; [discriminate |].
  rewrite append_cons. unfold tidy in Ht. cbn in Ht |- *.
  by apply andb_true_iff in Ht as [-> _].
Qed.

Lemma join_lines_nonempty (sep : string) (l : list string) :
  Forall line_ok l -> l <> [] -> is_empty (join sep l) = false.
Proof.
  intros Hl Hne. rewrite join_nonempty_is_empty.
  - by destruct l.
  - eapply Forall_impl; [exact Hl | by intros x [_ H]].
Qed.

Lemma rstrip_join_lines (l : list string) :
  Forall line_ok l -> rstrip (join LF l) = join LF l.
Proof.
  induction 1 as [|x l Hx Hl IH]; [reflexivity |].
  rewrite join_cons. destruct l as [|y l'].
  - apply rstrip_single_spaced. destruct Hx as [Ht _].
    unfold tidy in Ht. by apply andb_true_iff in Ht as [_ ->].
  - assert (HJ : is_empty (join LF (y :: l')) = false)
      by (by apply join_lines_nonempty).
    rewrite rstrip_append.
    + f_equal. rewrite rstrip_append; [by rewrite IH | by rewrite IH].
    + rewrite rstrip_append by (by rewrite IH). reflexivity.
Qed.

Lemma strip_join_lines (l : list string) :
  Forall line_ok l -> strip (join LF l) = join LF l.
Proof.
  intros Hl. unfold strip.
  assert (Hstart : lstrip (join LF l) = join LF l).
  { apply lstrip_word. destruct Hl as [|x l Hx Hl]; [reflexivity |].
    rewrite join_cons. destruct l.
    - rewrite <- (append_empty_r x). by rewrite line_ok_start, orb_true_r.
    - by rewrite line_ok_start, orb_true_r. }
  rewrite Hstart. by apply rstrip_join_lines.
Qed.

End LineFacts.

(** ** The section scan *)

Module ScanFacts.

Lemma get_or_empty_setdefault (k key : string)
    (m : gmap string (list node)) :
  get_or_empty k (setdefault key m) = get_or_empty k m.
Proof.
  unfold setdefault, get_or_empty.
  destruct (m !! key) eqn:E; [reflexivity |].
  destruct (decide (key = k)) as [->|Hne].
  - by rewrite lookup_insert_eq, E.
  - by rewrite lookup_insert_ne.
Qed.

Lemma get_or_empty_append (k key : string) (n : node)
    (m : gmap string (list node)) :
  get_or_empty k (setdefault_append key n m)
  = get_or_empty k m ++ (if String.eqb key k then [n] else []).
Proof.
  unfold setdefault_append, get_or_empty.
  destruct (String.eqb_spec key k) as [->|Hne].
  - by rewrite lookup_insert_eq.
  - rewrite lookup_insert_ne by done. by rewrite app_nil_r.
Qed.

(** What [_split_by_h3] leaves under a key is what was there followed by the
    nodes routed to it. *)
Lemma get_or_empty_split_loop (k : string) (nodes : list node)
    (m : gmap string (list node)) (cur : string) :
  get_or_empty k (split_loop nodes m cur) = get_or_empty k m ++ routed k nodes cur.
Proof.
  revert m cur. induction nodes as [|n rest IH]; intros m cur; simpl.
  - by rewrite app_nil_r.
  - destruct (is_tag_named "h3" n).
    + by rewrite IH, get_or_empty_setdefault.
    + destruct (is_tag_named "h2" n).
      * by rewrite app_nil_r.
      * by rewrite IH, get_or_empty_append, <- app_assoc.
Qed.

Lemma get_or_empty_split (k : string) (nodes : list node) :
  get_or_empty k (_split_by_h3 nodes) = routed k nodes "summary".
Proof.
  unfold _split_by_h3. rewrite get_or_empty_split_loop.
  unfold get_or_empty.
  destruct (decide ("summary" = k)) as [<-|Hne].
  - by rewrite lookup_insert_eq.
  - by rewrite lookup_insert_ne.
Qed.

(** A run of plain nodes goes to the current bucket and to no other. *)
Lemma routed_plain (k : string) (mid rest : list node) (cur : string) :
  Forall (λ n, is_plain n = true) mid ->
  routed k (mid ++ rest) cur
  = (if String.eqb cur k then mid else []) ++ routed k rest cur.
Proof.
  induction 1 as [|n mid Hn _ IH]; simpl.
  - by destruct (String.eqb cur k).
  - unfold is_plain in Hn. apply andb_true_iff in Hn as [H3 H2].
    apply negb_true_iff in H3, H2. rewrite H3, H2, IH.
    by destruct (String.eqb cur k).
Qed.

(** A sub-heading reached by the scan moves the cursor. *)
Lemma routed_subheading (k : string) (pre rest : list node) (h : node)
    (cur : string) :
  Forall (λ n, is_tag_named "h2" n = false) pre ->
  is_tag_named "h3" h = true ->
  routed k (pre ++ h :: rest) cur
  = routed k pre cur ++ routed k rest (section_key (h3_title h)).
Proof.
  intros Hpre Hh. revert cur.
  induction Hpre as [|n pre Hn _ IH]; intros cur; simpl.
  - by rewrite Hh.
  - destruct (is_tag_named "h3" n); [apply IH |].
    rewrite Hn, IH. by rewrite app_assoc.
Qed.

(** What has been scanned before a major heading is all there is. *)
Lemma routed_stop (k : string) (pre rest : list node) (h : node)
    (cur : string) :
  is_tag_named "h3" h = false -> is_tag_named "h2" h = true ->
  routed k (pre ++ h :: rest) cur = routed k (pre ++ [h]) cur.
Proof.
  intros H3 H2. revert cur. induction pre as [|n pre IH]; intros cur; simpl.
  - by rewrite H3, H2.
  - destruct (is_tag_named "h3" n); [apply IH |].
    destruct (is_tag_named "h2" n); [reflexivity | by rewrite IH].
Qed.

Lemma routed_all_plain (k : string) (nodes : list node) (cur : string) :
  Forall (λ n, is_plain n = true) nodes ->
  routed k nodes cur = if String.eqb cur k then nodes else [].
Proof.
  intros H. rewrite <- (app_nil_r nodes) at 1.
  rewrite (routed_plain _ _ _ _ H). simpl. by rewrite app_nil_r.
Qed.

(** The scan of a section around a run of plain nodes that follows a
    sub-heading: the run goes to the bucket of that sub-heading. *)
Lemma routed_after_subheading (k : string) (pre mid rest : list node)
    (h : node) (cur : string) :
  Forall (λ n, is_tag_named "h2" n = false) pre ->
  is_tag_named "h3" h = true ->
  Forall (λ n, is_plain n = true) mid ->
  routed k (pre ++ h :: mid ++ rest) cur
  = routed k pre cur
    ++ (if String.eqb (section_key (h3_title h)) k then mid else [])
    ++ routed k rest (section_key (h3_title h)).
Proof.
  intros Hpre Hh Hmid.
  by rewrite (routed_subheading _ _ _ _ _ Hpre Hh), (routed_plain _ _ _ _ Hmid).
Qed.

Lemma routed_h3_cons (k : string) (h : node) (rest : list node)
    (cur : string) :
  is_tag_named "h3" h = true ->
  routed k (h :: rest) cur = routed k rest (section_key (h3_title h)).
Proof. intros Hh. simpl. by rewrite Hh. Qed.

(** The maps of the scan: a key once present stays, and a sub-heading
    reached by the scan creates its key. *)
Lemma split_loop_is_Some (k : string) (nodes : list node)
    (m : gmap string (list node)) (cur : string) :
  is_Some (m !! k) -> is_Some (split_loop nodes m cur !! k).
Proof.
  revert m cur. induction nodes as [|n rest IH]; intros m cur Hk; simpl.
  - exact Hk.
  - destruct (is_tag_named "h3" n).
    + apply IH. unfold setdefault.
      destruct (m !! section_key (h3_title n)) eqn:E; [exact Hk |].
      rewrite lookup_insert. case_decide; [eauto | exact Hk].
    + destruct (is_tag_named "h2" n); [exact Hk |].
      apply IH. unfold setdefault_append.
      rewrite lookup_insert. case_decide; [eauto | exact Hk].
Qed.

Lemma split_loop_subheading (pre rest : list node) (h : node)
    (m : gmap string (list node)) (cur : string) :
  Forall (λ n, is_tag_named "h2" n = false) pre ->
  is_tag_named "h3" h = true ->
  split_loop (pre ++ h :: rest) m cur
  = split_loop rest
      (setdefault (section_key (h3_title h)) (split_loop pre m cur))
      (section_key (h3_title h)).
Proof.
  intros Hpre Hh. revert m cur.
  induction Hpre as [|n pre Hn _ IH]; intros m cur; simpl.
  - by rewrite Hh.
  - destruct (is_tag_named "h3" n); [apply IH |]. rewrite Hn. apply IH.
Qed.

Lemma setdefault_is_Some (k : string) (m : gmap string (list node)) :
  is_Some (setdefault k m !! k).
Proof.
  unfold setdefault. destruct (m !! k) eqn:E; [by rewrite E |].
  rewrite lookup_insert_eq. eauto.
Qed.

(** The collected nodes hold no major heading. *)
Lemma collect_nodes_no_h2 (sibs : list node) :
  Forall (λ n, is_tag_named "h2" n = false) (collect_nodes sibs).
Proof.
  induction sibs as [|sib rest IH]; simpl; [constructor |].
  destruct (is_tag_named "h2" sib) eqn:E; [constructor |].
  destruct (is_tag sib); [by constructor | exact IH].
Qed.

Lemma Forall_plain (l : list node) :
  Forall (λ n, is_tag_named "h3" n = false) l ->
  Forall (λ n, is_tag_named "h2" n = false) l ->
  Forall (λ n, is_plain n = true) l.
Proof.
  intros H3 H2. induction H3 as [|n l Hn _ IH]; [constructor |].
  inversion_clear H2 as [|? ? Hn2 Hl2].
  constructor; [unfold is_plain; by rewrite Hn, Hn2 | by apply IH].
Qed.

Lemma section_key_cases (title : string) :
  (unrecognized title = true /\ section_key title = "section:" +:+ title)
  \/ (unrecognized title = false
      /\ (section_key title = "how_it_works"
          \/ section_key title = "practice_areas"
          \/ section_key title = "pricing")).
Proof.
  unfold unrecognized, section_key.
  destruct (Text.contains "how" title && Text.contains "work" title);
    [right; auto |].
  destruct (Text.contains "practice" title && Text.contains "area" title);
    [right; auto |].
  destruct (Text.contains "pricing" title || Text.contains "price" title);
    [right; auto | left; auto].
Qed.

(** No sub-heading selects the summary: once the cursor has left it, nothing
    more is routed to it. *)
Lemma section_key_not_summary (title : string) :
  section_key title <> "summary".
Proof.
  destruct (section_key_cases title) as [[_ H] | [_ [H | [H | H]]]];
    rewrite H; discriminate.
Qed.

Lemma routed_summary_left (nodes : list node) (cur : string) :
  cur <> "summary" -> routed "summary" nodes cur = [].
Proof.
  revert cur. induction nodes as [|n rest IH]; intros cur Hcur; simpl.
  - reflexivity.
  - destruct (is_tag_named "h3" n).
    + apply IH, section_key_not_summary.
    + destruct (is_tag_named "h2" n); [reflexivity |].
      rewrite (IH _ Hcur).
      by destruct (String.eqb_spec cur "summary").
Qed.

(** The loop of [parse_services] appends, heading by heading, the records of
    the headings that match. *)
Lemma services_loop_omap (url : string) (headings : list (node * list node))
    (services : list ServiceReview) :
  services_loop url headings services
  = services ++ omap (λ site, service_at url site.1 site.2) headings.
Proof.
  revert services.
  induction headings as [|[h2 sibs] rest IH]; intros services; simpl.
  - by rewrite app_nil_r.
  - destruct (service_at url h2 sibs); rewrite IH; [|reflexivity].
    by rewrite <- app_assoc.
Qed.

Lemma omap_cons {A B : Type} (f : A -> option B) (x : A) (l : list A) :
  omap f (x :: l)
  = match f x with Some y => y :: omap f l | None => omap f l end.
Proof. reflexivity. Qed.

(** A record comes from a heading that matches, and carries its text. *)
Lemma service_at_Some (url : string) (h2 : node) (sibs : list node)
    (row : ServiceReview) :
  service_at url h2 sibs = Some row ->
  exists name,
    _SERVICE_RE_match (heading_text_of h2) = Some name
    /\ row = review_of (Text.strip name) (heading_text_of h2) url
                       (collect_nodes sibs).
Proof.
  unfold service_at.
  destruct (_SERVICE_RE_match (heading_text_of h2)) as [name|];
    [|discriminate].
  intros [= <-]. by exists name.
Qed.

Lemma service_at_None (url : string) (h2 : node) (sibs : list node) :
  service_at url h2 sibs = None ->
  _SERVICE_RE_match (heading_text_of h2) = None.
Proof.
  unfold service_at.
  by destruct (_SERVICE_RE_match (heading_text_of h2)).
Qed.

(** The headings of the records are the heading texts that match. *)
Lemma headings_of_records (url : string) (sites : list (node * list node)) :
  map heading (omap (λ site, service_at url site.1 site.2) sites)
  = List.filter matches (map (λ site, heading_text_of site.1) sites).
Proof.
  induction sites as [|[h2 sibs] rest IH]; [reflexivity |].
  rewrite omap_cons. cbn [map List.filter fst snd].
  unfold matches at 1.
  destruct (service_at url h2 sibs) as [row|] eqn:E.
  - apply service_at_Some in E as (name & -> & ->).
    cbn [map heading review_of]. by rewrite IH.
  - apply service_at_None in E as ->. exact IH.
Qed.

(** The names of the records are the stripped groups of those texts. *)
Lemma names_of_records (url : string) (sites : list (node * list node)) :
  map service_name (omap (λ site, service_at url site.1 site.2) sites)
  = omap (λ t, Text.strip <$> _SERVICE_RE_match t)
         (map (λ site, heading_text_of site.1) sites).
Proof.
  induction sites as [|[h2 sibs] rest IH]; [reflexivity |].
  rewrite omap_cons. cbn [map fst snd]. rewrite omap_cons.
  destruct (service_at url h2 sibs) as [row|] eqn:E.
  - apply service_at_Some in E as (name & -> & ->).
    cbn [map service_name review_of fmap option_fmap option_map].
    by rewrite IH.
  - apply service_at_None in E as ->. exact IH.
Qed.

End ScanFacts.

(** ** Section text *)

Module SectionFacts.

Lemma section_lines_filter (nodes : list node) :
  section_lines (List.filter is_p_or_li nodes) = section_lines nodes.
Proof.
  induction nodes as [|n rest IH]; simpl; [reflexivity |].
  destruct (is_p_or_li n) eqn:E; simpl; [rewrite E |]; by rewrite IH.
Qed.

Lemma section_lines_none (nodes : list node) :
  Forall (λ n, is_p_or_li n = false) nodes -> section_lines nodes = [].
Proof. induction 1 as [|n rest Hn _ IH]; simpl; [|rewrite Hn]; done. Qed.

Lemma _extract_section_text_none (nodes : list node) :
  Forall (λ n, is_p_or_li n = false) nodes ->
  _extract_section_text nodes = EmptyString.
Proof.
  intros H. unfold _extract_section_text.
  by rewrite (section_lines_none _ H).
Qed.

(** The final [strip] changes nothing: the text is the lines joined. *)
Lemma _extract_section_text_joined (nodes : list node) :
  _extract_section_text nodes = Text.join LF (section_lines nodes).
Proof.
  unfold _extract_section_text. fold LF.
  apply LineFacts.strip_join_lines, LineFacts.section_lines_ok.
Qed.

Lemma section_lines_nil_iff (nodes : list node) :
  section_lines nodes = []
  <-> Forall (λ n, is_p_or_li n = false
                   \/ _clean_text (get_text n) = EmptyString) nodes.
Proof.
  induction nodes as [|n rest IH]; cbn [section_lines].
  - split; [constructor | reflexivity].
  - rewrite Forall_cons. destruct (is_p_or_li n) eqn:E.
    + destruct (_clean_text (get_text n)) as [|c t] eqn:Et; cbn [Text.is_empty].
      * rewrite IH. split; [by split; [right |] | by intros [_ H]].
      * split; [discriminate |].
        intros [[H | H] _]; discriminate.
    + rewrite IH. split; [by split; [left |] | by intros [_ H]].
Qed.

Lemma _extract_section_text_empty_iff (nodes : list node) :
  _extract_section_text nodes = EmptyString
  <-> Forall (λ n, is_p_or_li n = false
                   \/ _clean_text (get_text n) = EmptyString) nodes.
Proof.
  rewrite _extract_section_text_joined, <- section_lines_nil_iff.
  split.
  - intros H. pose proof (LineFacts.section_lines_ok nodes) as Hok.
    destruct (section_lines nodes) as [|x l]; [reflexivity |].
    pose proof (LineFacts.join_lines_nonempty LF _ Hok ltac:(discriminate))
      as Hne.
    rewrite H in Hne. discriminate.
  - by intros ->.
Qed.

Lemma is_p_or_li_name (n : node) :
  is_p_or_li n = true <-> node_name n = Some "p" \/ node_name n = Some "li".
Proof.
  unfold is_p_or_li. destruct (node_name n) as [name|].
  - rewrite orb_true_iff, !String.eqb_eq.
    split; (intros [H | H]; [left | right]); congruence.
  - split; [discriminate | intros [H | H]; discriminate].
Qed.

End SectionFacts.

(** C10. [_extract_section_text] looks at the tag of each member of the
    bucket and at nothing else.  The text of a member alone in its bucket is
    its normalized text when its own tag is [p] or [li], and the empty
    string otherwise.  In a bucket, a member whose tag is [p] or [li] and
    whose text is not empty gives one line of the derived text, its
    normalized text, between the lines of the members before it and those
    of the members after it, and any other member gives nothing: the text is
    the same without it.  So the derived text is empty exactly when no
    member is a [p] or [li] with a text, in particular for a bucket whose
    only member is a [ul] or [ol], whatever [li] items that container
    wraps: the practice areas of a section that lists them in a [ul] are
    empty. *)
Theorem C10_only_direct_p_li_contribute :
  (forall n : node,
      is_p_or_li n = true
      <-> node_name n = Some "p" \/ node_name n = Some "li")
  /\ (forall n : node,
        _extract_section_text [n]
        = if is_p_or_li n then _clean_text (get_text n) else EmptyString)
  /\ (forall (before after : list node) (n : node),
        _extract_section_text (before ++ n :: after)
        = Text.join LF
            (section_lines before
             ++ (if is_p_or_li n
                    && negb (Text.is_empty (_clean_text (get_text n)))
                 then [_clean_text (get_text n)] else [])
             ++ section_lines after))
  /\ (forall (before after : list node) (n : node),
        is_p_or_li n = false ->
        _extract_section_text (before ++ n :: after)
        = _extract_section_text (before ++ after))
  /\ (forall nodes : list node,
        _extract_section_text nodes
        = _extract_section_text (List.filter is_p_or_li nodes))
  /\ (forall nodes : list node,
        _extract_section_text nodes = EmptyString
        <-> Forall (λ n, is_p_or_li n = false
                         \/ _clean_text (get_text n) = EmptyString) nodes)
  /\ (forall (name : string) (items : list node),
        name = "ul" \/ name = "ol" ->
        _extract_section_text [Tag name items] = EmptyString)
  /\ (forall service_name heading_text url : string,
        practice_areas
          (review_of service_name heading_text url
             [h3_ "Practice Areas";
              Tag "ul" [Tag "li" [NavigableString "Family law"];
                        Tag "li" [NavigableString "Injury"]]])
        = EmptyString
        /\ practice_areas
             (review_of service_name heading_text url
                [h3_ "Practice Areas";
                 Tag "li" [NavigableString "Family law"];
                 Tag "li" [NavigableString "Injury"]])
           = "Family law" +:+ LF +:+ "Injury").
Proof.
  split; [exact SectionFacts.is_p_or_li_name |].
  split; [| split; [| split; [| split; [| split; [| split]]]]].
  - intros n. rewrite SectionFacts._extract_section_text_joined.
    cbn [section_lines]. destruct (is_p_or_li n); [| reflexivity].
    by destruct (_clean_text (get_text n)).
  - intros before after n.
    rewrite SectionFacts._extract_section_text_joined.
    rewrite LineFacts.section_lines_app. cbn [section_lines].
    destruct (is_p_or_li n); [| reflexivity].
    by destruct (Text.is_empty (_clean_text (get_text n))).
  - intros before after n Hn.
    rewrite !SectionFacts._extract_section_text_joined.
    rewrite !LineFacts.section_lines_app. cbn [section_lines].
    by rewrite Hn.
  - intros nodes. unfold _extract_section_text.
    by rewrite SectionFacts.section_lines_filter.
  - exact SectionFacts._extract_section_text_empty_iff.
  - intros name items [-> | ->];
      apply SectionFacts._extract_section_text_none; by repeat constructor.
  - intros sn ht url0. split; vm_compute; reflexivity.
Qed.

(** A list of two items gives no text when it is the member of the bucket,
    and a line per item when the items are the members. *)
Lemma C10_witness :
  _extract_section_text
    [Tag "ul" [Tag "li" [NavigableString "Family law"];
               Tag "li" [NavigableString "Injury"]]] = EmptyString
  /\ _extract_section_text [Tag "li" [NavigableString "Family law"]]
     = "Family law"
  /\ _extract_section_text
       ([Tag "li" [NavigableString "Family law"]]
        ++ Tag "img" [] :: [Tag "li" [NavigableString "Injury"]])
     = _extract_section_text
         ([Tag "li" [NavigableString "Family law"]]
          ++ [Tag "li" [NavigableString "Injury"]]).
Proof.
  destruct C10_only_direct_p_li_contribute
    as (_ & Halone & _ & Hskip & _ & _ & Hlist & _).
  split; [apply Hlist; by left |].
  split; [by rewrite Halone | by apply Hskip].
Defined.

(** ** The records of a document *)

(** C2. [parse_services] emits one record per major heading whose text
    matches the service pattern, in the document order of those headings,
    and none for the others: its result is the list of the records of the
    matching headings, and the headings of its records are the matching
    heading texts of the document, in order.  For a document whose major
    headings read A Review for Lawyers, B Review for Lawyers, Unrelated,
    C Review for Lawyers, the records are those of A, B and C in that
    order. *)
Theorem C2_records_follow_matching_headings
    (BeautifulSoup : string -> list node) (url html : string) :
  parse_services BeautifulSoup url html
  = omap (λ site, service_at url site.1 site.2)
         (find_all_h2 (BeautifulSoup html))
  /\ map heading (parse_services BeautifulSoup url html)
     = List.filter matches (heading_texts (BeautifulSoup html))
  /\ (heading_texts (BeautifulSoup html)
      = ["A Review for Lawyers"; "B Review for Lawyers"; "Unrelated";
         "C Review for Lawyers"] ->
      map service_name (parse_services BeautifulSoup url html)
      = ["A"; "B"; "C"]
      /\ map heading (parse_services BeautifulSoup url html)
         = ["A Review for Lawyers"; "B Review for Lawyers";
            "C Review for Lawyers"]).
Proof.
  unfold parse_services, heading_texts.
  rewrite ScanFacts.services_loop_omap. simpl.
  generalize (find_all_h2 (BeautifulSoup html)) as sites. intros sites.
  pose proof (ScanFacts.headings_of_records url sites) as Hh.
  pose proof (ScanFacts.names_of_records url sites) as Hn.
  split; [reflexivity | split; [exact Hh |]].
  intros Htexts. rewrite Hh, Hn, Htexts. split; vm_compute; reflexivity.
Qed.

(** The page [abc_soup] has these four headings. *)
Lemma C2_witness :
  map service_name (parse_services (λ _, abc_soup) "https://example.org/a" "")
  = ["A"; "B"; "C"]
  /\ map heading (parse_services (λ _, abc_soup) "https://example.org/a" "")
     = ["A Review for Lawyers"; "B Review for Lawyers";
        "C Review for Lawyers"].
Proof.
  apply (proj2 (proj2 (C2_records_follow_matching_headings
                         (λ _, abc_soup) "https://example.org/a" ""))).
  vm_compute. reflexivity.
Defined.

(** C1. A document with exactly one major heading, whose normalized text is
    Acme Review for Lawyers and after which the nodes
    [<p>Good service</p><h3>How It Works</h3><p>Step one</p>] are collected,
    gives exactly one record: the service Acme with that heading, the given
    source URL, the summary Good service, how_it_works Step one and empty
    practice_areas and pricing. *)
Theorem C1_round_trip
    (BeautifulSoup : string -> list node) (url html : string)
    (h2 : node) (next_siblings : list node) :
  find_all_h2 (BeautifulSoup html) = [(h2, next_siblings)] ->
  heading_text_of h2 = "Acme Review for Lawyers" ->
  collect_nodes next_siblings = acme_body ->
  parse_services BeautifulSoup url html
  = [ {| service_name := "Acme";
         heading := "Acme Review for Lawyers";
         url := url;
         summary := "Good service";
         how_it_works := "Step one";
         practice_areas := "";
         pricing := "" |} ].
Proof.
  intros Hsites Hheading Hbody.
  unfold parse_services. rewrite Hsites. cbn [services_loop].
  unfold service_at. rewrite Hheading, Hbody.
  vm_compute. reflexivity.
Qed.

(** The page [acme_soup_lines] is such a document. *)
Lemma C1_witness :
  parse_services (λ _, acme_soup_lines) "https://example.org/reviews" "<html>"
  = [ {| service_name := "Acme";
         heading := "Acme Review for Lawyers";
         url := "https://example.org/reviews";
         summary := "Good service";
         how_it_works := "Step one";
         practice_areas := "";
         pricing := "" |} ].
Proof.
  apply (C1_round_trip (λ _, acme_soup_lines) "https://example.org/reviews"
           "<html>" (h2_ "Acme Review for Lawyers")
           (tail (tail acme_soup_lines)));
    vm_compute; reflexivity.
Defined.

(** C4. Every record of [parse_services] has its seven fields, each a
    string: the dictionary that the writer takes from it holds a value for
    every column.  The record comes from a matching heading of the document;
    when the nodes collected after that heading hold no sub-heading, its
    how_it_works, practice_areas and pricing are empty and its summary is the
    text of the [p] and [li] nodes of the section, the empty string when
    there is none. *)
Theorem C4_fields_always_present
    (BeautifulSoup : string -> list node) (url html : string)
    (row : ServiceReview) :
  row ∈ parse_services BeautifulSoup url html ->
  (forall k : string, k ∈ fieldnames -> is_Some (asdict row !! k))
  /\ exists (h2 : node) (next_siblings : list node),
      (h2, next_siblings) ∈ find_all_h2 (BeautifulSoup html)
      /\ service_at url h2 next_siblings = Some row
      /\ (Forall (λ n, is_tag_named "h3" n = false)
                 (collect_nodes next_siblings) ->
          how_it_works row = EmptyString
          /\ practice_areas row = EmptyString
          /\ pricing row = EmptyString
          /\ summary row = _extract_section_text (collect_nodes next_siblings)
          /\ (Forall (λ n, is_p_or_li n = false)
                     (collect_nodes next_siblings) ->
              summary row = EmptyString)).
Proof.
  intros Hrow. split.
  - intros k Hk. unfold fieldnames in Hk.
    rewrite !elem_of_cons, elem_of_nil in Hk. unfold asdict.
    destruct Hk as [->|[->|[->|[->|[->|[->|[->|[]]]]]]]];
      repeat (rewrite lookup_insert_ne by done);
      rewrite lookup_insert_eq; eauto.
  - unfold parse_services in Hrow.
    rewrite ScanFacts.services_loop_omap in Hrow. simpl in Hrow.
    apply list_elem_of_omap in Hrow as ([h2 sibs] & Hin & Hat).
    simpl in Hat. exists h2, sibs. split; [exact Hin | split; [exact Hat |]].
    intros Hno3.
    apply ScanFacts.service_at_Some in Hat as (name & _ & ->).
    pose proof (ScanFacts.Forall_plain _ Hno3
                  (ScanFacts.collect_nodes_no_h2 sibs)) as Hplain.
    unfold review_of. cbn [how_it_works practice_areas pricing summary].
    rewrite !ScanFacts.get_or_empty_split.
    rewrite !(ScanFacts.routed_all_plain _ _ _ Hplain).
    repeat split; try reflexivity.
    intros Hnone. cbn [String.eqb Ascii.eqb Bool.eqb].
    by apply SectionFacts._extract_section_text_none.
Qed.

(** The page [plain_soup] has one service section and no sub-heading. *)
Lemma C4_witness :
  exists row,
    parse_services (λ _, plain_soup) "https://example.org/reviews" "<html>"
    = [row]
    /\ (forall k : string, k ∈ fieldnames -> is_Some (asdict row !! k))
    /\ summary row = "Good service" +:+ LF +:+ "Fast intake"
    /\ how_it_works row = EmptyString
    /\ practice_areas row = EmptyString
    /\ pricing row = EmptyString.
Proof.
  eexists. split; [vm_compute; reflexivity |].
  match goal with
  | |- context [asdict ?r] =>
      destruct (C4_fields_always_present (λ _, plain_soup)
                  "https://example.org/reviews" "<html>" r)
        as [Hk (h2 & sibs & Hin & _ & Hsection)]
  end.
  - vm_compute. constructor.
  - assert (Hsites : find_all_h2 plain_soup
                     = [(h2_ "Acme Review for Lawyers", tail plain_soup)])
      by (vm_compute; reflexivity).
    cbv beta in Hin. rewrite Hsites in Hin.
    apply list_elem_of_singleton in Hin. injection Hin as -> ->.
    destruct Hsection as (Hhow & Hareas & Hpricing & Hsummary & _);
      [vm_compute; repeat constructor |].
    split; [exact Hk |].
    split; [rewrite Hsummary; vm_compute; reflexivity |].
    split; [exact Hhow | split; [exact Hareas | exact Hpricing]].
Defined.

(** ** Field isolation *)

(** The claim fails when another sub-heading stands between How It Works
    and Pricing: the nodes after that sub-heading go to its bucket.  Here
    the paragraph b, after the sub-heading Practice Areas, is the practice
    areas of the record, and with the sub-heading Price List in that place
    it is part of the pricing. *)
Lemma C3_counterexample :
  ~ isolation_whatever_lies_between
  /\ service_at "https://example.org/reviews" (h2_ "Acme Review for Lawyers")
       [h3_ "How It Works"; p_ "a"; h3_ "Practice Areas"; p_ "b";
        h3_ "Pricing"; p_ "c"]
     = Some (mkServiceReview "Acme" "Acme Review for Lawyers"
               "https://example.org/reviews" "" "a" "b" "c")
  /\ pricing
       (review_of "Acme" "Acme Review for Lawyers"
          "https://example.org/reviews"
          [h3_ "How It Works"; p_ "a"; h3_ "Price List"; p_ "b";
           h3_ "Pricing"; p_ "c"])
     = "b" +:+ LF +:+ "c".
Proof.
  split; [| split; vm_compute; reflexivity].
  intros Hclaim.
  destruct (Hclaim "Acme" "Acme Review for Lawyers"
              "https://example.org/reviews"
              [] [p_ "a"; h3_ "Practice Areas"] [] [p_ "c"]
              (h3_ "How It Works") (h3_ "Pricing") (p_ "b"))
    as (_ & _ & Hareas); try (vm_compute; reflexivity).
  vm_compute in Hareas. discriminate Hareas.
Qed.

(** C3, amended. In a matched section whose collected nodes hold the
    sub-heading How It Works and, as the next sub-heading, Pricing, with no
    other sub-heading between the two, the nodes between
    the two go to how_it_works and to no other field: how_it_works is the
    text of a bucket that holds them, whatever they are, between what the
    rest of the section puts before and after them, while summary, pricing
    and practice_areas are the ones of the same section with any other nodes
    in their place.  When the section has no other sub-heading, summary is
    the text of the nodes before How It Works, how_it_works the text of the
    nodes between the two sub-headings and pricing the text of the nodes
    after Pricing. *)
Theorem C3_field_isolation
    (url : string) (h2 : node) (next_siblings : list node)
    (row : ServiceReview) (pre mid post : list node) (hiw pr : node) :
  service_at url h2 next_siblings = Some row ->
  collect_nodes next_siblings = pre ++ hiw :: mid ++ pr :: post ->
  is_tag_named "h3" hiw = true ->
  section_key (h3_title hiw) = "how_it_works" ->
  is_tag_named "h3" pr = true ->
  section_key (h3_title pr) = "pricing" ->
  Forall (λ n, is_tag_named "h3" n = false) mid ->
  let section_with := λ between : list node,
    review_of (service_name row) (heading row) url
              (pre ++ hiw :: between ++ pr :: post) in
  row = section_with mid
  /\ (exists before after : list node,
        forall between : list node,
          Forall (λ n, is_plain n = true) between ->
          how_it_works (section_with between)
          = _extract_section_text (before ++ between ++ after))
  /\ (forall between : list node,
        Forall (λ n, is_plain n = true) between ->
        summary (section_with between) = summary row
        /\ pricing (section_with between) = pricing row
        /\ practice_areas (section_with between) = practice_areas row)
  /\ (forall rest : list node,
        summary (review_of (service_name row) (heading row) url
                           (pre ++ hiw :: rest))
        = summary (review_of (service_name row) (heading row) url pre))
  /\ (Forall (λ n, is_tag_named "h3" n = false) pre ->
      Forall (λ n, is_tag_named "h3" n = false) post ->
      summary row = _extract_section_text pre
      /\ how_it_works row = _extract_section_text mid
      /\ pricing row = _extract_section_text post
      /\ practice_areas row = EmptyString).
Proof.
  intros Hat Hnodes Hhiw Khiw Hpr Kpr Hmid3 section_with.
  apply ScanFacts.service_at_Some in Hat as (name & _ & ->).
  pose proof (ScanFacts.collect_nodes_no_h2 next_siblings) as Hno2.
  rewrite Hnodes in Hno2.
  apply Forall_app in Hno2 as [Hpre2 Hrest2].
  apply Forall_cons in Hrest2 as [_ Hrest2].
  apply Forall_app in Hrest2 as [Hmid2 Hrest2].
  apply Forall_cons in Hrest2 as [_ Hpost2].
  pose proof (ScanFacts.Forall_plain _ Hmid3 Hmid2) as Hmid.
  assert (Hrouted : forall k between,
             Forall (λ n, is_plain n = true) between ->
             routed k (pre ++ hiw :: between ++ pr :: post) "summary"
             = routed k pre "summary"
               ++ (if String.eqb "how_it_works" k then between else [])
               ++ routed k post "pricing").
  { intros k between Hb.
    rewrite (ScanFacts.routed_after_subheading _ _ _ _ _ _ Hpre2 Hhiw Hb).
    by rewrite Khiw, (ScanFacts.routed_h3_cons _ _ _ _ Hpr), Kpr. }
  assert (Hself : review_of (Text.strip name) (heading_text_of h2) url
                             (collect_nodes next_siblings)
                  = section_with mid).
  { subst section_with. cbv beta. by rewrite Hnodes. }
  split; [exact Hself |].
  split; [|split; [|split]].
  - exists (routed "how_it_works" pre "summary"),
           (routed "how_it_works" post "pricing").
    intros between Hb. subst section_with. cbv beta.
    unfold review_of. cbn [how_it_works].
    by rewrite ScanFacts.get_or_empty_split, (Hrouted _ _ Hb).
  - intros between Hb. rewrite Hself. subst section_with. cbv beta.
    unfold review_of. cbn [summary pricing practice_areas].
    rewrite !ScanFacts.get_or_empty_split.
    rewrite !(Hrouted _ _ Hb), !(Hrouted _ _ Hmid). done.
  - intros rest. unfold review_of. cbn [summary].
    rewrite !ScanFacts.get_or_empty_split.
    rewrite (ScanFacts.routed_subheading _ _ _ _ _ Hpre2 Hhiw), Khiw.
    rewrite (ScanFacts.routed_summary_left rest "how_it_works") by discriminate.
    by rewrite app_nil_r.
  - intros Hpre3 Hpost3. rewrite Hself. subst section_with. cbv beta.
    unfold review_of. cbn [summary how_it_works pricing practice_areas].
    rewrite !ScanFacts.get_or_empty_split, !(Hrouted _ _ Hmid).
    rewrite !(ScanFacts.routed_all_plain _ _ _
                (ScanFacts.Forall_plain _ Hpre3 Hpre2)).
    rewrite !(ScanFacts.routed_all_plain _ _ _
                (ScanFacts.Forall_plain _ Hpost3 Hpost2)).
    cbn. rewrite !app_nil_r. done.
Qed.

(** The section [two_part_section] after a matching heading. *)
Lemma C3_witness :
  exists row,
    service_at "https://example.org/reviews" (h2_ "Acme Review for Lawyers")
               two_part_section = Some row
    /\ summary row = "Intro"
    /\ how_it_works row = "Step one" +:+ LF +:+ "Step two"
    /\ pricing row = "Free"
    /\ practice_areas row = EmptyString.
Proof.
  eexists. split; [vm_compute; reflexivity |].
  match goal with
  | |- context [summary ?r] =>
      destruct (C3_field_isolation "https://example.org/reviews"
                  (h2_ "Acme Review for Lawyers") two_part_section r
                  [p_ "Intro"]
                  [p_ "Step one"; Tag "li" [NavigableString "Step two"]]
                  [p_ "Free"] (h3_ "How It Works") (h3_ "Pricing"))
        as (_ & _ & _ & _ & Hexact)
  end; try (vm_compute; reflexivity).
  - repeat constructor.
  - destruct Hexact as (Hs & Hh & Hp & Ha);
      [repeat constructor | repeat constructor |].
    rewrite Hs, Hh, Hp, Ha. vm_compute. repeat split.
Defined.

(** ** Unrecognized sub-headings *)

(** The claim that the bucket of an unrecognized sub-heading is distinct
    from the bucket of every other sub-heading fails: two sub-headings with
    the same title, here FAQ twice in one section, select the same key, and
    the nodes that follow them end in one bucket. *)
Lemma C7_counterexample :
  ~ distinct_from_other_subheadings
  /\ section_key (h3_title (h3_ "FAQ")) = "section:faq"
  /\ _split_by_h3 faq_section !! "section:faq"
     = Some [p_ "first answer"; p_ "second answer"].
Proof.
  split; [|split; vm_compute; reflexivity].
  intros Hclaim.
  apply (Hclaim faq_section 0%nat 2%nat (h3_ "FAQ") (h3_ "FAQ"));
    try reflexivity.
  discriminate.
Qed.

(** C7, amended. A sub-heading whose title none of the three patterns
    recognizes selects the key made of "section:" and its title.  That key
    is none of the four named keys, and it differs from the key of every
    sub-heading with another title; sub-headings with the same title share
    it.  The scan goes on without failing: the key is present in the result
    and the nodes that follow the sub-heading are in its bucket.  Nothing of
    that bucket reaches the record: the record of the section is the record
    of the section without those nodes. *)
Theorem C7_unrecognized_subheading (u : node) :
  is_tag_named "h3" u = true ->
  unrecognized (h3_title u) = true ->
  let key := section_key (h3_title u) in
  key = "section:" +:+ h3_title u
  /\ (key ∉ named_keys)
  /\ (forall v : node,
        is_tag_named "h3" v = true ->
        h3_title v <> h3_title u -> section_key (h3_title v) <> key)
  /\ (forall v : node,
        h3_title v = h3_title u -> section_key (h3_title v) = key)
  /\ (forall pre mid rest : list node,
        Forall (λ n, is_tag_named "h2" n = false) pre ->
        Forall (λ n, is_plain n = true) mid ->
        is_Some (_split_by_h3 (pre ++ u :: mid ++ rest) !! key)
        /\ (exists before after : list node,
              get_or_empty key (_split_by_h3 (pre ++ u :: mid ++ rest))
              = before ++ mid ++ after)
        /\ (forall service_name heading_text url : string,
              review_of service_name heading_text url
                        (pre ++ u :: mid ++ rest)
              = review_of service_name heading_text url (pre ++ u :: rest))).
Proof.
  intros Hu Hun key.
  assert (Hkey : key = "section:" +:+ h3_title u).
  { subst key. destruct (ScanFacts.section_key_cases (h3_title u))
      as [[_ H] | [H _]]; [exact H | congruence]. }
  assert (Hnamed : forall k, k ∈ named_keys -> String.eqb key k = false).
  { intros k Hk. rewrite Hkey. unfold named_keys in Hk.
    rewrite !elem_of_cons, elem_of_nil in Hk.
    destruct Hk as [->|[->|[->|[->|[]]]]]; reflexivity. }
  split; [exact Hkey |]. split; [|split; [|split]].
  - intros Hin. apply Hnamed in Hin. by rewrite String.eqb_refl in Hin.
  - intros v Hv Hne Heq. rewrite Hkey in Heq.
    destruct (ScanFacts.section_key_cases (h3_title v))
      as [[_ H] | [_ [H | [H | H]]]]; rewrite H in Heq.
    + apply (inj (String.append "section:")) in Heq. contradiction.
    + discriminate Heq.
    + discriminate Heq.
    + discriminate Heq.
  - intros v Hv. subst key. by rewrite Hv.
  - intros pre mid rest Hpre Hmid. split; [|split].
    + unfold _split_by_h3.
      rewrite (ScanFacts.split_loop_subheading _ _ _ _ _ Hpre Hu).
      apply ScanFacts.split_loop_is_Some, ScanFacts.setdefault_is_Some.
    + exists (routed key pre "summary"), (routed key rest key).
      rewrite ScanFacts.get_or_empty_split.
      rewrite (ScanFacts.routed_after_subheading _ _ _ _ _ _ Hpre Hu Hmid).
      fold key. by rewrite String.eqb_refl.
    + intros sn ht url0. unfold review_of.
      rewrite !ScanFacts.get_or_empty_split.
      rewrite !(ScanFacts.routed_after_subheading _ _ _ _ _ _ Hpre Hu Hmid).
      rewrite !(ScanFacts.routed_subheading _ _ _ _ _ Hpre Hu).
      fold key.
      rewrite !Hnamed by (unfold named_keys; set_solver).
      reflexivity.
Qed.

(** A section with the sub-heading FAQ between its summary and its
    pricing. *)
Lemma C7_witness :
  (section_key (h3_title (h3_ "FAQ")) ∉ named_keys)
  /\ review_of "Acme" "Acme Review for Lawyers" "https://example.org/reviews"
       ([p_ "Intro"] ++ h3_ "FAQ" :: [p_ "an answer"]
                     ++ [h3_ "Pricing"; p_ "Free"])
     = review_of "Acme" "Acme Review for Lawyers" "https://example.org/reviews"
         ([p_ "Intro"] ++ h3_ "FAQ" :: [h3_ "Pricing"; p_ "Free"]).
Proof.
  destruct (C7_unrecognized_subheading (h3_ "FAQ"))
    as (_ & Hnot & _ & _ & Hscan); try (vm_compute; reflexivity).
  split; [exact Hnot |].
  destruct (Hscan [p_ "Intro"] [p_ "an answer"] [h3_ "Pricing"; p_ "Free"])
    as (_ & _ & Hreview); [repeat constructor | repeat constructor |].
  apply Hreview.
Defined.

(** ** The retriever *)

Module RetrieverFacts.
Import Retriever.

Section Loop.

Variable transport : Z -> string + exn.
Variable long_sleep : float -> option exn.
Variables (url : string) (headers : option (gmap string string))
          (timeout retries : Z) (backoff_seconds : float).

Local Abbreviation req := (Request url (merged_headers headers) timeout).
Local Abbreviation run :=
  (attempts transport long_sleep url headers timeout retries backoff_seconds).
Local Abbreviation pairs :=
  (flat_map (λ n, [req; Sleep (product backoff_seconds n)])).

(** The loop from attempt [k] on, when the attempts before [m] fail, their
    waits are accepted and the loop stops at [m]: with a response, with an
    exception that is not caught, or because [m] is the last attempt. *)
Lemma attempts_until (m : Z) (d : nat) :
  forall (k : Z) (last_exc : option exn) (trace : list event),
    d = Z.to_nat (m - k) ->
    (1 <= k <= m)%Z -> (m <= retries)%Z ->
    (forall n, (k <= n < m)%Z ->
               wait long_sleep backoff_seconds n
               = inl (product backoff_seconds n)) ->
    (forall n, (k <= n < m)%Z -> failed (transport n) = true) ->
    (failed (transport m) = true -> m = retries) ->
    run (seqZ k (retries - k + 1)) last_exc trace
    = (final_result url retries (transport m),
       trace ++ pairs (seqZ k (m - k)) ++ [req]).
Proof.
  induction d as [|d IH]; intros k last_exc trace Hd Hk Hm Hwait Hfail Hstop.
  - assert (k = m) as -> by lia.
    rewrite Z.sub_diag. cbn [seqZ flat_map]. rewrite app_nil_l.
    rewrite (seqZ_cons m (retries - m + 1)) by lia.
    cbn [attempts].
    destruct (transport m) as [text | e] eqn:E; [reflexivity |].
    destruct e as [what | what | what | what | msg cause]; try reflexivity.
    assert (m = retries) as Hlast by (apply Hstop; reflexivity).
    rewrite (proj2 (Z.ltb_ge m retries)) by lia.
    replace (Z.pred (retries - m + 1)) with 0%Z by lia.
    reflexivity.
  - assert (k < m)%Z as Hlt by lia.
    rewrite (seqZ_cons k (retries - k + 1)) by lia.
    rewrite (seqZ_cons k (m - k)) by lia.
    cbn [attempts flat_map].
    pose proof (Hfail k ltac:(lia)) as Hk_failed.
    destruct (transport k) as [text | e] eqn:E; [discriminate |].
    destruct e as [what | what | what | what | msg cause]; try discriminate.
    rewrite (proj2 (Z.ltb_lt k retries)) by lia.
    rewrite (Hwait k) by lia.
    replace (Z.pred (retries - k + 1)) with (retries - Z.succ k + 1)%Z by lia.
    replace (Z.pred (m - k)) with (m - Z.succ k)%Z by lia.
    rewrite (IH (Z.succ k)); [| lia | lia | lia | | | exact Hstop].
    + f_equal. rewrite <- !app_assoc. reflexivity.
    + intros n Hn. apply Hwait. lia.
    + intros n Hn. apply Hfail. lia.
Qed.

(** The loop from attempt [k] on, when the attempts up to [m] fail, the
    waits before [m] are accepted and the wait after [m] is refused: what
    [time.sleep] or the product raises leaves the function. *)
Lemma attempts_refused (m : Z) (e : exn) (d : nat) :
  forall (k : Z) (last_exc : option exn) (trace : list event),
    d = Z.to_nat (m - k) ->
    (1 <= k <= m)%Z -> (m < retries)%Z ->
    (forall n, (k <= n < m)%Z ->
               wait long_sleep backoff_seconds n
               = inl (product backoff_seconds n)) ->
    (forall n, (k <= n <= m)%Z -> failed (transport n) = true) ->
    wait long_sleep backoff_seconds m = inr e ->
    run (seqZ k (retries - k + 1)) last_exc trace
    = (Raise e, trace ++ pairs (seqZ k (m - k)) ++ [req]).
Proof.
  induction d as [|d IH]; intros k last_exc trace Hd Hk Hm Hwait Hfail Hno.
  - assert (k = m) as -> by lia.
    rewrite Z.sub_diag. cbn [seqZ flat_map]. rewrite app_nil_l.
    rewrite (seqZ_cons m (retries - m + 1)) by lia.
    cbn [attempts].
    pose proof (Hfail m ltac:(lia)) as Hm_failed.
    destruct (transport m) as [text | e0] eqn:E; [discriminate |].
    destruct e0 as [what | what | what | what | msg cause]; try discriminate.
    rewrite (proj2 (Z.ltb_lt m retries)) by lia.
    by rewrite Hno.
  - assert (k < m)%Z as Hlt by lia.
    rewrite (seqZ_cons k (retries - k + 1)) by lia.
    rewrite (seqZ_cons k (m - k)) by lia.
    cbn [attempts flat_map].
    pose proof (Hfail k ltac:(lia)) as Hk_failed.
    destruct (transport k) as [text | e0] eqn:E; [discriminate |].
    destruct e0 as [what | what | what | what | msg cause]; try discriminate.
    rewrite (proj2 (Z.ltb_lt k retries)) by lia.
    rewrite (Hwait k) by lia.
    replace (Z.pred (retries - k + 1)) with (retries - Z.succ k + 1)%Z by lia.
    replace (Z.pred (m - k)) with (m - Z.succ k)%Z by lia.
    rewrite (IH (Z.succ k)); [| lia | lia | lia | | | exact Hno].
    + f_equal. rewrite <- !app_assoc. reflexivity.
    + intros n Hn. apply Hwait. lia.
    + intros n Hn. apply Hfail. lia.
Qed.

(** The loop never makes more requests than it has attempt numbers. *)
Lemma attempts_requests_bound (numbers : list Z) :
  forall (last_exc : option exn) (trace : list event),
    (requests_made (run numbers last_exc trace).2
     <= requests_made trace + length numbers)%nat.
Proof.
  induction numbers as [|n rest IH]; intros last_exc trace; cbn [attempts].
  - simpl. lia.
  - assert (Hreq : requests_made (trace ++ [req]) = S (requests_made trace)).
    { unfold requests_made. rewrite List.filter_app, length_app. simpl. lia. }
    destruct (transport n) as [text | e]; [simpl; rewrite Hreq; simpl; lia |].
    destruct e as [what | what | what | what | msg cause];
      try (simpl; rewrite Hreq; simpl; lia).
    destruct (n <? retries)%Z.
    + destruct (wait long_sleep backoff_seconds n) as [seconds | e].
      * etrans; [apply IH |].
        unfold requests_made in *. rewrite !List.filter_app, !length_app.
        simpl. lia.
      * simpl. rewrite Hreq. simpl. lia.
    + etrans; [apply IH |]. rewrite Hreq. simpl. lia.
Qed.

(** With no attempt to make the function raises at once. *)
Lemma fetch_html_no_attempt :
  (retries < 1)%Z ->
  fetch_html transport long_sleep url headers timeout retries backoff_seconds
  = (Raise (FetchError (failure_message url retries) None), []).
Proof.
  intros H. unfold fetch_html. by rewrite seqZ_nil by lia.
Qed.

(** The whole run, when it stops at attempt [m]. *)
Lemma fetch_html_until (m : Z) :
  (1 <= m <= retries)%Z ->
  (forall n, (1 <= n < m)%Z ->
             wait long_sleep backoff_seconds n
             = inl (product backoff_seconds n)) ->
  (forall n, (1 <= n < m)%Z -> failed (transport n) = true) ->
  (failed (transport m) = true -> m = retries) ->
  fetch_html transport long_sleep url headers timeout retries backoff_seconds
  = (final_result url retries (transport m),
     backoff_trace req backoff_seconds m).
Proof.
  intros Hm Hwait Hfail Hstop.
  pose proof (attempts_until m _ 1 None [] eq_refl) as H.
  replace (retries - 1 + 1)%Z with retries in H by lia.
  apply H; (lia || assumption).
Qed.

(** The whole run, when the wait after attempt [m] is refused. *)
Lemma fetch_html_refused (m : Z) (e : exn) :
  (1 <= m < retries)%Z ->
  (forall n, (1 <= n < m)%Z ->
             wait long_sleep backoff_seconds n
             = inl (product backoff_seconds n)) ->
  (forall n, (1 <= n <= m)%Z -> failed (transport n) = true) ->
  wait long_sleep backoff_seconds m = inr e ->
  fetch_html transport long_sleep url headers timeout retries backoff_seconds
  = (Raise e, backoff_trace req backoff_seconds m).
Proof.
  intros Hm Hwait Hfail Hno.
  pose proof (attempts_refused m e _ 1 None [] eq_refl) as H.
  replace (retries - 1 + 1)%Z with retries in H by lia.
  apply H; (lia || assumption).
Qed.

End Loop.

(** The requests and the sleeps of a trace of [m] attempts. *)
Lemma requests_made_backoff_trace (url : string)
    (hs : gmap string string) (timeout : Z) (b : float) (m : Z) :
  (1 <= m)%Z ->
  Z.of_nat (requests_made (backoff_trace (Request url hs timeout) b m)) = m.
Proof.
  intros Hm. unfold backoff_trace, requests_made.
  rewrite List.filter_app, length_app. simpl.
  assert (H : forall (l : list Z),
             length (List.filter is_request
                       (flat_map (λ n, [Request url hs timeout;
                                        Sleep (product b n)]) l))
             = length l).
  { induction l as [|x l IHl]; [reflexivity |]. simpl. by rewrite IHl. }
  rewrite H, length_seqZ. lia.
Qed.

Lemma sleeps_backoff_trace (req : event) (b : float) (m : Z) :
  is_request req = true ->
  sleeps (backoff_trace req b m) = map (product b) (seqZ 1 (m - 1)).
Proof.
  intros Hreq. destruct req as [u hs t | s]; [| discriminate].
  unfold backoff_trace, sleeps. rewrite omap_app. cbn [omap list_omap].
  rewrite app_nil_r.
  induction (seqZ 1 (m - 1)) as [|x l IHl]; [reflexivity |].
  cbn [flat_map app omap list_omap map]. by rewrite IHl.
Qed.


End RetrieverFacts.

(** The claim fails when [time.sleep] refuses a wait: with a backoff of -1
    and three attempts that fail, the [ValueError] of [time.sleep] leaves
    the function after the first request, and with a backoff of 1e10 and
    two attempts its [OverflowError] does; there is no further request and
    no [FetchError]. *)
Lemma C5_counterexample :
  ~ exhaustion_whatever_the_waits
  /\ Retriever.fetch_html (λ _, inr (Retriever.RequestException "timed out"))
       (λ _, None) "https://example.org/reviews" None 30 3 (-1)%float
     = (Retriever.Raise
          (Retriever.ValueError "sleep length must be non-negative"),
        [Retriever.Request "https://example.org/reviews"
           (Retriever.merged_headers None) 30])
  /\ Retriever.fetch_html (λ _, inr (Retriever.RequestException "timed out"))
       (λ _, None) "https://example.org/reviews" None 30 2 1e10%float
     = (Retriever.Raise
          (Retriever.OverflowError
             "timestamp too large to convert to C _PyTime_t"),
        [Retriever.Request "https://example.org/reviews"
           (Retriever.merged_headers None) 30]).
Proof.
  split; [| split; vm_compute; reflexivity].
  intros Hclaim.
  destruct (Hclaim (λ _, inr (Retriever.RequestException "timed out"))
              (λ _, None) "https://example.org/reviews" None 30%Z 3%Z
              (-1)%float) as [Hall _].
  destruct Hall as [(message & cause & Hraise) _]; [intros n _; reflexivity |].
  vm_compute in Hraise. discriminate Hraise.
Qed.

(** C5, amended. When every one of the [retries] attempts fails and
    [time.sleep] accepts the waits between them, [fetch_html] raises
    [FetchError]: its message names the URL and the number of attempts, its
    cause is the failure of the last attempt, and exactly [retries] requests
    have been made.  When an attempt succeeds after failures only, whose
    waits [time.sleep] has accepted, the function returns the text of that
    response, having made that many requests.  In no run does it make more
    than [retries] requests. *)
Theorem C5_retry_exhaustion
    (transport : Z -> string + Retriever.exn)
    (long_sleep : float -> option Retriever.exn) (url : string)
    (headers : option (gmap string string)) (timeout retries : Z)
    (backoff_seconds : float) :
  let run :=
    Retriever.fetch_html transport long_sleep url headers timeout retries
                         backoff_seconds
  in
  ((forall n : Z, (1 <= n <= retries)%Z ->
                 Retriever.failed (transport n) = true) ->
   waits_accepted long_sleep backoff_seconds retries ->
   (exists cause : option Retriever.exn,
       run.1 = Retriever.Raise
                 (Retriever.FetchError
                    ("Failed to fetch " +:+ url +:+ " after "
                     +:+ pretty retries +:+ " attempts") cause)
       /\ ((1 <= retries)%Z ->
           exists what : string,
             transport retries = inr (Retriever.RequestException what)
             /\ cause = Some (Retriever.RequestException what))
       /\ ((retries < 1)%Z -> cause = None))
   /\ Z.of_nat (Retriever.requests_made run.2) = Z.max 0 retries)
  /\ (forall (m : Z) (text : string),
        (1 <= m <= retries)%Z ->
        (forall n : Z, (1 <= n < m)%Z ->
                       Retriever.failed (transport n) = true) ->
        waits_accepted long_sleep backoff_seconds m ->
        transport m = inl text ->
        run.1 = Retriever.Return text
        /\ Z.of_nat (Retriever.requests_made run.2) = m)
  /\ (Z.of_nat (Retriever.requests_made run.2) <= Z.max 0 retries)%Z.
Proof.
  intros run. split; [|split].
  - intros Hfail Hsleep. destruct (Z.lt_ge_cases retries 1) as [Hnone | Hsome].
    + subst run.
      rewrite RetrieverFacts.fetch_html_no_attempt by exact Hnone.
      cbn [fst snd]. split; [| unfold Retriever.requests_made; simpl; lia].
      exists None. split; [reflexivity | split; [lia | reflexivity]].
    + assert (Hrun : run = (Retriever.final_result url retries
                              (transport retries),
                            Retriever.backoff_trace
                              (Retriever.Request url
                                 (Retriever.merged_headers headers) timeout)
                              backoff_seconds retries)).
      { apply RetrieverFacts.fetch_html_until; [lia | exact Hsleep | | done].
        intros n Hn. apply Hfail. lia. }
      rewrite Hrun. cbn [fst snd].
      rewrite RetrieverFacts.requests_made_backoff_trace by lia.
      split; [| lia].
      pose proof (Hfail retries ltac:(lia)) as Hlast.
      destruct (transport retries) as [text | e]; [discriminate |].
      destruct e as [what | what | what | what | msg cause];
        try discriminate.
      exists (Some (Retriever.RequestException what)).
      split; [reflexivity | split; [| lia]].
      intros _. by exists what.
  - intros m text Hm Hfail Hsleep Hok.
    assert (Hrun : run = (Retriever.final_result url retries (transport m),
                          Retriever.backoff_trace
                            (Retriever.Request url
                               (Retriever.merged_headers headers) timeout)
                            backoff_seconds m)).
    { apply RetrieverFacts.fetch_html_until;
        [lia | exact Hsleep | exact Hfail |].
      rewrite Hok. discriminate. }
    rewrite Hrun. cbn [fst snd]. rewrite Hok.
    split; [reflexivity |].
    apply RetrieverFacts.requests_made_backoff_trace. lia.
  - subst run. unfold Retriever.fetch_html.
    pose proof (RetrieverFacts.attempts_requests_bound transport long_sleep
                  url headers timeout retries backoff_seconds
                  (seqZ 1 retries) None [])
      as H.
    rewrite length_seqZ in H. simpl in H. lia.
Qed.

(** A transport that times out at every request, three attempts, the
    default backoff of one second. *)
Lemma C5_witness :
  exists cause,
    (Retriever.fetch_html (λ _, inr (Retriever.RequestException "timed out"))
       (λ _, None) "https://example.org/reviews" None 30 3 1%float).1
    = Retriever.Raise
        (Retriever.FetchError
           ("Failed to fetch " +:+ "https://example.org/reviews" +:+ " after "
            +:+ pretty 3%Z +:+ " attempts") cause)
    /\ Z.of_nat
         (Retriever.requests_made
            (Retriever.fetch_html
               (λ _, inr (Retriever.RequestException "timed out"))
               (λ _, None) "https://example.org/reviews" None 30 3
               1%float).2) = 3%Z.
Proof.
  destruct (C5_retry_exhaustion
              (λ _, inr (Retriever.RequestException "timed out"))
              (λ _, None) "https://example.org/reviews" None 30 3 1%float)
    as [Hall _].
  destruct Hall as [(cause & Hraise & _) Hcount].
  - intros n _. reflexivity.
  - intros n Hn. assert (n = 1 \/ n = 2)%Z as [-> | ->] by lia;
      vm_compute; reflexivity.
  - exists cause. split; [exact Hraise | exact Hcount].
Defined.




(* ================================================================== *)
(** * Further properties of the code *)
(* ================================================================== *)

(** ** Normalized text, again *)

(** X1. A text once normalized is not changed by a second normalization, nor by
    [strip]: [_clean_text] is idempotent (main.py, line 64). *)
Theorem clean_text_idempotent (text : string) :
  _clean_text (_clean_text text) = _clean_text text
  /\ Text.strip (_clean_text text) = _clean_text text.
Proof.
  split.
  - rewrite !TextFacts._clean_text_normalized. unfold normalized_spec.
    rewrite TextFacts.split_ws_join_words; [reflexivity |].
    by apply TextFacts.split_ws_words.
  - apply StringFacts.tidy_strip, StringFacts.tidy_clean_text.
Qed.

(** X2. [_clean_text] gives the empty string exactly for the texts that hold
    white space only, the empty text among them. *)
Theorem clean_text_empty_iff (text : string) :
  _clean_text text = EmptyString <-> all_space text = true.
Proof.
  rewrite TextFacts._clean_text_normalized. unfold normalized_spec.
  pose proof (TextFacts.split_ws_nonempty text EmptyString) as Hne.
  pose proof (TextFacts.join_nonempty_is_empty " " _ Hne) as Hj.
  pose proof (StringFacts.split_ws_nil_iff text EmptyString) as Hnil.
  split.
  - intros H. rewrite H in Hj. cbn in Hj.
    destruct (Text.split_ws EmptyString text); [| discriminate].
    by apply Hnil.
  - intros H. destruct Hnil as [_ Hnil]. by rewrite Hnil.
Qed.

(** A text of three white space characters, a newline among them. *)
Lemma clean_text_empty_iff_witness :
  _clean_text (" " +:+ LF +:+ " ") = EmptyString.
Proof.
  apply (proj2 (clean_text_empty_iff (" " +:+ LF +:+ " "))).
  vm_compute. reflexivity.
Defined.

(** ** The text of a section, again *)

(** X3. The text of a section is its lines joined by newlines, the final
    [strip] of [_extract_section_text] changing nothing: one line for each
    [p] or [li] member with a text, in the order of the members, every line
    normalized and none empty.  The lines of two lists of nodes put together
    are the lines of the first followed by the lines of the second
    (main.py, lines 68-75). *)
Theorem section_text_is_joined_lines (nodes : list node) :
  _extract_section_text nodes = Text.join LF (section_lines nodes)
  /\ Forall (λ line, tidy line = true /\ line <> EmptyString)
            (section_lines nodes)
  /\ (forall more : list node,
        section_lines (nodes ++ more)
        = section_lines nodes ++ section_lines more).
Proof.
  split; [| split].
  - unfold _extract_section_text. fold LF.
    apply LineFacts.strip_join_lines, LineFacts.section_lines_ok.
  - eapply Forall_impl; [apply LineFacts.section_lines_ok |].
    intros line [Ht Hne]. split; [exact Ht |]. by intros ->.
  - intros more. apply LineFacts.section_lines_app.
Qed.

(** ** The service heading pattern *)

Module ReFacts.
Import Text TextFacts StringFacts ServiceRe.

Lemma starts_with_word_lower (x lit t : string) :
  lower x = lower lit -> starts_with_word lit = true ->
  starts_with_word (x +:+ t) = true.
Proof.
  destruct lit as [|l lit]; [discriminate |].
  destruct x as [|c x]; [discriminate |].
  cbn [lower]. intros [= Hc _]. rewrite append_cons. cbn [starts_with_word].
  by rewrite <- !(CharFacts.isspace_lower_char c), Hc,
             CharFacts.isspace_lower_char.
Qed.

(** [\s+] *)
Lemma ws_plus_app (w t : string) :
  all_space w = true -> is_empty w = false ->
  is_empty t || starts_with_word t = true ->
  ws_plus (w +:+ t) = Some t.
Proof.
  intros Hw Hne Ht. destruct w as [|c w]; [discriminate |].
  rewrite append_cons. cbn [all_space ws_plus] in *.
  apply andb_true_iff in Hw as [Hc Hw]. rewrite Hc.
  by rewrite lstrip_all_space, lstrip_word.
Qed.

Lemma ws_plus_inv (s t : string) :
  ws_plus s = Some t ->
  exists w, s = w +:+ t /\ all_space w = true /\ is_empty w = false.
Proof.
  destruct s as [|c s]; [discriminate |]. cbn [ws_plus].
  destruct (isspace c) eqn:E; [| discriminate]. intros [= <-].
  destruct (lstrip_split s) as (w & Hs & Hw).
  exists (String c w). rewrite append_cons, <- Hs. cbn [all_space].
  by rewrite E, Hw.
Qed.

(** A literal under [re.IGNORECASE] *)
Lemma literal_ci_app (lit x rest : string) :
  lower x = lower lit -> literal_ci lit (x +:+ rest) = Some rest.
Proof.
  revert x. induction lit as [|l lit IH]; intros x Hx.
  - destruct x; [reflexivity | discriminate].
  - destruct x as [|c x]; [discriminate |].
    cbn [lower] in Hx. injection Hx as Hc Hx.
    rewrite append_cons. cbn [literal_ci].
    rewrite Hc, Ascii.eqb_refl. by apply IH.
Qed.

Lemma literal_ci_inv (lit s rest : string) :
  literal_ci lit s = Some rest ->
  exists x, s = x +:+ rest /\ lower x = lower lit.
Proof.
  revert s. induction lit as [|l lit IH]; intros s; cbn [literal_ci].
  - intros [= <-]. by exists EmptyString.
  - destruct s as [|c s]; [discriminate |].
    destruct (Ascii.eqb_spec (lower_char c) (lower_char l)) as [Hc|];
      [| discriminate].
    intros (x & -> & Hx)%IH. exists (String c x).
    rewrite append_cons. cbn [lower]. by rewrite Hc, Hx.
Qed.

(** [\s*$] *)
Lemma ws_star_end_all_space (s : string) : ws_star_end s = all_space s.
Proof. apply lstrip_empty_iff. Qed.

Lemma scan_eq (name s : string) :
  scan name s
  = if tail_match s then Some name
    else match s with
         | EmptyString => None
         | String c s' =>
             if is_newline c then None
             else scan (name +:+ String c EmptyString) s'
         end.
Proof. by destruct s. Qed.

(** What the lazy group takes: the shortest run that leaves a tail which
    the rest of the pattern matches. *)
Lemma scan_sound (s : string) :
  forall name n : string,
    scan name s = Some n ->
    exists mid tail,
      s = mid +:+ tail /\ n = name +:+ mid /\ no_newline mid = true
      /\ tail_match tail = true
      /\ forall mid' tail',
           s = mid' +:+ tail' ->
           (String.length mid' < String.length mid)%nat ->
           tail_match tail' = false.
Proof.
  induction s as [|c s IH]; intros name n; rewrite scan_eq.
  - destruct (tail_match EmptyString) eqn:E; [| discriminate].
    intros [= <-]. exists EmptyString, EmptyString.
    rewrite append_empty_r. repeat split; try done; intros; simpl in *; lia.
  - destruct (tail_match (String c s)) eqn:E.
    + intros [= <-]. exists EmptyString, (String c s).
      rewrite append_empty_r. repeat split; try done; intros; simpl in *; lia.
    + destruct (is_newline c) eqn:Ec; [discriminate |].
      intros (mid & tail & -> & -> & Hnl & Htail & Hmin)%IH.
      exists (String c mid), tail.
      rewrite append_cons, append_assoc, append_cons, append_empty_l.
      cbn [no_newline]. rewrite Ec, Hnl.
      repeat split; try done.
      intros mid' tail' Heq Hlen. destruct mid' as [|c' mid'].
      * rewrite append_empty_l in Heq. by rewrite <- Heq.
      * rewrite append_cons in Heq. injection Heq as -> Heq.
        apply (Hmin mid' tail' Heq). simpl in Hlen. lia.
Qed.

Lemma scan_complete (mid : string) :
  forall name tail : string,
    no_newline mid = true -> tail_match tail = true ->
    is_Some (scan name (mid +:+ tail)).
Proof.
  induction mid as [|c mid IH]; intros name tail Hnl Htail; rewrite scan_eq.
  - rewrite append_empty_l, Htail. eauto.
  - destruct (tail_match (String c mid +:+ tail)); [eauto |].
    rewrite append_cons. cbn [no_newline] in Hnl.
    apply andb_true_iff in Hnl as [Hc Hnl]. apply negb_true_iff in Hc.
    rewrite Hc. by apply IH.
Qed.

(** Lower-casing commutes with the matching. *)
Lemma ws_plus_lower (s : string) : ws_plus (lower s) = lower <$> ws_plus s.
Proof.
  destruct s as [|c s]; [reflexivity |]. cbn [lower ws_plus].
  rewrite CharFacts.isspace_lower_char.
  destruct (isspace c); [| reflexivity]. cbn. by rewrite lstrip_lower.
Qed.

Lemma literal_ci_lower (lit s : string) :
  literal_ci lit (lower s) = lower <$> literal_ci lit s.
Proof.
  revert s. induction lit as [|l lit IH]; intros s; [reflexivity |].
  destruct s as [|c s]; [reflexivity |]. cbn [lower literal_ci].
  rewrite CharFacts.lower_char_idem.
  destruct (Ascii.eqb (lower_char c) (lower_char l)); [apply IH | reflexivity].
Qed.

Lemma all_space_lower (s : string) : all_space (lower s) = all_space s.
Proof.
  induction s as [|c s IH]; [reflexivity |].
  cbn [lower all_space]. by rewrite CharFacts.isspace_lower_char, IH.
Qed.

Lemma tail_match_lower (s : string) : tail_match (lower s) = tail_match s.
Proof.
  unfold tail_match. rewrite ws_plus_lower.
  destruct (ws_plus s) as [s1|]; [| reflexivity].
  cbn [mbind option_bind fmap option_fmap option_map].
  rewrite literal_ci_lower.
  destruct (literal_ci "Review" s1) as [s2|]; [| reflexivity].
  cbn [mbind option_bind fmap option_fmap option_map].
  rewrite ws_plus_lower.
  destruct (ws_plus s2) as [s3|]; [| reflexivity].
  cbn [mbind option_bind fmap option_fmap option_map].
  rewrite literal_ci_lower.
  destruct (literal_ci "for" s3) as [s4|]; [| reflexivity].
  cbn [mbind option_bind fmap option_fmap option_map].
  rewrite ws_plus_lower.
  destruct (ws_plus s4) as [s5|]; [| reflexivity].
  cbn [mbind option_bind fmap option_fmap option_map].
  rewrite literal_ci_lower.
  destruct (literal_ci "Lawyers" s5) as [s6|]; [| reflexivity].
  cbn [mbind option_bind fmap option_fmap option_map].
  by rewrite !ws_star_end_all_space, all_space_lower.
Qed.

Lemma scan_lower (s : string) :
  forall name : string,
    scan (lower name) (lower s) = lower <$> scan name s.
Proof.
  induction s as [|c s IH]; intros name; rewrite !scan_eq.
  - change (lower EmptyString) with EmptyString.
    by destruct (tail_match EmptyString).
  - rewrite tail_match_lower.
    destruct (tail_match (String c s)); [reflexivity |].
    cbn [lower]. rewrite CharFacts.is_newline_lower_char.
    destruct (is_newline c); [reflexivity |].
    change (String (lower_char c) EmptyString)
      with (lower (String c EmptyString)).
    rewrite <- lower_append, <- scan_eq. apply IH.
Qed.

End ReFacts.

(** X4. The pattern [_SERVICE_RE] read as a description of strings (main.py,
    line 61), for headings of code points below 256, the strings of this
    development: what follows the name is matched exactly by the strings
    made of white space, Review, white space, for, white space, Lawyers and
    optional white space, the three words in any case; and a heading matches
    exactly when it is a name, not empty and without newline, followed by
    such a string.  (A heading with U+0130, U+0131, U+017F or U+212A in the
    place of i, s or k also matches, and is no string of the development.) *)
Theorem service_pattern_language (heading_text : string) :
  (ServiceRe.tail_match heading_text = true
   <-> review_for_lawyers heading_text)
  /\ (matches heading_text = true
      <-> exists name tail : string,
            heading_text = name +:+ tail
            /\ name <> EmptyString /\ no_newline name = true
            /\ review_for_lawyers tail).
Proof.
  assert (Htail : forall t, ServiceRe.tail_match t = true
                            <-> review_for_lawyers t).
  { intros t. unfold ServiceRe.tail_match, review_for_lawyers. split.
    - destruct (ServiceRe.ws_plus t) as [s1|] eqn:E1; [| discriminate].
      cbn [mbind option_bind].
      destruct (ServiceRe.literal_ci "Review" s1) as [s2|] eqn:E2;
        [| discriminate]. cbn [mbind option_bind].
      destruct (ServiceRe.ws_plus s2) as [s3|] eqn:E3; [| discriminate].
      cbn [mbind option_bind].
      destruct (ServiceRe.literal_ci "for" s3) as [s4|] eqn:E4;
        [| discriminate]. cbn [mbind option_bind].
      destruct (ServiceRe.ws_plus s4) as [s5|] eqn:E5; [| discriminate].
      cbn [mbind option_bind].
      destruct (ServiceRe.literal_ci "Lawyers" s5) as [s6|] eqn:E6;
        [| discriminate].
      rewrite ReFacts.ws_star_end_all_space. intros H6.
      apply ReFacts.ws_plus_inv in E1 as (w1 & -> & H1 & N1).
      apply ReFacts.literal_ci_inv in E2 as (r & -> & Hr).
      apply ReFacts.ws_plus_inv in E3 as (w2 & -> & H2 & N2).
      apply ReFacts.literal_ci_inv in E4 as (f & -> & Hf).
      apply ReFacts.ws_plus_inv in E5 as (w3 & -> & H3 & N3).
      apply ReFacts.literal_ci_inv in E6 as (l & -> & Hl).
      exists w1, r, w2, f, w3, l, s6.
      repeat split; try done; by intros ->.
    - intros (w1 & r & w2 & f & w3 & l & w4 & -> & H1 & N1 & Hr & H2 & N2
              & Hf & H3 & N3 & Hl & H4).
      assert (Sr : forall t, Text.is_empty (r +:+ t)
                             || starts_with_word (r +:+ t) = true).
      { intros t.
        by rewrite (ReFacts.starts_with_word_lower r "Review"), orb_true_r. }
      assert (Sf : forall t, Text.is_empty (f +:+ t)
                             || starts_with_word (f +:+ t) = true).
      { intros t.
        by rewrite (ReFacts.starts_with_word_lower f "for"), orb_true_r. }
      assert (Sl : forall t, Text.is_empty (l +:+ t)
                             || starts_with_word (l +:+ t) = true).
      { intros t.
        by rewrite (ReFacts.starts_with_word_lower l "Lawyers"), orb_true_r. }
      rewrite ReFacts.ws_plus_app; [| done | by destruct w1 | apply Sr].
      cbn [mbind option_bind].
      rewrite (ReFacts.literal_ci_app "Review") by exact Hr.
      cbn [mbind option_bind].
      rewrite ReFacts.ws_plus_app; [| done | by destruct w2 | apply Sf].
      cbn [mbind option_bind].
      rewrite (ReFacts.literal_ci_app "for") by exact Hf.
      cbn [mbind option_bind].
      rewrite ReFacts.ws_plus_app; [| done | by destruct w3 | apply Sl].
      cbn [mbind option_bind].
      rewrite (ReFacts.literal_ci_app "Lawyers") by exact Hl.
      by rewrite ReFacts.ws_star_end_all_space. }
  split; [apply Htail |].
  unfold matches, _SERVICE_RE_match. split.
  - destruct heading_text as [|c s]; [discriminate |].
    destruct (ServiceRe.is_newline c) eqn:Ec; [discriminate |].
    destruct (ServiceRe.scan (String c EmptyString) s) as [n|] eqn:E;
      [| discriminate].
    intros _.
    apply ReFacts.scan_sound in E as (mid & tail & -> & -> & Hnl & Ht & _).
    exists (String c mid), tail.
    rewrite TextFacts.append_cons. cbn [no_newline]. rewrite Ec, Hnl.
    repeat split; try done. by apply Htail.
  - intros (name & tail & -> & Hne & Hnl & Ht).
    destruct name as [|c name]; [done |].
    rewrite TextFacts.append_cons. cbn [no_newline] in Hnl.
    apply andb_true_iff in Hnl as [Hc Hnl]. apply negb_true_iff in Hc.
    rewrite Hc.
    destruct (ReFacts.scan_complete name (String c EmptyString) tail Hnl)
      as [n ->]; [by apply Htail | reflexivity].
Qed.

(** The heading of the round-trip scenario with other white space and
    another case. *)
Lemma service_pattern_language_witness :
  matches ("Acme  Legal" +:+ LF +:+ "REVIEW for  lawyers ") = true.
Proof.
  apply (proj2 (proj2 (service_pattern_language
                         ("Acme  Legal" +:+ LF +:+ "REVIEW for  lawyers ")))).
  exists "Acme  Legal", (LF +:+ "REVIEW for  lawyers ").
  split; [reflexivity |]. split; [discriminate |].
  split; [reflexivity |].
  exists LF, "REVIEW", " ", "for", "  ", "lawyers", " ".
  repeat split; (reflexivity || discriminate).
Defined.

(** X5. The name that [_SERVICE_RE] captures is the shortest beginning of the
    heading, not empty and without newline, after which the rest of the
    pattern matches up to the end: the group is lazy. *)
Theorem service_name_group_is_shortest (heading_text name : string) :
  _SERVICE_RE_match heading_text = Some name ->
  exists tail : string,
    heading_text = name +:+ tail
    /\ name <> EmptyString /\ no_newline name = true
    /\ ServiceRe.tail_match tail = true
    /\ forall name' tail' : string,
         heading_text = name' +:+ tail' -> name' <> EmptyString ->
         (String.length name' < String.length name)%nat ->
         ServiceRe.tail_match tail' = false.
Proof.
  unfold _SERVICE_RE_match.
  destruct heading_text as [|c s]; [discriminate |].
  destruct (ServiceRe.is_newline c) eqn:Ec; [discriminate |].
  intros (mid & tail & -> & -> & Hnl & Ht & Hmin)%ReFacts.scan_sound.
  exists tail. rewrite !TextFacts.append_cons, TextFacts.append_empty_l.
  cbn [no_newline]. rewrite Ec, Hnl. repeat split; try done.
  intros name' tail' Heq Hne Hlen.
  destruct name' as [|c' name']; [done |].
  rewrite TextFacts.append_cons in Heq. injection Heq as -> Heq.
  apply (Hmin name' tail' Heq). simpl in Hlen. lia.
Qed.

(** A heading that ends with the words of the pattern twice: the name
    stops before the last of them, not before the first. *)
Lemma service_name_group_is_shortest_witness :
  exists tail : string,
    "A Review for Lawyers Review for Lawyers"
    = "A Review for Lawyers" +:+ tail
    /\ ServiceRe.tail_match tail = true
    /\ ServiceRe.tail_match " Review for Lawyers Review for Lawyers" = false.
Proof.
  destruct (service_name_group_is_shortest
              "A Review for Lawyers Review for Lawyers"
              "A Review for Lawyers")
    as (tail & Heq & _ & _ & Ht & Hmin); [vm_compute; reflexivity |].
  exists tail. split; [exact Heq | split; [exact Ht |]].
  apply (Hmin "A"); [reflexivity | discriminate | simpl; lia].
Defined.

(** X6. [re.IGNORECASE], for headings of code points below 256, the strings
    of this development: the heading in lower case matches exactly when the
    heading does, and the name captured is then the lower case of the name
    captured in the heading.  (Beyond 256 this fails: the lower case of
    U+0130 is two characters long.) *)
Theorem service_pattern_ignores_case (heading_text : string) :
  _SERVICE_RE_match (Text.lower heading_text)
  = Text.lower <$> _SERVICE_RE_match heading_text.
Proof.
  unfold _SERVICE_RE_match. destruct heading_text as [|c s]; [reflexivity |].
  cbn [Text.lower]. rewrite CharFacts.is_newline_lower_char.
  destruct (ServiceRe.is_newline c); [reflexivity |].
  apply (ReFacts.scan_lower s (String c EmptyString)).
Qed.

(** ** The section scan, again *)

Module MoreScanFacts.

Lemma h2_not_h3 (n : node) :
  is_tag_named "h2" n = true -> is_tag_named "h3" n = false.
Proof.
  destruct n as [| |name cs]; try discriminate. cbn.
  intros ->%String.eqb_eq. reflexivity.
Qed.

(** Nothing is read after a major heading. *)
Lemma split_loop_stop (pre rest : list node) (h : node)
    (m : gmap string (list node)) (cur : string) :
  is_tag_named "h2" h = true ->
  split_loop (pre ++ h :: rest) m cur = split_loop pre m cur.
Proof.
  intros Hh. revert m cur.
  induction pre as [|n pre IH]; intros m cur; cbn [app split_loop].
  - by rewrite (h2_not_h3 _ Hh), Hh.
  - destruct (is_tag_named "h3" n); [apply IH |].
    destruct (is_tag_named "h2" n); [reflexivity | apply IH].
Qed.

Lemma collect_nodes_stop (a rest : list node) (h : node) :
  is_tag_named "h2" h = true ->
  collect_nodes (a ++ h :: rest) = collect_nodes a.
Proof.
  intros Hh. induction a as [|n a IH]; cbn [app collect_nodes].
  - by rewrite Hh.
  - destruct (is_tag_named "h2" n); [reflexivity |]. by rewrite IH.
Qed.

Lemma collect_nodes_tags (sibs : list node) :
  Forall (λ n, is_tag n = true /\ is_tag_named "h2" n = false)
         (collect_nodes sibs).
Proof.
  induction sibs as [|n sibs IH]; cbn [collect_nodes]; [constructor |].
  destruct (is_tag_named "h2" n) eqn:E2; [constructor |].
  destruct (is_tag n) eqn:Et; [by constructor | exact IH].
Qed.

Lemma collect_nodes_filter (sibs : list node) :
  collect_nodes (List.filter is_tag sibs) = collect_nodes sibs.
Proof.
  induction sibs as [|n sibs IH]; [reflexivity |].
  cbn [List.filter collect_nodes]. destruct (is_tag n) eqn:Et.
  - cbn [collect_nodes]. by rewrite Et, IH.
  - destruct n as [| |name cs]; try discriminate; exact IH.
Qed.

(** The buckets taken together. *)
Lemma all_buckets_setdefault (k : string) (m : gmap string (list node)) :
  all_buckets (setdefault k m) ≡ₚ all_buckets m.
Proof.
  unfold setdefault, all_buckets.
  destruct (m !! k) eqn:E; [reflexivity |].
  by rewrite map_to_list_insert.
Qed.

Lemma all_buckets_append (k : string) (n : node)
    (m : gmap string (list node)) :
  all_buckets (setdefault_append k n m) ≡ₚ all_buckets m ++ [n].
Proof.
  unfold setdefault_append, all_buckets.
  destruct (m !! k) as [old|] eqn:E; cbn [default].
  - rewrite <- (insert_delete_eq m k).
    rewrite map_to_list_insert by apply lookup_delete_eq.
    rewrite <- (map_to_list_delete m k old E). cbn [flat_map snd].
    rewrite <- !app_assoc. apply Permutation_app_head.
    apply Permutation_app_comm.
  - rewrite map_to_list_insert by exact E. cbn [flat_map snd app].
    apply Permutation_cons_append.
Qed.

Lemma all_buckets_split_loop (nodes : list node)
    (m : gmap string (list node)) (cur : string) :
  all_buckets (split_loop nodes m cur) ≡ₚ all_buckets m ++ scanned_plain nodes.
Proof.
  revert m cur.
  induction nodes as [|n rest IH]; intros m cur;
    cbn [split_loop scanned_plain].
  - by rewrite app_nil_r.
  - destruct (is_tag_named "h3" n).
    + by rewrite IH, all_buckets_setdefault.
    + destruct (is_tag_named "h2" n); [by rewrite app_nil_r |].
      rewrite IH, all_buckets_append, <- app_assoc. reflexivity.
Qed.

(** A bucket keeps the order of the nodes. *)
Lemma routed_sublist (k : string) (nodes : list node) (cur : string) :
  sublist (routed k nodes cur) nodes.
Proof.
  revert cur. induction nodes as [|n rest IH]; intros cur; cbn [routed].
  - constructor.
  - destruct (is_tag_named "h3" n); [by apply sublist_cons |].
    destruct (is_tag_named "h2" n); [apply sublist_nil_l |].
    destruct (String.eqb cur k); cbn [app].
    + by apply sublist_skip.
    + by apply sublist_cons.
Qed.

(** The keys of the result. *)
Lemma split_loop_keys (k : string) (nodes : list node)
    (m : gmap string (list node)) (cur : string) :
  is_Some (split_loop nodes m cur !! k) ->
  is_Some (m !! k) \/ (k = cur /\ scanned_plain nodes <> [])
  \/ exists h, h ∈ nodes /\ is_tag_named "h3" h = true
               /\ k = section_key (h3_title h).
Proof.
  revert m cur.
  induction nodes as [|n rest IH]; intros m cur;
    cbn [split_loop scanned_plain]; [by left |].
  destruct (is_tag_named "h3" n) eqn:E3.
  - intros [H | [[-> H] | (h & Hin & Hh & ->)]]%IH.
    + unfold setdefault in H.
      destruct (m !! section_key (h3_title n)) eqn:E; [by left |].
      rewrite lookup_insert in H. case_decide as Hk; [| by left].
      right. right. exists n. split; [by left | done].
    + right. right. exists n. split; [by left | done].
    + right. right. exists h. split; [by right | done].
  - destruct (is_tag_named "h2" n); [by left |].
    intros [H | [[-> H] | (h & Hin & Hh & ->)]]%IH.
    + unfold setdefault_append in H.
      rewrite lookup_insert in H. case_decide as Hk; [| by left].
      right. left. by split.
    + right. left. by split.
    + right. right. exists h. split; [by right | done].
Qed.

End MoreScanFacts.

(** X7. [_split_by_h3] stops at a major heading: whatever follows an [h2] in
    the list changes nothing in the result (main.py, lines 96-97). *)
Theorem split_stops_at_major_heading (pre rest : list node) (h : node) :
  is_tag_named "h2" h = true ->
  _split_by_h3 (pre ++ h :: rest) = _split_by_h3 pre.
Proof. intros Hh. by apply MoreScanFacts.split_loop_stop. Qed.

Lemma split_stops_at_major_heading_witness :
  _split_by_h3 ([p_ "kept"] ++ h2_ "Next Review for Lawyers" :: [p_ "left out"])
  = _split_by_h3 [p_ "kept"].
Proof. apply split_stops_at_major_heading. reflexivity. Defined.

(** X8. [_split_by_h3] loses no node and repeats none: the buckets of the
    result, taken together, hold exactly the nodes read before the first
    major heading that are not sub-headings, each as often as it occurs;
    and every bucket holds its nodes in the order of the list
    (main.py, lines 78-101). *)
Theorem split_partitions_the_section (nodes : list node) :
  all_buckets (_split_by_h3 nodes) ≡ₚ scanned_plain nodes
  /\ forall key : string,
       sublist (get_or_empty key (_split_by_h3 nodes)) nodes.
Proof.
  split.
  - unfold _split_by_h3. rewrite MoreScanFacts.all_buckets_split_loop.
    unfold all_buckets.
    rewrite map_to_list_insert by apply lookup_empty.
    by rewrite map_to_list_empty.
  - intros key. rewrite ScanFacts.get_or_empty_split.
    apply MoreScanFacts.routed_sublist.
Qed.

(** X9. The keys of the dictionary that [_split_by_h3] returns: summary is
    always one of them, with an empty bucket for an empty list, and every
    other key is the key of a sub-heading of the list. *)
Theorem split_keys (nodes : list node) :
  is_Some (_split_by_h3 nodes !! "summary")
  /\ _split_by_h3 [] !! "summary" = Some []
  /\ forall key : string,
       is_Some (_split_by_h3 nodes !! key) ->
       key = "summary"
       \/ exists h, h ∈ nodes /\ is_tag_named "h3" h = true
                    /\ key = section_key (h3_title h).
Proof.
  split; [| split].
  - apply ScanFacts.split_loop_is_Some. rewrite lookup_insert_eq. eauto.
  - reflexivity.
  - intros key [H | [[-> _] | H]]%MoreScanFacts.split_loop_keys.
    + rewrite lookup_insert in H. case_decide as Hk; [by left |].
      rewrite lookup_empty in H. by destruct H.
    + by left.
    + by right.
Qed.

Lemma split_keys_witness :
  "section:faq" = "summary"
  \/ exists h, h ∈ faq_section /\ is_tag_named "h3" h = true
               /\ "section:faq" = section_key (h3_title h).
Proof.
  apply (proj2 (proj2 (split_keys faq_section))).
  vm_compute. eauto.
Defined.

(** X10. The section of a heading ends at the next major heading among its
    following siblings, and strings between the tags play no role: the
    nodes collected, and the record, are those of the siblings before that
    heading; the nodes collected are tags, none of them an [h2]
    (main.py, lines 117-122). *)
Theorem section_ends_at_next_heading
    (url : string) (h2 next : node) (before rest : list node) :
  is_tag_named "h2" next = true ->
  collect_nodes (before ++ next :: rest) = collect_nodes before
  /\ service_at url h2 (before ++ next :: rest) = service_at url h2 before
  /\ collect_nodes (List.filter is_tag before) = collect_nodes before
  /\ Forall (λ n, is_tag n = true /\ is_tag_named "h2" n = false)
            (collect_nodes before).
Proof.
  intros Hnext.
  pose proof (MoreScanFacts.collect_nodes_stop before rest next Hnext) as Hc.
  split; [exact Hc |]. split; [| split].
  - unfold service_at. by rewrite Hc.
  - apply MoreScanFacts.collect_nodes_filter.
  - apply MoreScanFacts.collect_nodes_tags.
Qed.

Lemma section_ends_at_next_heading_witness :
  service_at "https://example.org/reviews" (h2_ "A Review for Lawyers")
             ([NavigableString LF; p_ "first"]
              ++ h2_ "B Review for Lawyers" :: [p_ "second"])
  = service_at "https://example.org/reviews" (h2_ "A Review for Lawyers")
               [NavigableString LF; p_ "first"].
Proof.
  apply (section_ends_at_next_heading "https://example.org/reviews"
           (h2_ "A Review for Lawyers") (h2_ "B Review for Lawyers")).
  reflexivity.
Defined.

(** ** The document and its records, again *)

Module DocFacts.

(** Induction on a document tree, the contents of a tag first. *)
Lemma node_ind_nested (P : node -> Prop) :
  (forall s, P (NavigableString s)) ->
  (forall s, P (Comment s)) ->
  (forall name contents, Forall P contents -> P (Tag name contents)) ->
  forall n, P n.
Proof.
  intros Hs Hc Ht. fix IH 1. intros [s | s | name contents].
  - apply Hs.
  - apply Hc.
  - apply Ht. induction contents as [|c cs IHcs]; constructor.
    + apply IH.
    + exact IHcs.
Qed.

Lemma find_all_h2_at_Tag (name : string) (contents sibs : list node) :
  find_all_h2_at (Tag name contents) sibs
  = (if String.eqb name "h2" then [(Tag name contents, sibs)] else [])
    ++ find_all_h2 contents.
Proof.
  cbn [find_all_h2_at]. by f_equal.
Qed.

Lemma find_all_h2_at_facts (n : node) :
  forall sibs : list node,
    Forall (λ site, is_tag_named "h2" site.1 = true) (find_all_h2_at n sibs)
    /\ length (find_all_h2_at n sibs) = count_h2 n.
Proof.
  induction n as [s | s | name contents IH] using node_ind_nested;
    intros sibs; try (split; [constructor | reflexivity]).
  rewrite find_all_h2_at_Tag. cbn [count_h2].
  assert (Hcs : Forall (λ site, is_tag_named "h2" site.1 = true)
                       (find_all_h2 contents)
                /\ length (find_all_h2 contents)
                   = list_sum (map count_h2 contents)).
  { clear sibs. induction IH as [|c cs Hc _ IHcs]; [by split |].
    cbn [find_all_h2 map list_sum]. destruct IHcs as [Hall Hlen].
    destruct (Hc cs) as [Hall1 Hlen1].
    split; [by apply Forall_app | by rewrite length_app, Hlen1, Hlen]. }
  destruct Hcs as [Hall Hlen]. rewrite length_app, Hlen.
  destruct (String.eqb name "h2") eqn:E.
  - split; [| reflexivity]. constructor; [| exact Hall]. cbn. exact E.
  - by split.
Qed.

Lemma find_all_h2_facts (soup : list node) :
  Forall (λ site, is_tag_named "h2" site.1 = true) (find_all_h2 soup)
  /\ length (find_all_h2 soup) = list_sum (map count_h2 soup).
Proof.
  induction soup as [|c cs [Hall Hlen]]; [by split |].
  cbn [find_all_h2 map list_sum].
  destruct (find_all_h2_at_facts c cs) as [Hall1 Hlen1].
  split; [by apply Forall_app | by rewrite length_app, Hlen1, Hlen].
Qed.

(** The name that the pattern captures begins with the first character of
    the heading. *)
Lemma match_first_char (heading_text name : string) :
  _SERVICE_RE_match heading_text = Some name ->
  exists c rest mid, heading_text = String c rest /\ name = String c mid.
Proof.
  unfold _SERVICE_RE_match. destruct heading_text as [|c s]; [discriminate |].
  destruct (ServiceRe.is_newline c); [discriminate |].
  intros (mid & tail & _ & -> & _)%ReFacts.scan_sound.
  exists c, s, mid. by rewrite TextFacts.append_cons.
Qed.

Lemma clean_heading (h2 : node) :
  _clean_text (heading_text_of h2) = heading_text_of h2.
Proof.
  unfold heading_text_of. rewrite !TextFacts._clean_text_normalized.
  unfold normalized_spec.
  rewrite TextFacts.split_ws_join_words; [reflexivity |].
  by apply TextFacts.split_ws_words.
Qed.

Lemma strip_extract (nodes : list node) :
  Text.strip (_extract_section_text nodes) = _extract_section_text nodes.
Proof. unfold _extract_section_text. apply StringFacts.strip_idem. Qed.

End DocFacts.

(** X11. [find_all("h2")] finds the [h2] tags of the document and nothing else,
    each once: every node it returns is an [h2] tag, and there are as many
    as the document has [h2] tags at any depth.  [parse_services] returns at
    most that many records, and none for a document without [h2]
    (main.py, lines 107-113). *)
Theorem records_bounded_by_headings
    (BeautifulSoup : string -> list node) (url html : string) :
  let soup := BeautifulSoup html in
  Forall (λ site, is_tag_named "h2" site.1 = true) (find_all_h2 soup)
  /\ length (find_all_h2 soup) = list_sum (map count_h2 soup)
  /\ (length (parse_services BeautifulSoup url html)
      <= list_sum (map count_h2 soup))%nat
  /\ (list_sum (map count_h2 soup) = 0%nat ->
      parse_services BeautifulSoup url html = []).
Proof.
  intros soup. destruct (DocFacts.find_all_h2_facts soup) as [Hall Hlen].
  split; [exact Hall |]. split; [exact Hlen |].
  unfold parse_services. fold soup.
  rewrite ScanFacts.services_loop_omap. cbn [app]. rewrite <- Hlen.
  split.
  - generalize (find_all_h2 soup). intros sites.
    induction sites as [|site sites IH]; [reflexivity |].
    rewrite ScanFacts.omap_cons.
    destruct (service_at url site.1 site.2); simpl; lia.
  - intros H0. by destruct (find_all_h2 soup).
Qed.

(** A page without any major heading. *)
Lemma records_bounded_by_headings_witness :
  parse_services (λ _, [Tag "div" [p_ "About us"; h3_ "Pricing"]])
                 "https://example.org/reviews" "<html>" = [].
Proof.
  apply (records_bounded_by_headings
           (λ _, [Tag "div" [p_ "About us"; h3_ "Pricing"]])
           "https://example.org/reviews" "<html>").
  reflexivity.
Defined.

(** X12. Every record of [parse_services] carries the source URL; its heading is
    normalized and matches the service pattern; its service name is the
    stripped name captured in that heading, is never empty and has no white
    space at its ends; and none of its four text fields has white space at
    its ends (main.py, lines 110-141). *)
Theorem record_invariants
    (BeautifulSoup : string -> list node) (source_url html : string)
    (row : ServiceReview) :
  row ∈ parse_services BeautifulSoup source_url html ->
  url row = source_url
  /\ _clean_text (heading row) = heading row
  /\ (exists name : string,
        _SERVICE_RE_match (heading row) = Some name
        /\ service_name row = Text.strip name)
  /\ service_name row <> EmptyString
  /\ Text.strip (service_name row) = service_name row
  /\ Forall (λ field, Text.strip field = field)
            [summary row; how_it_works row; practice_areas row; pricing row].
Proof.
  unfold parse_services. rewrite ScanFacts.services_loop_omap. cbn [app].
  intros ([h2 sibs] & _ & Hat)%list_elem_of_omap. cbn [fst snd] in Hat.
  apply ScanFacts.service_at_Some in Hat as (name & Hname & ->).
  unfold review_of.
  cbn [url heading service_name summary how_it_works practice_areas pricing].
  split; [reflexivity |].
  split; [apply DocFacts.clean_heading |].
  split; [by exists name |].
  split; [| split; [apply StringFacts.strip_idem |]].
  - pose proof (StringFacts.tidy_clean_text (get_text h2)) as Htidy.
    fold (heading_text_of h2) in Htidy.
    destruct (DocFacts.match_first_char _ _ Hname) as (c & rest & mid & Hh & ->).
    rewrite Hh in Htidy. unfold tidy in Htidy. cbn in Htidy.
    apply andb_true_iff in Htidy as [Hc _].
    intros Hempty.
    assert (Hne : Text.is_empty (Text.strip (String c mid)) = false)
      by (by apply StringFacts.strip_word_start).
    by rewrite Hempty in Hne.
  - repeat constructor; apply DocFacts.strip_extract.
Qed.

(** The record of the page [acme_soup_lines]. *)
Lemma record_invariants_witness :
  exists row,
    parse_services (λ _, acme_soup_lines) "https://example.org/reviews"
                   "<html>" = [row]
    /\ url row = "https://example.org/reviews"
    /\ service_name row <> EmptyString.
Proof.
  eexists. split; [vm_compute; reflexivity |].
  match goal with
  | |- context [service_name ?r] =>
      destruct (record_invariants (λ _, acme_soup_lines)
                  "https://example.org/reviews" "<html>" r)
        as (Hurl & _ & _ & Hname & _)
  end.
  - vm_compute. constructor.
  - by split.
Defined.

(** ** The retriever, again *)

Module MoreRetrieverFacts.
Import Retriever.

Lemma lookup_merged (headers : option (gmap string string)) (k : string) :
  merged_headers headers !! k
  = match headers ≫= (.!! k) with
    | Some v => Some v
    | None => DEFAULT_HEADERS !! k
    end.
Proof.
  destruct headers as [h|]; [| reflexivity]. cbn [merged_headers mbind option_bind].
  rewrite lookup_union. by destruct (h !! k), (DEFAULT_HEADERS !! k).
Qed.

(** Every request of a run is the same request. *)
Lemma attempts_requests (transport : Z -> string + exn)
    (long_sleep : float -> option exn) (url : string)
    (headers : option (gmap string string)) (timeout retries : Z)
    (backoff_seconds : float) (numbers : list Z) :
  forall (last_exc : option exn) (trace : list event),
    Forall (λ e, is_request e = true ->
                 e = Request url (merged_headers headers) timeout) trace ->
    Forall (λ e, is_request e = true ->
                 e = Request url (merged_headers headers) timeout)
           (attempts transport long_sleep url headers timeout retries
                     backoff_seconds numbers last_exc trace).2.
Proof.
  induction numbers as [|n rest IH]; intros last_exc trace Htrace;
    cbn [attempts]; [exact Htrace |].
  assert (Hreq : Forall (λ e, is_request e = true ->
                   e = Request url (merged_headers headers) timeout)
                   (trace ++ [Request url (merged_headers headers) timeout])).
  { apply Forall_app. split; [exact Htrace | by repeat constructor]. }
  destruct (transport n) as [text | e]; [exact Hreq |].
  destruct e as [what | what | what | what | msg cause]; try exact Hreq.
  destruct (n <? retries)%Z.
  - destruct (wait long_sleep backoff_seconds n) as [seconds | e];
      [| exact Hreq].
    apply IH, Forall_app. split; [exact Hreq |].
    repeat constructor. discriminate.
  - by apply IH.
Qed.

End MoreRetrieverFacts.

(** X14. The headers of a request are the caller's headers over the defaults:
    for every key the caller's value when there is one, the default one
    otherwise, so that User-Agent, Accept and Accept-Language are always
    sent; an empty dictionary of headers is as no headers.  Every request
    of a run is made with the same URL, those headers and the same timeout
    (main.py, lines 32-39). *)
Theorem headers_override_defaults
    (transport : Z -> string + Retriever.exn)
    (long_sleep : float -> option Retriever.exn) (url : string)
    (headers : option (gmap string string)) (timeout retries : Z)
    (backoff_seconds : float) :
  (forall k : string,
      Retriever.merged_headers headers !! k
      = match headers ≫= (.!! k) with
        | Some v => Some v
        | None => Retriever.DEFAULT_HEADERS !! k
        end)
  /\ Forall (λ k, is_Some (Retriever.merged_headers headers !! k))
            ["User-Agent"; "Accept"; "Accept-Language"]
  /\ Retriever.merged_headers (Some ∅) = Retriever.merged_headers None
  /\ Forall (λ e, Retriever.is_request e = true ->
                  e = Retriever.Request url (Retriever.merged_headers headers)
                                        timeout)
            (Retriever.fetch_html transport long_sleep url headers timeout
                                  retries backoff_seconds).2.
Proof.
  split; [apply MoreRetrieverFacts.lookup_merged |]. split; [| split].
  - repeat constructor; rewrite MoreRetrieverFacts.lookup_merged;
      destruct (headers ≫= _); eauto.
  - cbn [Retriever.merged_headers]. apply (left_id_L ∅ (∪)).
  - apply MoreRetrieverFacts.attempts_requests. constructor.
Qed.

(** X15. An exception of a request that is not a [RequestException] is not
    caught: it leaves [fetch_html] as it is, at once, without a further
    attempt and without a [FetchError], after the waits of the failed
    attempts before it, when [time.sleep] has accepted those waits
    (main.py, lines 38-45). *)
Theorem other_exception_propagates
    (transport : Z -> string + Retriever.exn)
    (long_sleep : float -> option Retriever.exn) (url : string)
    (headers : option (gmap string string)) (timeout retries : Z)
    (backoff_seconds : float) (m : Z) (e : Retriever.exn) :
  (1 <= m <= retries)%Z ->
  (forall n : Z, (1 <= n < m)%Z -> Retriever.failed (transport n) = true) ->
  waits_accepted long_sleep backoff_seconds m ->
  transport m = inr e ->
  Retriever.failed (inr e) = false ->
  let run :=
    Retriever.fetch_html transport long_sleep url headers timeout retries
                         backoff_seconds
  in
  run.1 = Retriever.Raise e
  /\ Z.of_nat (Retriever.requests_made run.2) = m
  /\ Retriever.sleeps run.2
     = map (Retriever.product backoff_seconds) (seqZ 1 (m - 1)).
Proof.
  intros Hm Hfail Hsleep He Hother run.
  assert (Hrun : run = (Retriever.final_result url retries (transport m),
                        Retriever.backoff_trace
                          (Retriever.Request url
                             (Retriever.merged_headers headers) timeout)
                          backoff_seconds m)).
  { apply RetrieverFacts.fetch_html_until;
      [exact Hm | exact Hsleep | exact Hfail |].
    rewrite He, Hother. discriminate. }
  rewrite Hrun, He. cbn [fst snd]. split; [| split].
  - destruct e as [what | what | what | what | msg cause];
      (discriminate || reflexivity).
  - apply RetrieverFacts.requests_made_backoff_trace. lia.
  - by apply RetrieverFacts.sleeps_backoff_trace.
Qed.

(** A first request that times out, a second one that breaks otherwise. *)
Lemma other_exception_propagates_witness :
  (Retriever.fetch_html
     (λ n, if (n =? 1)%Z then inr (Retriever.RequestException "timed out")
           else inr (Retriever.OtherException "interrupted"))
     (λ _, None) "https://example.org/reviews" None 30 3 1%float).1
  = Retriever.Raise (Retriever.OtherException "interrupted").
Proof.
  apply (other_exception_propagates
           (λ n, if (n =? 1)%Z then inr (Retriever.RequestException "timed out")
                 else inr (Retriever.OtherException "interrupted"))
           (λ _, None) "https://example.org/reviews" None 30 3 1%float 2
           (Retriever.OtherException "interrupted")).
  - lia.
  - intros n Hn. assert (n = 1%Z) as -> by lia. reflexivity.
  - intros n Hn. assert (n = 1%Z) as -> by lia. vm_compute. reflexivity.
  - reflexivity.
  - reflexivity.
Defined.

(** X16. A wait that is refused ends the run.  When the attempts up to
    number [m] fail, [m] is not the last attempt allowed and
    [time.sleep(backoff_seconds * m)] raises, after waits that were
    accepted, what is raised leaves [fetch_html]: there have been [m]
    requests, there is no further one and no [FetchError].  A negative
    length is refused with a [ValueError] and one beyond about 9.2e9
    seconds, on either side, with an [OverflowError]
    (main.py, lines 44-45). *)
Theorem refused_wait_ends_the_run
    (transport : Z -> string + Retriever.exn)
    (long_sleep : float -> option Retriever.exn) (url : string)
    (headers : option (gmap string string)) (timeout retries : Z)
    (backoff_seconds : float) (m : Z) (e : Retriever.exn) :
  (1 <= m < retries)%Z ->
  (forall n : Z, (1 <= n <= m)%Z -> Retriever.failed (transport n) = true) ->
  waits_accepted long_sleep backoff_seconds m ->
  Retriever.wait long_sleep backoff_seconds m = inr e ->
  let run :=
    Retriever.fetch_html transport long_sleep url headers timeout retries
                         backoff_seconds
  in
  run.1 = Retriever.Raise e
  /\ Z.of_nat (Retriever.requests_made run.2) = m
  /\ Retriever.sleeps run.2
     = map (Retriever.product backoff_seconds) (seqZ 1 (m - 1))
  /\ Retriever.time_sleep long_sleep (-1)%float
     = Some (Retriever.ValueError "sleep length must be non-negative")
  /\ Retriever.time_sleep long_sleep 1e10%float
     = Some (Retriever.OverflowError
               "timestamp too large to convert to C _PyTime_t")
  /\ Retriever.time_sleep long_sleep (-1e10)%float
     = Some (Retriever.OverflowError
               "timestamp too large to convert to C _PyTime_t").
Proof.
  intros Hm Hfail Hsleep Hno run.
  assert (Hrun : run = (Retriever.Raise e,
                        Retriever.backoff_trace
                          (Retriever.Request url
                             (Retriever.merged_headers headers) timeout)
                          backoff_seconds m)).
  { apply RetrieverFacts.fetch_html_refused;
      [exact Hm | exact Hsleep | exact Hfail | exact Hno]. }
  rewrite Hrun. cbn [fst snd].
  split; [reflexivity |]. split; [| split].
  - apply RetrieverFacts.requests_made_backoff_trace. lia.
  - by apply RetrieverFacts.sleeps_backoff_trace.
  - repeat split; vm_compute; reflexivity.
Qed.

(** Requests that time out, with a backoff of minus one second. *)
Lemma refused_wait_ends_the_run_witness :
  (Retriever.fetch_html (λ _, inr (Retriever.RequestException "timed out"))
     (λ _, None) "https://example.org/reviews" None 30 3 (-1)%float).1
  = Retriever.Raise (Retriever.ValueError "sleep length must be non-negative")
  /\ Z.of_nat
       (Retriever.requests_made
          (Retriever.fetch_html
             (λ _, inr (Retriever.RequestException "timed out"))
             (λ _, None) "https://example.org/reviews" None 30 3
             (-1)%float).2) = 1%Z.
Proof.
  destruct (refused_wait_ends_the_run
              (λ _, inr (Retriever.RequestException "timed out"))
              (λ _, None) "https://example.org/reviews" None 30 3 (-1)%float
              1 (Retriever.ValueError "sleep length must be non-negative"))
    as (Hraise & Hcount & _).
  - lia.
  - intros n _. reflexivity.
  - intros n Hn. lia.
  - vm_compute. reflexivity.
  - split; [exact Hraise | exact Hcount].
Defined.

(** X17. With no attempt allowed ([retries] below one) [fetch_html] makes no
    request at all and raises [FetchError] at once, without a cause
    (main.py, lines 36-47). *)
Theorem no_attempt_raises_fetch_error
    (transport : Z -> string + Retriever.exn)
    (long_sleep : float -> option Retriever.exn) (url : string)
    (headers : option (gmap string string)) (timeout retries : Z)
    (backoff_seconds : float) :
  (retries < 1)%Z ->
  Retriever.fetch_html transport long_sleep url headers timeout retries
                       backoff_seconds
  = (Retriever.Raise
       (Retriever.FetchError
          ("Failed to fetch " +:+ url +:+ " after " +:+ pretty retries
           +:+ " attempts") None),
     []).
Proof. apply RetrieverFacts.fetch_html_no_attempt. Qed.

Lemma no_attempt_raises_fetch_error_witness :
  Retriever.fetch_html (λ _, inl "<html>") (λ _, None)
                       "https://example.org/reviews" None 30 0 1%float
  = (Retriever.Raise
       (Retriever.FetchError
          "Failed to fetch https://example.org/reviews after 0 attempts" None),
     []).
Proof.
  apply (no_attempt_raises_fetch_error (λ _, inl "<html>") (λ _, None)
           "https://example.org/reviews" None 30 0 1%float).
  lia.
Defined.

(** ** The output path *)

Module PathFacts.
Import Text TextFacts Output.

Lemma no_char_append (ch : ascii) (a b : string) :
  no_char ch (a +:+ b) = no_char ch a && no_char ch b.
Proof.
  induction a as [|c a IH]; [reflexivity |].
  rewrite append_cons. cbn [no_char]. by rewrite IH, andb_assoc.
Qed.

Lemma split_char_no_sep (sep : ascii) (s : string) :
  forall cur : string,
    no_char sep cur = true ->
    Forall (λ piece, no_char sep piece = true) (split_char sep cur s).
Proof.
  induction s as [|c s IH]; intros cur Hcur; cbn [split_char].
  - by repeat constructor.
  - destruct (Ascii.eqb c sep) eqn:E.
    + constructor; [exact Hcur | by apply IH].
    + apply IH. rewrite no_char_append, Hcur. cbn [no_char]. by rewrite E.
Qed.

Lemma split_char_not_nil (sep : ascii) (s cur : string) :
  split_char sep cur s <> [].
Proof.
  revert cur. induction s as [|c s IH]; intros cur; cbn [split_char];
    [discriminate |].
  destruct (Ascii.eqb c sep); [discriminate | apply IH].
Qed.

Lemma split_char_whole (sep : ascii) (s : string) :
  forall cur : string,
    no_char sep s = true -> split_char sep cur s = [cur +:+ s].
Proof.
  induction s as [|c s IH]; intros cur; cbn [split_char no_char].
  - by rewrite append_empty_r.
  - intros [Hc Hs]%andb_true_iff. apply negb_true_iff in Hc. rewrite Hc.
    rewrite IH by exact Hs.
    by rewrite append_assoc, append_cons, append_empty_l.
Qed.

Lemma last_cons_not_nil {A : Type} (x d : A) (l : list A) :
  l <> [] -> List.last (x :: l) d = List.last l d.
Proof. by destruct l. Qed.

Lemma last_Forall {A : Type} (P : A -> Prop) (l : list A) (d : A) :
  Forall P l -> P d -> P (List.last l d).
Proof.
  induction 1 as [|x l Hx Hl IH]; intros Hd; [exact Hd |].
  destruct l; [exact Hx | by apply IH].
Qed.

(** The last piece of a text that ends with a separator and a name. *)
Lemma split_char_last (sep : ascii) (a name : string) :
  forall cur : string,
    no_char sep name = true ->
    List.last (split_char sep cur (a +:+ String sep name)) EmptyString = name.
Proof.
  induction a as [|c a IH]; intros cur Hname.
  - rewrite append_empty_l. cbn [split_char]. rewrite Ascii.eqb_refl.
    by rewrite split_char_whole.
  - rewrite append_cons. cbn [split_char].
    destruct (Ascii.eqb c sep); [| by apply IH].
    rewrite last_cons_not_nil by apply split_char_not_nil. by apply IH.
Qed.

(** Stripping one character on the right. *)
Lemma rstrip_char_all (ch : ascii) (s : string) :
  all_char ch s = true -> rstrip_char ch s = EmptyString.
Proof.
  induction s as [|c s IH]; [reflexivity |]. cbn [all_char rstrip_char].
  intros [Hc Hs]%andb_true_iff. by rewrite (IH Hs), Hc.
Qed.

Lemma rstrip_char_append (ch : ascii) (a b : string) :
  is_empty (rstrip_char ch b) = false ->
  rstrip_char ch (a +:+ b) = a +:+ rstrip_char ch b.
Proof.
  intros Hb. induction a as [|c a IH]; [reflexivity |].
  rewrite !append_cons. cbn [rstrip_char]. rewrite IH.
  assert (H : is_empty (a +:+ rstrip_char ch b) = false)
    by (destruct a; [exact Hb | reflexivity]).
  by rewrite H, andb_false_r.
Qed.

Lemma rstrip_char_name (ch : ascii) (name : string) :
  no_char ch name = true -> rstrip_char ch name = name.
Proof.
  induction name as [|c name IH]; [reflexivity |]. cbn [no_char rstrip_char].
  intros [Hc Hn]%andb_true_iff. apply negb_true_iff in Hc.
  by rewrite (IH Hn), Hc.
Qed.

Lemma rstrip_char_trailing (ch : ascii) (a name slashes : string) :
  no_char ch name = true -> is_empty name = false ->
  all_char ch slashes = true ->
  rstrip_char ch (a +:+ name +:+ slashes) = a +:+ name.
Proof.
  intros Hname Hne Hs.
  assert (Hns : rstrip_char ch (name +:+ slashes) = name).
  { clear a. induction name as [|c name IH]; [discriminate |].
    rewrite append_cons. cbn [no_char rstrip_char] in *.
    apply andb_true_iff in Hname as [Hc Hn]. apply negb_true_iff in Hc.
    rewrite Hc. cbn [andb]. f_equal. destruct name as [|c' name'].
    - rewrite append_empty_l. by apply rstrip_char_all.
    - by apply IH. }
  rewrite rstrip_char_append; by rewrite Hns.
Qed.

(** The path up to its last separator. *)
Lemma head_of_name (name : string) :
  no_char "/" name = true -> head_of name = EmptyString.
Proof.
  induction name as [|c name IH]; [reflexivity |]. cbn [no_char head_of].
  intros [Hc Hn]%andb_true_iff. apply negb_true_iff in Hc.
  by rewrite (IH Hn), Hc.
Qed.

Lemma head_of_append (a name : string) :
  no_char "/" name = true ->
  head_of (a +:+ String "/" name) = a +:+ String "/" EmptyString.
Proof.
  intros Hname. induction a as [|c a IH].
  - rewrite !append_empty_l. cbn [head_of]. by rewrite head_of_name.
  - rewrite !append_cons. cbn [head_of]. rewrite IH. by destruct a.
Qed.

Lemma head_of_empty_iff (p : string) :
  is_empty (head_of p) = no_char "/" p.
Proof.
  induction p as [|c p IH]; [reflexivity |]. cbn [head_of no_char].
  rewrite <- IH. destruct (is_empty (head_of p)); cbn.
  - by destruct (Ascii.eqb c "/").
  - by rewrite andb_false_r.
Qed.

Lemma all_char_not_ending (ch : ascii) (d : string) :
  is_empty d = false -> ends_with_char ch d = false ->
  all_char ch (d +:+ String ch EmptyString) = false.
Proof.
  induction d as [|c d IH]; [discriminate |]. intros _.
  rewrite append_cons. cbn [ends_with_char all_char].
  destruct d as [|c' d'].
  - intros ->. reflexivity.
  - intros H. rewrite IH by done. apply andb_false_r.
Qed.

Lemma rstrip_char_not_ending (ch : ascii) (d : string) :
  ends_with_char ch d = false ->
  rstrip_char ch (d +:+ String ch EmptyString) = d.
Proof.
  induction d as [|c d IH]; intros Hd.
  - rewrite append_empty_l. cbn. by rewrite Ascii.eqb_refl.
  - rewrite append_cons. cbn [rstrip_char]. destruct d as [|c' d'].
    + cbn [ends_with_char] in Hd. rewrite append_empty_l. cbn.
      by rewrite Ascii.eqb_refl, Hd.
    + cbn [ends_with_char] in Hd. rewrite (IH Hd). by rewrite andb_false_r.
Qed.

(** [dirname] is empty exactly for a path without separator. *)
Lemma dirname_empty_iff (p : string) :
  is_empty (dirname p) = no_char "/" p.
Proof.
  unfold dirname. rewrite <- head_of_empty_iff.
  destruct (head_of p) as [|c h] eqn:E; [reflexivity |].
  cbn [is_empty negb andb].
  destruct (all_char "/" (String c h)) eqn:Ea; [reflexivity |].
  cbn [negb].
  assert (H : forall s, all_char "/" s = false ->
                        is_empty (rstrip_char "/" s) = false).
  { clear. induction s as [|x s IH]; [discriminate |].
    cbn [all_char rstrip_char]. destruct (Ascii.eqb x "/"); cbn [andb].
    - intros Hs. apply IH in Hs. by rewrite Hs.
    - reflexivity. }
  by apply H.
Qed.

(** The slug of a URL. *)
Lemma slug_of_facts (url : string) :
  is_empty (slug_of url) = false /\ no_char "/" (slug_of url) = true.
Proof.
  unfold slug_of.
  set (piece := List.last _ _).
  assert (Hpiece : no_char "/" piece = true).
  { subst piece. apply (last_Forall (λ s, no_char "/" s = true));
      [by apply split_char_no_sep | reflexivity]. }
  destruct (is_empty piece) eqn:E; [by split | by split].
Qed.

Lemma starts_with_char_name (ch : ascii) (name t : string) :
  is_empty name = false -> no_char ch name = true ->
  starts_with_char ch (name +:+ t) = false.
Proof.
  destruct name as [|c name]; [discriminate |]. intros _.
  rewrite append_cons. cbn [no_char starts_with_char].
  intros [Hc _]%andb_true_iff. by apply negb_true_iff in Hc.
Qed.

Lemma dirname_join (folder name : string) :
  is_empty folder = false -> ends_with_char "/" folder = false ->
  no_char "/" name = true ->
  dirname (folder +:+ "/" +:+ name) = folder.
Proof.
  intros Hfe Hend Hname. unfold dirname.
  rewrite append_cons, append_empty_l.
  rewrite head_of_append by exact Hname.
  rewrite all_char_not_ending by done.
  assert (He : is_empty (folder +:+ String "/" EmptyString) = false)
    by (by destruct folder).
  rewrite He. cbn [negb andb]. by apply rstrip_char_not_ending.
Qed.

Lemma default_output_path_eq (w : world) (url : string) :
  _default_output_path w url
  = (match makedirs_error w "results" with
     | Some what => inr (OSError what)
     | None =>
         inl ("results/" +:+ slug_of url +:+ "_" +:+ now w +:+ ".csv")
     end,
     [Makedirs "results"]).
Proof.
  unfold _default_output_path. cbn [try_folders].
  rewrite String.eqb_refl, orb_true_r. unfold makedirs.
  destruct (slug_of_facts url) as [Hne Hno].
  destruct (makedirs_error w "results"); [reflexivity |].
  cbn [fmap option_fmap option_map]. unfold path_join.
  by rewrite starts_with_char_name.
Qed.

End PathFacts.

(** X19. The slug of a URL is never empty and holds no path separator; it is the
    last segment of the URL, slashes at the end of the URL left aside, and
    the word output when the URL is empty or made of slashes only
    (main.py, line 177). *)
Theorem slug_is_last_segment :
  (forall url : string,
      Output.slug_of url <> EmptyString
      /\ no_char "/" (Output.slug_of url) = true)
  /\ (forall base name slashes : string,
        name <> EmptyString -> no_char "/" name = true ->
        Output.all_char "/" slashes = true ->
        Output.slug_of (base +:+ "/" +:+ name +:+ slashes) = name)
  /\ (forall url : string,
        Output.all_char "/" url = true -> Output.slug_of url = "output").
Proof.
  split; [| split].
  - intros url. destruct (PathFacts.slug_of_facts url) as [Hne Hno].
    split; [by intros H; rewrite H in Hne | exact Hno].
  - intros base name slashes Hne Hname Hs. unfold Output.slug_of.
    assert (Hn : Text.is_empty name = false) by (by destruct name).
    rewrite <- !TextFacts.append_assoc.
    rewrite (TextFacts.append_assoc (base +:+ "/") name slashes).
    rewrite PathFacts.rstrip_char_trailing by done.
    rewrite TextFacts.append_assoc, TextFacts.append_cons,
            TextFacts.append_empty_l.
    rewrite PathFacts.split_char_last by done. by rewrite Hn.
  - intros url Hurl. unfold Output.slug_of.
    by rewrite PathFacts.rstrip_char_all.
Qed.

Lemma slug_is_last_segment_witness :
  Output.slug_of ("https://example.org/blog" +:+ "/" +:+ "best-services"
                  +:+ "//") = "best-services"
  /\ Output.slug_of "///" = "output".
Proof.
  destruct slug_is_last_segment as (_ & Hlast & Hnone). split.
  - apply Hlast; [discriminate | reflexivity | reflexivity].
  - apply Hnone. reflexivity.
Defined.

(** X20. [_default_output_path] always chooses the folder results: it creates it
    and, when that succeeds, returns results/<slug>_<timestamp>.csv, whatever
    directories exist; the folder output is never looked into with effect,
    and the code after the loop is never reached.  When the folder cannot be
    created the error leaves the function (main.py, lines 176-186). *)
Theorem default_output_path_is_in_results (w : Output.world) (url : string) :
  Output._default_output_path w url
  = (match Output.makedirs_error w "results" with
     | Some what => inr (Output.OSError what)
     | None =>
         inl ("results/" +:+ Output.slug_of url +:+ "_" +:+ Output.now w
              +:+ ".csv")
     end,
     [Output.Makedirs "results"])
  /\ Output.try_folders w
       (Output.slug_of url +:+ "_" +:+ Output.now w +:+ ".csv")
       ["results"; "output"] <> None.
Proof.
  split; [apply PathFacts.default_output_path_eq |].
  cbn [Output.try_folders]. by rewrite String.eqb_refl, orb_true_r.
Qed.


(** ** Writing the file *)

Module WriteFacts.
Import Output.

(** The row of a record: the dictionary built for [writerow] has the seven
    columns as keys and nothing else, so that [DictWriter] accepts it, and
    its cells are the fields of the record in the order of the columns. *)
Lemma dict_to_cells_row (row : ServiceReview) :
  dict_to_cells fieldnames (rowdict_of row) = inl (cells_of row).
Proof.
  destruct row as [f1 f2 f3 f4 f5 f6 f7]. unfold dict_to_cells.
  assert (Hdom : dom (rowdict_of (mkServiceReview f1 f2 f3 f4 f5 f6 f7))
                 ⊆ (list_to_set fieldnames : gset string)).
  { unfold rowdict_of. rewrite dom_list_to_map_L, <- list_fmap_compose.
    cbn. set_solver. }
  destruct (decide _) as [_ | Hno]; [| contradiction].
  vm_compute. reflexivity.
Qed.

Lemma write_rows_ok (w : world) (output_path : string)
    (rows : list ServiceReview) :
  forall i : nat,
    (forall j : nat, (i <= j < i + length rows)%nat ->
                     write_error w output_path j = None) ->
    write_rows w output_path i rows
    = (None, map (λ row, Writerow (cells_of row)) rows).
Proof.
  induction rows as [|row rows IH]; intros i Hok; [reflexivity |].
  cbn [write_rows map]. rewrite dict_to_cells_row. unfold writerow.
  rewrite (Hok i) by (cbn [length]; lia).
  cbn [fmap option_fmap option_map].
  rewrite (IH (S i)); [reflexivity |].
  intros j Hj. apply Hok. cbn [length]. lia.
Qed.

Lemma write_body_ok (w : world) (output_path : string)
    (rows : list ServiceReview) :
  (forall i : nat, (i <= length rows)%nat ->
                   write_error w output_path i = None) ->
  write_body w output_path rows
  = (None, Writerow fieldnames :: map (λ row, Writerow (cells_of row)) rows).
Proof.
  intros Hok. unfold write_body, writerow. rewrite (Hok 0%nat) by lia.
  cbn [fmap option_fmap option_map].
  rewrite write_rows_ok; [reflexivity |].
  intros j Hj. apply Hok. lia.
Qed.

(** The directory part of the effects of [write_csv]. *)
Local Abbreviation made output_path :=
  (if Text.is_empty (dirname output_path) then []
   else [Makedirs (dirname output_path)]).

Lemma write_csv_opened (w : world) (rows : list ServiceReview)
    (output_path : string) :
  (dirname output_path = EmptyString
   \/ makedirs_error w (dirname output_path) = None) ->
  open_error w output_path = None ->
  write_csv w rows output_path
  = (match close_error w output_path, (write_body w output_path rows).1 with
     | Some what, _ => inr (OSError what)
     | None, Some e => inr e
     | None, None => inl output_path
     end,
     made output_path ++ [Open output_path]
     ++ (write_body w output_path rows).2 ++ [Close output_path]).
Proof.
  intros Hdir Hopen. unfold write_csv, makedirs. rewrite Hopen.
  destruct (write_body w output_path rows) as [raised body_t]. cbn [fst snd].
  destruct (Text.is_empty (dirname output_path)) eqn:E.
  - cbn [app]. by destruct (close_error w output_path), raised.
  - destruct Hdir as [Hd | Hd]; [by rewrite Hd in E |].
    rewrite Hd. cbn [fmap option_fmap option_map].
    by destruct (close_error w output_path), raised.
Qed.

Lemma write_csv_ok (w : world) (rows : list ServiceReview)
    (output_path : string) :
  (dirname output_path = EmptyString
   \/ makedirs_error w (dirname output_path) = None) ->
  open_error w output_path = None ->
  (forall i : nat, (i <= length rows)%nat ->
                   write_error w output_path i = None) ->
  close_error w output_path = None ->
  write_csv w rows output_path
  = (inl output_path,
     made output_path
     ++ [Open output_path; Writerow fieldnames]
     ++ map (λ row, Writerow (cells_of row)) rows
     ++ [Close output_path]).
Proof.
  intros Hdir Hopen Hwrite Hclose.
  rewrite (write_csv_opened w rows output_path Hdir Hopen).
  by rewrite (write_body_ok w output_path rows Hwrite), Hclose.
Qed.

(** The effects of the output side are neither printed lines nor effects
    of the retriever, those of the body of the [with] statement create no
    directory, and the output side raises no error of [fetch_html]. *)
Local Abbreviation quiet :=
  (λ e : effect, is_print e = false /\ is_net e = false).
Local Abbreviation in_file :=
  (λ e : effect,
     is_print e = false /\ is_net e = false /\ is_makedirs e = false).

Lemma write_rows_effects (w : world) (output_path : string)
    (rows : list ServiceReview) :
  forall i : nat,
    Forall in_file (write_rows w output_path i rows).2
    /\ forall e, (write_rows w output_path i rows).1 <> Some (FromFetch e).
Proof.
  induction rows as [|row rows IH]; intros i; cbn [write_rows].
  - by split; [constructor |].
  - rewrite dict_to_cells_row. unfold writerow.
    destruct (write_error w output_path i);
      cbn [fmap option_fmap option_map fst snd].
    + by split; [repeat constructor |].
    + destruct (IH (S i)) as [Ht Hr].
      destruct (write_rows w output_path (S i) rows) as [r t].
      cbn [fst snd app] in *. split; [| exact Hr].
      by constructor.
Qed.

Lemma write_body_effects (w : world) (output_path : string)
    (rows : list ServiceReview) :
  Forall in_file (write_body w output_path rows).2
  /\ forall e, (write_body w output_path rows).1 <> Some (FromFetch e).
Proof.
  unfold write_body, writerow.
  destruct (write_error w output_path 0);
    cbn [fmap option_fmap option_map fst snd].
  - by split; [repeat constructor |].
  - destruct (write_rows_effects w output_path rows 1) as [Ht Hr].
    destruct (write_rows w output_path 1 rows) as [r t].
    cbn [fst snd app] in *. split; [| exact Hr].
    by constructor.
Qed.

Lemma write_csv_effects (w : world) (rows : list ServiceReview)
    (output_path : string) :
  Forall quiet (write_csv w rows output_path).2
  /\ forall e, (write_csv w rows output_path).1 <> inr (FromFetch e).
Proof.
  unfold write_csv, makedirs.
  destruct (write_body_effects w output_path rows) as [Ht Hr].
  destruct (write_body w output_path rows) as [raised body_t].
  cbn [fst snd] in Ht, Hr.
  assert (Hbody : Forall quiet body_t).
  { eapply Forall_impl; [exact Ht | by intros e (? & ? & _)]. }
  assert (Hfile : forall t : list effect,
             Forall quiet t ->
             Forall quiet
               (t ++ [Open output_path] ++ body_t ++ [Close output_path])).
  { intros t Ht0. rewrite !Forall_app.
    repeat split; [exact Ht0 | | exact Hbody |]; by repeat constructor. }
  assert (Hmade : Forall quiet [Makedirs (dirname output_path)])
    by (by repeat constructor).
  destruct (Text.is_empty (dirname output_path));
    [| destruct (makedirs_error w (dirname output_path))];
    cbn [fmap option_fmap option_map fst snd].
  - destruct (open_error w output_path); cbn [fst snd].
    + split; [by repeat constructor | discriminate].
    + destruct (close_error w output_path), raised as [e0|]; cbn [fst snd];
        (split; [by apply Hfile |]); try discriminate.
      intros e [= ->]. by destruct (Hr e).
  - split; [exact Hmade | discriminate].
  - destruct (open_error w output_path); cbn [fst snd].
    + split; [| discriminate]. apply Forall_app. split; [exact Hmade |].
      by repeat constructor.
    + destruct (close_error w output_path), raised as [e0|]; cbn [fst snd];
        (split; [by apply Hfile |]); try discriminate.
      intros e [= ->]. by destruct (Hr e).
Qed.

(** Without a directory in the path no directory is created. *)
Lemma write_csv_bare (w : world) (rows : list ServiceReview)
    (output_path : string) :
  dirname output_path = EmptyString ->
  Forall (λ e, is_makedirs e = false) (write_csv w rows output_path).2.
Proof.
  intros Hdir. unfold write_csv. rewrite Hdir. cbn [Text.is_empty].
  destruct (open_error w output_path); [by repeat constructor |].
  destruct (write_body_effects w output_path rows) as [Ht _].
  destruct (write_body w output_path rows) as [raised body_t].
  cbn [fst snd] in Ht.
  assert (Forall (λ e, is_makedirs e = false)
                 ([] ++ [Open output_path] ++ body_t ++ [Close output_path])).
  { rewrite !Forall_app. repeat split; try (by repeat constructor).
    eapply Forall_impl; [exact Ht | by intros e (_ & _ & ?)]. }
  by destruct (close_error w output_path), raised.
Qed.

(** With a directory in the path its creation comes first. *)
Lemma write_csv_first (w : world) (rows : list ServiceReview)
    (output_path : string) :
  Text.is_empty (dirname output_path) = false ->
  exists rest,
    (write_csv w rows output_path).2 = Makedirs (dirname output_path) :: rest.
Proof.
  intros Hdir. unfold write_csv, makedirs. rewrite Hdir.
  destruct (makedirs_error w (dirname output_path));
    cbn [fmap option_fmap option_map]; [by eexists |].
  destruct (open_error w output_path); [by eexists |].
  destruct (write_body w output_path rows) as [raised body_t].
  destruct (close_error w output_path), raised; by eexists.
Qed.

End WriteFacts.

(** X22. When the directory of the path can be created, or the path has none,
    the file can be opened, and every write and the closing of the file
    succeed, [write_csv] writes the header row and then one row per record,
    in the order of the records, the cells of a row being the seven fields
    of the record in the order of the columns; it closes the file and
    returns the path.  No row is ever refused for a key that is no column.
    When the write of the header fails, or when all is written and closing
    the file fails, the error is raised after the file has been closed
    (main.py, lines 150-173). *)
Theorem write_csv_writes_every_record
    (w : Output.world) (rows : list ServiceReview) (output_path : string) :
  (Output.dirname output_path = EmptyString
   \/ Output.makedirs_error w (Output.dirname output_path) = None) ->
  Output.open_error w output_path = None ->
  let made :=
    if Text.is_empty (Output.dirname output_path) then []
    else [Output.Makedirs (Output.dirname output_path)] in
  let written :=
    map (λ row, Output.Writerow
                  [service_name row; heading row; url row; summary row;
                   how_it_works row; practice_areas row; pricing row])
        rows in
  (writes_succeed w output_path (length rows) ->
   Output.write_csv w rows output_path
   = (inl output_path,
      made ++ [Output.Open output_path; Output.Writerow fieldnames]
      ++ written ++ [Output.Close output_path]))
  /\ (forall what : string,
        Output.write_error w output_path 0 = Some what ->
        Output.close_error w output_path = None ->
        Output.write_csv w rows output_path
        = (inr (Output.OSError what),
           made ++ [Output.Open output_path; Output.Writerow fieldnames;
                    Output.Close output_path]))
  /\ (forall what : string,
        (forall i : nat, (i <= length rows)%nat ->
                         Output.write_error w output_path i = None) ->
        Output.close_error w output_path = Some what ->
        Output.write_csv w rows output_path
        = (inr (Output.OSError what),
           made ++ [Output.Open output_path; Output.Writerow fieldnames]
           ++ written ++ [Output.Close output_path])).
Proof.
  intros Hdir Hopen made written. split; [| split].
  - intros [Hwrite Hclose]. by apply WriteFacts.write_csv_ok.
  - intros what Hwrite Hclose.
    rewrite (WriteFacts.write_csv_opened w rows output_path Hdir Hopen).
    unfold Output.write_body, Output.writerow. rewrite Hwrite, Hclose.
    reflexivity.
  - intros what Hwrite Hclose.
    rewrite (WriteFacts.write_csv_opened w rows output_path Hdir Hopen).
    by rewrite (WriteFacts.write_body_ok w output_path rows Hwrite), Hclose.
Qed.

(** Two records written to a path in a folder. *)
Lemma write_csv_writes_every_record_witness :
  Output.write_csv (Output.calm "20260101_120000")
    [mkServiceReview "Acme" "Acme Review for Lawyers" "u" "s" "h" "a" "p";
     mkServiceReview "Bolt" "Bolt Review for Lawyers" "u" "" "" "" ""]
    "out/reviews.csv"
  = (inl "out/reviews.csv",
     [Output.Makedirs "out"; Output.Open "out/reviews.csv";
      Output.Writerow fieldnames;
      Output.Writerow ["Acme"; "Acme Review for Lawyers"; "u"; "s"; "h"; "a";
                       "p"];
      Output.Writerow ["Bolt"; "Bolt Review for Lawyers"; "u"; ""; ""; "";
                       ""];
      Output.Close "out/reviews.csv"]).
Proof.
  destruct (write_csv_writes_every_record (Output.calm "20260101_120000")
              [mkServiceReview "Acme" "Acme Review for Lawyers" "u" "s" "h"
                 "a" "p";
               mkServiceReview "Bolt" "Bolt Review for Lawyers" "u" "" "" ""
                 ""]
              "out/reviews.csv") as [Hok _].
  - by right.
  - reflexivity.
  - rewrite Hok; [reflexivity |]. split; [intros i _ |]; reflexivity.
Defined.

(** X23. When the directory of the path cannot be created [write_csv] raises the
    error without opening the file, and when the file cannot be opened it
    raises the error without writing a row (main.py, lines 151-166). *)
Theorem write_csv_stops_at_the_first_error
    (w : Output.world) (rows : list ServiceReview) (output_path what : string) :
  (Output.dirname output_path <> EmptyString ->
   Output.makedirs_error w (Output.dirname output_path) = Some what ->
   Output.write_csv w rows output_path
   = (inr (Output.OSError what),
      [Output.Makedirs (Output.dirname output_path)]))
  /\ ((Output.dirname output_path = EmptyString
       \/ Output.makedirs_error w (Output.dirname output_path) = None) ->
      Output.open_error w output_path = Some what ->
      Output.write_csv w rows output_path
      = (inr (Output.OSError what),
         (if Text.is_empty (Output.dirname output_path) then []
          else [Output.Makedirs (Output.dirname output_path)])
         ++ [Output.Open output_path])).
Proof.
  unfold Output.write_csv, Output.makedirs. split.
  - intros Hdir Herr.
    destruct (Text.is_empty (Output.dirname output_path)) eqn:E.
    + by destruct (Output.dirname output_path).
    + by rewrite Herr.
  - intros Hdir Hopen. rewrite Hopen.
    destruct (Text.is_empty (Output.dirname output_path)) eqn:E;
      [reflexivity |].
    destruct Hdir as [Hd | Hd]; [by rewrite Hd in E | by rewrite Hd].
Qed.

(** A folder that cannot be created. *)
Lemma write_csv_stops_at_the_first_error_witness :
  Output.write_csv
    {| Output.isdir := λ _, false;
       Output.makedirs_error := λ _, Some "Permission denied";
       Output.open_error := λ _, None;
       Output.write_error := λ _ _, None;
       Output.close_error := λ _, None;
       Output.now := "20260101_120000" |}
    [mkServiceReview "Acme" "Acme Review for Lawyers" "u" "s" "h" "a" "p"]
    "out/reviews.csv"
  = (inr (Output.OSError "Permission denied"), [Output.Makedirs "out"]).
Proof.
  apply (proj1 (write_csv_stops_at_the_first_error _ _ "out/reviews.csv"
                  "Permission denied"));
    [discriminate | reflexivity].
Defined.

(** ** The program *)

Module MainFacts.
Import Output.

(** [time.sleep] accepts the waits of the default backoff of one second
    between three attempts. *)
Lemma default_waits (long_sleep : float -> option Retriever.exn) (m : Z) :
  (m <= 3)%Z -> waits_accepted long_sleep 1%float m.
Proof.
  intros Hm n Hn. assert (n = 1 \/ n = 2)%Z as [-> | ->] by lia;
    vm_compute; reflexivity.
Qed.

(** The default call of [fetch_html] in [main], when it stops at attempt
    [m] of its three attempts. *)
Lemma fetch_in_main (transport : Z -> string + Retriever.exn)
    (long_sleep : float -> option Retriever.exn) (url : string) (m : Z) :
  (1 <= m <= 3)%Z ->
  (forall n : Z, (1 <= n < m)%Z -> Retriever.failed (transport n) = true) ->
  (Retriever.failed (transport m) = true -> m = 3%Z) ->
  Retriever.fetch_html transport long_sleep url None 30 3 1%float
  = (Retriever.final_result url 3 (transport m),
     Retriever.backoff_trace
       (Retriever.Request url (Retriever.merged_headers None) 30) 1%float m).
Proof.
  intros Hm Hfail Hstop.
  apply RetrieverFacts.fetch_html_until;
    [exact Hm | apply default_waits; lia | exact Hfail | exact Hstop].
Qed.

Lemma Forall_map_Net (P : effect -> Prop) (net : list Retriever.event) :
  (forall e, P (Net e)) -> Forall P (map Net net).
Proof. intros H. induction net; by constructor. Qed.

End MainFacts.

(** X24. When the three requests of [main] fail, the program ends with the
    [FetchError] of [fetch_html], whose cause is the third failure, after
    three requests and waits of one and of two seconds: no directory is
    created, no file is opened, no row is written and nothing is printed
    (main.py, lines 201-210). *)
Theorem main_writes_nothing_when_fetch_fails
    (w : Output.world) (transport : Z -> string + Retriever.exn)
    (long_sleep : float -> option Retriever.exn)
    (BeautifulSoup : string -> list node) (url : string)
    (output : option string) :
  (forall n : Z, (1 <= n <= 3)%Z -> Retriever.failed (transport n) = true) ->
  exists what : string,
    transport 3%Z = inr (Retriever.RequestException what)
    /\ Output.main w transport long_sleep BeautifulSoup url output
       = (inr (Output.FromFetch
                 (Retriever.FetchError
                    ("Failed to fetch " +:+ url +:+ " after 3 attempts")
                    (Some (Retriever.RequestException what)))),
          map Output.Net
            (Retriever.backoff_trace
               (Retriever.Request url (Retriever.merged_headers None) 30)
               1%float 3))
    /\ Forall (λ e, is_net e = true)
              (Output.main w transport long_sleep BeautifulSoup url output).2.
Proof.
  intros Hfail. pose proof (Hfail 3%Z ltac:(lia)) as H3.
  destruct (transport 3%Z) as [text | e] eqn:E3; [discriminate |].
  destruct e as [what | | | |]; try discriminate.
  exists what. split; [reflexivity |].
  assert (Hmain : Output.main w transport long_sleep BeautifulSoup url output
                  = (inr (Output.FromFetch
                            (Retriever.FetchError
                               ("Failed to fetch " +:+ url
                                +:+ " after 3 attempts")
                               (Some (Retriever.RequestException what)))),
                     map Output.Net
                       (Retriever.backoff_trace
                          (Retriever.Request url
                             (Retriever.merged_headers None) 30)
                          1%float 3))).
  { unfold Output.main.
    rewrite (MainFacts.fetch_in_main transport long_sleep url 3);
      [| lia | | done].
    - by rewrite E3.
    - intros n Hn. apply Hfail. lia. }
  split; [exact Hmain |]. rewrite Hmain. cbn [snd].
  by apply MainFacts.Forall_map_Net.
Qed.

Lemma main_writes_nothing_when_fetch_fails_witness :
  exists what : string,
    (Output.main (Output.calm "20260101_120000")
       (λ _, inr (Retriever.RequestException "timed out")) (λ _, None)
       (λ _, acme_soup) "https://example.org/reviews" None).1
    = inr (Output.FromFetch
             (Retriever.FetchError
                "Failed to fetch https://example.org/reviews after 3 attempts"
                (Some (Retriever.RequestException what)))).
Proof.
  destruct (main_writes_nothing_when_fetch_fails
              (Output.calm "20260101_120000")
              (λ _, inr (Retriever.RequestException "timed out")) (λ _, None)
              (λ _, acme_soup) "https://example.org/reviews" None)
    as (what & _ & Hmain & _); [intros n _; reflexivity |].
  exists what. by rewrite Hmain.
Defined.

(** X25. When a request succeeds, after failed ones only, and the file system
    calls succeed (the creation of the directories, the opening of the
    file, every write of a row and the closing of the file), [main] returns
    0 and does, in this order: the requests and waits up to that request;
    the creation of results when the path is the default one; the creation
    of the directory of the path if it has one; the opening of the file; the
    header row and the rows of the records that [parse_services] finds in
    the response; the closing of the file; the line with the number of
    those records and the line with the path.  The path is the value of the
    output option unless that is absent or empty
    (main.py, lines 189-210). *)
Theorem main_writes_the_parsed_records
    (w : Output.world) (transport : Z -> string + Retriever.exn)
    (long_sleep : float -> option Retriever.exn)
    (BeautifulSoup : string -> list node) (url : string)
    (output : option string) (m : Z) (html : string) :
  (1 <= m <= 3)%Z ->
  (forall n : Z, (1 <= n < m)%Z -> Retriever.failed (transport n) = true) ->
  transport m = inl html ->
  let path := chosen_path w url output in
  let services := parse_services BeautifulSoup url html in
  (uses_default output = true -> Output.makedirs_error w "results" = None) ->
  (Output.dirname path = EmptyString
   \/ Output.makedirs_error w (Output.dirname path) = None) ->
  Output.open_error w path = None ->
  writes_succeed w path (length services) ->
  Output.main w transport long_sleep BeautifulSoup url output
  = (inl 0%Z,
     map Output.Net
       (Retriever.backoff_trace
          (Retriever.Request url (Retriever.merged_headers None) 30)
          1%float m)
     ++ (if uses_default output then [Output.Makedirs "results"] else [])
     ++ ((if Text.is_empty (Output.dirname path) then []
          else [Output.Makedirs (Output.dirname path)])
         ++ [Output.Open path; Output.Writerow fieldnames]
         ++ map (λ row, Output.Writerow (Output.cells_of row)) services
         ++ [Output.Close path])
     ++ [Output.Print
           ("Extracted " +:+ pretty (Z.of_nat (length services))
            +:+ " services");
         Output.Print ("Saved CSV to: " +:+ path)]).
Proof.
  intros Hm Hfail Hok path services Hdefault Hdir Hopen [Hwrite Hclose].
  unfold Output.main.
  rewrite (MainFacts.fetch_in_main transport long_sleep url m);
    [| exact Hm | exact Hfail | by rewrite Hok].
  rewrite Hok. cbn [Retriever.final_result].
  assert (Hchoice :
            match output with
            | Some o =>
                if Text.is_empty o then Output._default_output_path w url
                else (inl o, [])
            | None => Output._default_output_path w url
            end
            = (inl path,
               if uses_default output then [Output.Makedirs "results"]
               else [])).
  { subst path. unfold chosen_path, uses_default in *.
    rewrite PathFacts.default_output_path_eq.
    destruct output as [o|].
    - destruct (Text.is_empty o); [by rewrite Hdefault | reflexivity].
    - by rewrite Hdefault. }
  rewrite Hchoice. fold services.
  by rewrite (WriteFacts.write_csv_ok w services path Hdir Hopen Hwrite
                Hclose).
Qed.

(** The page [acme_soup] fetched at the second attempt and written to the
    default path. *)
Lemma main_writes_the_parsed_records_witness :
  (Output.main (Output.calm "20260101_120000")
     (λ n, if (n =? 2)%Z then inl "<html>"
           else inr (Retriever.RequestException "timed out"))
     (λ _, None) (λ _, acme_soup) "https://example.org/reviews/" None).1
  = inl 0%Z.
Proof.
  rewrite (main_writes_the_parsed_records (Output.calm "20260101_120000")
             (λ n, if (n =? 2)%Z then inl "<html>"
                   else inr (Retriever.RequestException "timed out"))
             (λ _, None) (λ _, acme_soup) "https://example.org/reviews/"
             None 2 "<html>").
  - reflexivity.
  - lia.
  - intros n Hn. assert (n = 1%Z) as -> by lia. reflexivity.
  - reflexivity.
  - reflexivity.
  - by right.
  - reflexivity.
  - split; [intros i _ |]; reflexivity.
Defined.

(** X26. Whatever the network and the file system do, [main] prints nothing
    unless it returns, and what it returns is 0; when it ends with an error
    of [fetch_html], it has touched nothing but the network
    (main.py, lines 201-210). *)
Theorem main_prints_only_on_success
    (w : Output.world) (transport : Z -> string + Retriever.exn)
    (long_sleep : float -> option Retriever.exn)
    (BeautifulSoup : string -> list node) (url : string)
    (output : option string) :
  let run := Output.main w transport long_sleep BeautifulSoup url output in
  (forall code : Z, run.1 = inl code -> code = 0%Z)
  /\ (forall e : Output.exn,
        run.1 = inr e -> Forall (λ ef, is_print ef = false) run.2)
  /\ (forall e : Retriever.exn,
        run.1 = inr (Output.FromFetch e) ->
        Forall (λ ef, is_net ef = true) run.2).
Proof.
  cbv zeta. unfold Output.main.
  destruct (Retriever.fetch_html transport long_sleep url None 30 3 1%float)
    as [[html | e0] net].
  - assert (Hnet : Forall (λ ef, is_print ef = false) (map Output.Net net))
      by (by apply MainFacts.Forall_map_Net).
    set (choice := match output with
                   | Some o =>
                       if Text.is_empty o
                       then Output._default_output_path w url
                       else (inl o, [])
                   | None => Output._default_output_path w url
                   end).
    assert (Hchoice : (exists p, choice = (inl p, []))
                      \/ choice = Output._default_output_path w url).
    { subst choice. destruct output as [o|]; [| by right].
      destruct (Text.is_empty o); [by right | left; by exists o]. }
    assert (Ht1 : Forall (λ ef, is_print ef = false) choice.2
                  /\ forall e, choice.1 <> inr (Output.FromFetch e)).
    { destruct Hchoice as [[p ->] | ->]; [by split |].
      rewrite PathFacts.default_output_path_eq. cbn [fst snd].
      split; [by repeat constructor |].
      by destruct (Output.makedirs_error w "results"). }
    destruct choice as [[path | e1] t1]. cbn [fst snd] in Ht1.
    + destruct (WriteFacts.write_csv_effects w
                  (parse_services BeautifulSoup url html) path) as [Hw Hwe].
      destruct (Output.write_csv w _ path) as [[p | e2] t2];
        cbn [fst snd] in *.
      * split; [by intros code [= <-] |]. split; discriminate.
      * split; [discriminate |]. split.
        -- intros e _. rewrite !Forall_app. destruct Ht1 as [Ht1 _].
           repeat split; try done.
           eapply Forall_impl; [exact Hw | by intros ef [H _]].
        -- intros e [= ->]. by destruct (Hwe e).
    + cbn [fst snd] in *. split; [discriminate |]. split.
      * intros e _. rewrite Forall_app. by destruct Ht1.
      * intros e [= ->]. destruct Ht1 as [_ Ht1]. by destruct (Ht1 e).
  - cbn [fst snd]. split; [discriminate |]. split; intros e _.
    + by apply MainFacts.Forall_map_Net.
    + by apply MainFacts.Forall_map_Net.
Qed.

(** A run that fails at the first request with an exception that is not
    caught. *)
Lemma main_prints_only_on_success_witness :
  Forall (λ ef, is_net ef = true)
    (Output.main (Output.calm "20260101_120000")
       (λ _, inr (Retriever.OtherException "interrupted")) (λ _, None)
       (λ _, acme_soup) "https://example.org/reviews" None).2.
Proof.
  eapply (proj2 (proj2 (main_prints_only_on_success
                          (Output.calm "20260101_120000")
                          (λ _, inr (Retriever.OtherException "interrupted"))
                          (λ _, None)
                          (λ _, acme_soup) "https://example.org/reviews"
                          None))).
  vm_compute. reflexivity.
Defined.

(** ** The summary *)

(** X13. The summary of a record is the text of the nodes of its section that
    come before the first sub-heading: no sub-heading, whatever its title,
    sends anything to the summary (main.py, lines 79-99 and 126). *)
Theorem summary_is_text_before_first_subheading
    (service_name heading_text url : string) (nodes : list node) :
  get_or_empty "summary" (_split_by_h3 nodes) = leading_nodes nodes
  /\ summary (review_of service_name heading_text url nodes)
     = _extract_section_text (leading_nodes nodes).
Proof.
  assert (H : get_or_empty "summary" (_split_by_h3 nodes)
              = leading_nodes nodes).
  { rewrite ScanFacts.get_or_empty_split.
    induction nodes as [|n rest IH]; [reflexivity |].
    cbn [routed leading_nodes].
    destruct (is_tag_named "h3" n).
    - apply ScanFacts.routed_summary_left, ScanFacts.section_key_not_summary.
    - destruct (is_tag_named "h2" n); [reflexivity |]. cbn. by rewrite IH. }
  split; [exact H |]. unfold review_of. cbn [summary]. by rewrite H.
Qed.

(** ** The directory of the file *)

(** X21. [write_csv] creates a directory exactly when the path holds a
    separator: for a bare file name it creates none, otherwise its first
    effect is the creation of the directory of the path.  The directory of
    the default path is results, which [write_csv] therefore creates once
    more after [_default_output_path] (main.py, lines 151-153, 182-183). *)
Theorem write_csv_creates_the_directory
    (w : Output.world) (rows : list ServiceReview) (url output_path : string) :
  (no_char "/" output_path = true ->
   Forall (λ e, is_makedirs e = false)
          (Output.write_csv w rows output_path).2)
  /\ (no_char "/" output_path = false ->
      exists rest,
        (Output.write_csv w rows output_path).2
        = Output.Makedirs (Output.dirname output_path) :: rest)
  /\ (no_char "/" (Output.now w) = true ->
      Output.dirname (chosen_path w url None) = "results").
Proof.
  pose proof (PathFacts.dirname_empty_iff output_path) as Hdir.
  split; [| split].
  - intros Hno. rewrite Hno in Hdir.
    apply WriteFacts.write_csv_bare.
    by destruct (Output.dirname output_path).
  - intros Hno. rewrite Hno in Hdir.
    by apply WriteFacts.write_csv_first.
  - intros Hnow. unfold chosen_path.
    destruct (PathFacts.slug_of_facts url) as [_ Hslug].
    change ("results/" +:+ ?x) with ("results" +:+ "/" +:+ x).
    apply PathFacts.dirname_join; [reflexivity | reflexivity |].
    by rewrite !PathFacts.no_char_append, Hslug, Hnow.
Qed.

Lemma write_csv_creates_the_directory_witness :
  Forall (λ e, is_makedirs e = false)
    (Output.write_csv (Output.calm "20260101_120000")
       [mkServiceReview "Acme" "Acme Review for Lawyers" "u" "s" "h" "a" "p"]
       "reviews.csv").2
  /\ Output.dirname
       (chosen_path (Output.calm "20260101_120000")
          "https://example.org/reviews" None) = "results".
Proof.
  destruct (write_csv_creates_the_directory (Output.calm "20260101_120000")
              [mkServiceReview "Acme" "Acme Review for Lawyers" "u" "s" "h"
                 "a" "p"]
              "https://example.org/reviews" "reviews.csv")
    as (Hbare & _ & Hdefault).
  split; [apply Hbare; reflexivity | apply Hdefault; reflexivity].
Defined.
